(** * FlowTrack: the nudge scheduling and delivery engine

    A shallow embedding of the server-side core of the repository:

    - [src/app/api/cron/nudges/route.ts]  (materialise today's nudges, dispatch
      the due ones),
    - [src/app/api/cron/reports/route.ts] (daily manager report),
    - the acknowledgement route           (HMAC-protected capability link),
    - [src/lib/supabase/middleware.ts]    (the session gate in front of the routes),
    - the tables of [supabase/migrations/*_notifications_nudges_reports_schema.sql].

    Conventions.  Instants are integers: milliseconds since the Unix epoch
    (what [Date.now()] and luxon's [toMillis()] return).  A calendar date
    ("YYYY-MM-DD", a Postgres [date]) is the number of days since 1970-01-01,
    so that the instant written [`${d}T23:59:59Z`] is [d * 86400000 + 86399000].
    All these numbers are far below 2^53, hence the JavaScript arithmetic on
    them is exact and is rendered with [Z].  Strings are byte strings (the
    UTF-8 encoding that [Buffer.from] produces). *)

From Stdlib Require Import String Ascii Bool Arith ZArith List Lia DecimalString.
From Stdlib Require DecimalNat DecimalFacts.
Import ListNotations.
Local Open Scope string_scope.
Local Open Scope list_scope.
Local Open Scope Z_scope.

(** ** node:crypto — [createHmac("sha256", key).update(msg).digest("hex")] *)

Module Sha256.

Definition w32 (x : Z) : Z := x mod 2 ^ 32.
Definition add32 (x y : Z) : Z := w32 (x + y).
Definition rotr (n x : Z) : Z := Z.lor (Z.shiftr x n) (w32 (Z.shiftl x (32 - n))).
Definition not32 (x : Z) : Z := Z.lxor x (2 ^ 32 - 1).

Definition Ch (x y z : Z) : Z := Z.lxor (Z.land x y) (Z.land (not32 x) z).
Definition Maj (x y z : Z) : Z :=
  Z.lxor (Z.lxor (Z.land x y) (Z.land x z)) (Z.land y z).
Definition Sum0 (x : Z) : Z := Z.lxor (Z.lxor (rotr 2 x) (rotr 13 x)) (rotr 22 x).
Definition Sum1 (x : Z) : Z := Z.lxor (Z.lxor (rotr 6 x) (rotr 11 x)) (rotr 25 x).
Definition sig0 (x : Z) : Z := Z.lxor (Z.lxor (rotr 7 x) (rotr 18 x)) (Z.shiftr x 3).
Definition sig1 (x : Z) : Z := Z.lxor (Z.lxor (rotr 17 x) (rotr 19 x)) (Z.shiftr x 10).

(** The round constants are the first 32 fractional bits of the cube roots
    of the first 64 primes, the initial hash value those of the square roots
    of the first 8: both are computed rather than tabulated. *)
Definition primes64 : list Z :=
  [2; 3; 5; 7; 11; 13; 17; 19; 23; 29; 31; 37; 41; 43; 47; 53;
   59; 61; 67; 71; 73; 79; 83; 89; 97; 101; 103; 107; 109; 113; 127; 131;
   137; 139; 149; 151; 157; 163; 167; 173; 179; 181; 191; 193; 197; 199; 211; 223;
   227; 229; 233; 239; 241; 251; 257; 263; 269; 271; 277; 281; 283; 293; 307; 311].

(** Largest [r] below [2 ^ bits] extending [acc] with [r ^ 3 <= n]. *)
Fixpoint icbrt_bits (bits : nat) (n acc : Z) : Z :=
  match bits with
  | O => acc
  | S b =>
      let cand := acc + 2 ^ Z.of_nat b in
      icbrt_bits b n (if cand * cand * cand <=? n then cand else acc)
  end.

Definition K : list Z :=
  Eval vm_compute in map (fun p => w32 (icbrt_bits 36 (p * 2 ^ 96) 0)) primes64.
Definition H0 : list Z :=
  Eval vm_compute in map (fun p => w32 (Z.sqrt (p * 2 ^ 64))) (firstn 8 primes64).

Definition bytes_of_string (s : string) : list Z :=
  map (fun c => Z.of_nat (nat_of_ascii c)) (list_ascii_of_string s).

(** Big-endian bytes of [x], [n] of them. *)
Fixpoint be_bytes (n : nat) (x : Z) : list Z :=
  match n with
  | O => []
  | S m => (Z.shiftr x (8 * Z.of_nat m)) mod 256 :: be_bytes m x
  end.

Definition pad (msg : list Z) : list Z :=
  let len := Z.of_nat (length msg) in
  let zeros := Z.to_nat ((55 - len) mod 64) in
  msg ++ [128] ++ repeat 0 zeros ++ be_bytes 8 (8 * len).

Fixpoint words_of_bytes (fuel : nat) (bs : list Z) : list Z :=
  match fuel, bs with
  | S f, b0 :: b1 :: b2 :: b3 :: rest =>
      (b0 * 2 ^ 24 + b1 * 2 ^ 16 + b2 * 2 ^ 8 + b3) :: words_of_bytes f rest
  | _, _ => []
  end.

(** [win] holds W(t-16) .. W(t-1); produces the next [n] schedule words. *)
Fixpoint schedule (n : nat) (win : list Z) : list Z :=
  match n with
  | O => []
  | S m =>
      let wt := add32 (add32 (sig1 (nth 14 win 0)) (nth 9 win 0))
                      (add32 (sig0 (nth 1 win 0)) (nth 0 win 0)) in
      wt :: schedule m (tl win ++ [wt])
  end.

Definition regs : Type := (Z * Z * Z * Z * Z * Z * Z * Z)%type.

Definition round (s : regs) (kw : Z * Z) : regs :=
  let '(a, b, c, d, e, f, g, h) := s in
  let t1 := add32 (add32 (add32 h (Sum1 e)) (add32 (Ch e f g) (fst kw))) (snd kw) in
  let t2 := add32 (Sum0 a) (Maj a b c) in
  (add32 t1 t2, a, b, c, add32 d t1, e, f, g).

Definition regs_of (l : list Z) : regs :=
  (nth 0 l 0, nth 1 l 0, nth 2 l 0, nth 3 l 0, nth 4 l 0, nth 5 l 0, nth 6 l 0, nth 7 l 0).

Definition compress (h : list Z) (block : list Z) : list Z :=
  let w := block ++ schedule 48 block in
  let '(a, b, c, d, e, f, g, hh) := fold_left round (combine K w) (regs_of h) in
  map (fun p => add32 (fst p) (snd p)) (combine h [a; b; c; d; e; f; g; hh]).

Fixpoint blocks (fuel : nat) (h : list Z) (ws : list Z) : list Z :=
  match fuel, ws with
  | S f, _ :: _ => blocks f (compress h (firstn 16 ws)) (skipn 16 ws)
  | _, _ => h
  end.

(** The digest as 32 bytes. *)
Definition sha256 (msg : list Z) : list Z :=
  let p := pad msg in
  let ws := words_of_bytes (length p) p in
  flat_map (be_bytes 4) (blocks (length ws) H0 ws).

(** RFC 2104 with a 64-byte block. *)
Definition hmac_sha256 (key msg : list Z) : list Z :=
  let k0 := if (64 <? Z.of_nat (length key)) then sha256 key else key in
  let k := k0 ++ repeat 0 (64 - length k0) in
  let ipad := map (fun b => Z.lxor b 54) k in
  let opad := map (fun b => Z.lxor b 92) k in
  sha256 (opad ++ sha256 (ipad ++ msg)).

Definition hex_digit (d : Z) : ascii :=
  match String.get (Z.to_nat (d mod 16)) "0123456789abcdef" with
  | Some c => c
  | None => "0"%char
  end.

Fixpoint hex (bs : list Z) : string :=
  match bs with
  | [] => EmptyString
  | b :: rest => String (hex_digit (b / 16)) (String (hex_digit b) (hex rest))
  end.

Definition sha256_hex (s : string) : string := hex (sha256 (bytes_of_string s)).

Definition hmac_sha256_hex (key msg : string) : string :=
  hex (hmac_sha256 (bytes_of_string key) (bytes_of_string msg)).

End Sha256.


(** ** Clock arithmetic and luxon zones *)

Definition MS_PER_MINUTE : Z := 60 * 1000.
Definition MS_PER_HOUR : Z := 60 * 60 * 1000.
Definition MS_PER_DAY : Z := 1000 * 60 * 60 * 24.

(** A luxon [Zone], seen through [zone.offset(ts)]: minutes east of UTC at the
    instant [ts]. *)
Definition zone : Type := Z -> Z.

Definition utc_zone : zone := fun _ => 0.

(** The calendar day (days since the epoch) that the wall clock of [z] shows
    at [ts]: luxon's [tsToObj(ts, offset)] shifts by the offset and reads the
    UTC fields. *)
Definition local_day (z : zone) (ts : Z) : Z := (ts + z ts * MS_PER_MINUTE) / MS_PER_DAY.

Definition utc_day (ts : Z) : Z := ts / MS_PER_DAY.

(** luxon [fixOffset(localTS, o, tz)]: the instant whose wall clock in [tz]
    reads [localTS], starting from the provisional offset [o]. *)
Definition fixOffset (localTS o : Z) (tz : zone) : Z * Z :=
  let utcGuess := localTS - o * MS_PER_MINUTE in
  let o2 := tz utcGuess in
  if o =? o2 then (utcGuess, o)
  else
    let utcGuess' := utcGuess - (o2 - o) * MS_PER_MINUTE in
    let o3 := tz utcGuess' in
    if o2 =? o3 then (utcGuess', o2)
    else (localTS - Z.min o2 o3 * MS_PER_MINUTE, Z.max o2 o3).

(** ** The mail collaborator ([src/lib/email.ts]) *)

Record counts := mkCounts {
  c_overdue : nat; c_dueToday : nat; c_dueSoon : nat; c_open : nat; c_done : nat }.

Record member_stats := mkStats {
  s_name : string; s_completedToday : nat; s_open : nat; s_overdue : nat; s_dueSoon : nat }.

(** The bodies are template literals; a body is kept as the values spliced
    into its template. *)
Inductive html_body :=
| NudgeHtml (escaped_name : string) (c : counts) (ackUrl : string)
| EmptyTeamHtml
| ReportHtml (today : Z) (rows : list member_stats).

Record SendEmailInput := mkMail { to : string; subject : string; html : html_body }.

(** [sendEmail] as the repository ships it: it logs and reports success. *)
Definition sendEmail_stub (m : SendEmailInput) : bool := true.

(** ** What a request handler reads from its surroundings

    A handler reads the clock at several places of one run; the readings of
    one run are taken to be one instant, [now]. *)

Record Env := mkEnv {
  now : Z;                        (* Date.now(), new Date(), DateTime.now() *)
  tzdb : string -> option zone;   (* luxon zone lookup; None: setZone(..).isValid is false *)
  system_zone : zone;             (* the host's default zone, used by DateTime.now() *)
  ACK_SECRET : option string;     (* process.env.ACK_SECRET *)
  sendEmail : SendEmailInput -> bool  (* the mail transport, res.ok *)
}.

Definition at_time (t : Z) (env : Env) : Env :=
  mkEnv t (tzdb env) (system_zone env) (ACK_SECRET env) (sendEmail env).

(** ** [parseTimeToUTCISO] *)

Definition code (c : ascii) : Z := Z.of_nat (nat_of_ascii c).
Definition in_range (lo hi : string) (c : ascii) : bool :=
  match lo, hi with
  | String l _, String h _ => (code l <=? code c) && (code c <=? code h)
  | _, _ => false
  end.
Definition digit (c : ascii) : Z := code c - 48.

(** [/^([01]?\d|2[0-3]):([0-5]\d)$/.exec(localTime)], returning
    [(Number(match[1]), Number(match[2]))]. *)
Definition match_time (localTime : string) : option (Z * Z) :=
  match list_ascii_of_string localTime with
  | [h; sep; m1; m2] =>
      if in_range "0" "9" h && Ascii.eqb sep ":" && in_range "0" "5" m1 && in_range "0" "9" m2
      then Some (digit h, 10 * digit m1 + digit m2) else None
  | [h1; h2; sep; m1; m2] =>
      if ((in_range "0" "1" h1 && in_range "0" "9" h2)
          || (Ascii.eqb h1 "2" && in_range "0" "3" h2))
         && Ascii.eqb sep ":" && in_range "0" "5" m1 && in_range "0" "9" m2
      then Some (10 * digit h1 + digit h2, 10 * digit m1 + digit m2) else None
  | _ => None
  end.

(** The result is the instant that [toUTC().toISO()] prints. *)
Definition parseTimeToUTCISO (env : Env) (localTime tz : string) : option Z :=
  match match_time localTime with
  | None => None
  | Some (hour, minute) =>
      let zone := if String.eqb tz "" then "UTC" else tz in
      match tzdb env zone with
      | None => None                                   (* !localNow.isValid *)
      | Some z =>
          let day := local_day z (now env) in          (* localNow.year/month/day *)
          let localTS := day * MS_PER_DAY + hour * MS_PER_HOUR + minute * MS_PER_MINUTE in
          Some (fst (fixOffset localTS (z (now env)) z))
      end
  end.

(** A zone table for the examples: UTC, and America/New_York with the
    transitions of 2024 (EDT from 2024-03-10T07:00Z to 2024-11-03T06:00Z). *)
Definition new_york_2024 : zone :=
  fun ts => if (1710054000000 <=? ts) && (ts <? 1730613600000) then -240 else -300.

Definition sample_tzdb (name : string) : option zone :=
  if String.eqb name "UTC" then Some utc_zone
  else if String.eqb name "America/New_York" then Some new_york_2024
  else None.

Definition sample_env (t : Z) : Env := mkEnv t sample_tzdb utc_zone None sendEmail_stub.

(** The same surroundings with a transport that reports every delivery as
    failed. *)
Definition mail_down_env (t : Z) : Env := mkEnv t sample_tzdb utc_zone None (fun _ => false).

(** ** The tables *)

Inductive role_type := role_user | role_manager.
Inductive task_status := todo | in_progress | done.
Inductive nudge_status := scheduled | sent | failed | acknowledged.
Inductive report_status := report_scheduled | report_sent | report_failed.

Record profile := mkProfile {
  p_id : string; p_name : string; p_email : string;
  p_role : role_type; p_manager_id : option string }.

Record nudge_config := mkConfig {
  nc_user_id : string; nc_timezone : string; nc_times : list string; nc_enabled : bool }.

Record task := mkTask {
  t_id : string; t_owner_id : string; t_title : string;
  t_due_date : Z;          (* a date: days since the epoch *)
  t_status : task_status;
  t_updated_at : Z }.      (* an instant; the store prints it in UTC *)

Record payload := mkPayload {
  pl_counts : counts;
  pl_overdue : list (string * string * Z);
  pl_dueToday : list (string * string);
  pl_dueSoon : list (string * string * Z) }.

(** Row identifiers ([uuid] columns filled by [gen_random_uuid()]) are drawn
    from the naturals; [uuid_text] is the text form that travels in links.
    The [created_at]/[updated_at] bookkeeping columns of [nudges] and
    [manager_reports] are read by none of the handlers and are left out. *)
Record nudge := mkNudge {
  n_id : nat; n_user_id : string; n_scheduled_at : Z;
  n_sent_at : option Z; n_acknowledged_at : option Z;
  n_status : nudge_status; n_payload : option payload }.

Record summary := mkSummary { sum_date : Z; sum_perUser : list (string * member_stats) }.

Record manager_report := mkReport {
  r_id : nat; r_manager_id : string; r_report_date : Z;
  r_sent_at : option Z; r_status : report_status; r_summary : option summary }.

Record DB := mkDB {
  profiles : list profile;
  nudge_configs : list nudge_config;
  tasks : list task;
  nudges : list nudge;
  manager_reports : list manager_report }.

Definition with_nudges (rows : list nudge) (db : DB) : DB :=
  mkDB (profiles db) (nudge_configs db) (tasks db) rows (manager_reports db).
Definition with_reports (rows : list manager_report) (db : DB) : DB :=
  mkDB (profiles db) (nudge_configs db) (tasks db) (nudges db) rows.
Definition with_tasks (rows : list task) (db : DB) : DB :=
  mkDB (profiles db) (nudge_configs db) rows (nudges db) (manager_reports db).

Definition uuid_text (n : nat) : string := NilZero.string_of_uint (Nat.to_uint n).
(** A fresh key: any identifier that no row of the table carries would do. *)
Definition gen_random_uuid (used : list nat) : nat := S (list_max used).

Definition is_done (t : task) : bool :=
  match t_status t with done => true | _ => false end.

Definition is_null {A} (o : option A) : bool :=
  match o with None => true | Some _ => false end.

(** JavaScript [a || b] on strings: the empty string is falsy. *)
Definition or_else (a b : string) : string := if String.eqb a "" then b else a.

Fixpoint htmlEscape (s : string) : string :=
  match s with
  | EmptyString => EmptyString
  | String c rest =>
      let n := nat_of_ascii c in
      (if Nat.eqb n 38 then "&amp;"
       else if Nat.eqb n 60 then "&lt;"
       else if Nat.eqb n 62 then "&gt;"
       else if Nat.eqb n 34 then "&quot;"
       else if Nat.eqb n 39 then "&#039;"
       else String c EmptyString) ++ htmlEscape rest
  end%string.

(** [String.prototype.trim] strips the code points of WhiteSpace and
    LineTerminator from both ends: U+0009..U+000D, U+0020, U+00A0, U+1680,
    U+2000..U+200A, U+2028, U+2029, U+202F, U+205F, U+3000 and U+FEFF.  On
    the UTF-8 bytes these are the one-, two- and three-byte sequences below;
    a lead byte is never a continuation byte, so that a sequence found at
    either end of a well-formed text is a whole code point. *)
Definition white_space_1 (a : ascii) : bool :=
  let n := nat_of_ascii a in ((9 <=? n) && (n <=? 13))%nat || Nat.eqb n 32.

Definition white_space_2 (a b : ascii) : bool :=
  Nat.eqb (nat_of_ascii a) 194 && Nat.eqb (nat_of_ascii b) 160.        (* U+00A0 *)

Definition white_space_3 (a b c : ascii) : bool :=
  let '(x, y, z) := (nat_of_ascii a, nat_of_ascii b, nat_of_ascii c) in
  (Nat.eqb x 225 && Nat.eqb y 154 && Nat.eqb z 128)                    (* U+1680 *)
  || (Nat.eqb x 226 && Nat.eqb y 128
      && (((128 <=? z) && (z <=? 138))%nat                             (* U+2000..U+200A *)
          || Nat.eqb z 168 || Nat.eqb z 169                            (* U+2028, U+2029 *)
          || Nat.eqb z 175))                                           (* U+202F *)
  || (Nat.eqb x 226 && Nat.eqb y 129 && Nat.eqb z 159)                 (* U+205F *)
  || (Nat.eqb x 227 && Nat.eqb y 128 && Nat.eqb z 128)                 (* U+3000 *)
  || (Nat.eqb x 239 && Nat.eqb y 187 && Nat.eqb z 191).                (* U+FEFF *)

(** The bytes left once the white space at the head is gone; [w2] and [w3]
    take the bytes of a sequence in the order they are met. *)
Fixpoint strip (w2 : ascii -> ascii -> bool) (w3 : ascii -> ascii -> ascii -> bool)
         (l : list ascii) : list ascii :=
  match l with
  | [] => []
  | a :: rest =>
      if white_space_1 a then strip w2 w3 rest
      else
        match rest with
        | [] => l
        | b :: rest2 =>
            if w2 a b then strip w2 w3 rest2
            else
              match rest2 with
              | [] => l
              | c :: rest3 => if w3 a b c then strip w2 w3 rest3 else l
              end
        end
  end.

Definition trim_start (s : string) : string :=
  string_of_list_ascii (strip white_space_2 white_space_3 (list_ascii_of_string s)).

(** From the end the bytes of a sequence are met last byte first. *)
Definition trim_end (s : string) : string :=
  string_of_list_ascii
    (rev (strip (fun b a => white_space_2 a b) (fun c b a => white_space_3 a b c)
                (rev (list_ascii_of_string s)))).

Definition trim (s : string) : string := trim_end (trim_start s).

(** The end of a due date, [`${t.due_date}T23:59:59Z`], and [todayEnd], the
    end of the day [today], [`${today}T23:59:59.999Z`], as instants. *)
Definition due_end_of_day (due_date : Z) : Z := due_date * MS_PER_DAY + 86399000.
Definition todayEnd (today : Z) : Z := today * MS_PER_DAY + 86399999.

(** ** [src/app/api/cron/nudges/route.ts] *)

Module NudgesCron.

Definition buildAckToken (env : Env) (id : string) : string :=
  let secret := or_else (match ACK_SECRET env with Some s => s | None => "" end)
                        "dev-ack-secret" in
  Sha256.hmac_sha256_hex secret id.

Definition buildAckUrl (env : Env) (origin id : string) : string :=
  (origin ++ "/api/nudges/ack?i=" ++ id ++ "&t=" ++ buildAckToken env id)%string.

(** *** Ensuring today's nudges *)

Definition default_times : list string := ["09:00"; "13:00"; "17:00"].

(** [confByUser.get(id)]: the map is filled with [set], so the last row of a
    user wins. *)
Definition confByUser (configs : list nudge_config) (id : string) : option nudge_config :=
  find (fun c => String.eqb (nc_user_id c) id) (rev configs).

(** One asynchronous closure of the ensure loop, past its synchronous
    prefix (the slot resolved to [j_at]).  It awaits the existence query,
    then, if that found nothing, the insert. *)
Inductive phase := Selecting | Inserting | Settled.
Record job := mkJob { j_user : string; j_at : Z; j_phase : phase }.

(** The closures one invocation creates, in creation order.  A closure whose
    slot does not resolve returns at once and is not listed. *)
Definition jobs_of_profile (env : Env) (configs : list nudge_config) (p : profile)
  : list job :=
  let conf := confByUser configs (p_id p) in
  if match conf with Some c => negb (nc_enabled c) | None => false end then []
  else
    let times := match conf with Some c => nc_times c | None => default_times end in
    let timezone :=
      or_else (match conf with
               | Some c => if String.eqb (nc_timezone c) "" then "" else trim (nc_timezone c)
               | None => ""
               end) "UTC" in
    flat_map (fun t => match parseTimeToUTCISO env t timezone with
                       | Some scheduledISO => [mkJob (p_id p) scheduledISO Selecting]
                       | None => []
                       end) times.

Definition ensure_jobs (env : Env) (db : DB) : list job :=
  flat_map (jobs_of_profile env (nudge_configs db)) (profiles db).

Definition same_slot (user : string) (at_ : Z) (r : nudge) : bool :=
  String.eqb (n_user_id r) user && (n_scheduled_at r =? at_).

(** [.select("id").eq("user_id", ..).eq("scheduled_at", ..).maybeSingle()]:
    [data] is a row only when exactly one row matches (none: null; several:
    an error, and null data). *)
Definition exists_ (db : DB) (user : string) (at_ : Z) : bool :=
  match filter (same_slot user at_) (nudges db) with
  | [_] => true
  | _ => false
  end.

Definition insert_scheduled (db : DB) (user : string) (at_ : Z) : DB :=
  with_nudges
    (nudges db ++ [mkNudge (gen_random_uuid (map n_id (nudges db))) user at_
                           None None scheduled None]) db.

Definition step_job (db : DB) (j : job) : DB * job :=
  match j_phase j with
  | Selecting =>
      (db, mkJob (j_user j) (j_at j)
                 (if exists_ db (j_user j) (j_at j) then Settled else Inserting))
  | Inserting => (insert_scheduled db (j_user j) (j_at j), mkJob (j_user j) (j_at j) Settled)
  | Settled => (db, j)
  end.

(** The store answers the pending requests in some order: a schedule names,
    step by step, the closure whose pending request is served next. *)
Fixpoint step_at (i : nat) (js : list job) (db : DB) {struct js} : DB * list job :=
  match js, i with
  | [], _ => (db, [])
  | j :: rest, O => let '(db', j') := step_job db j in (db', j' :: rest)
  | j :: rest, S i' => let '(db', rest') := step_at i' rest db in (db', j :: rest')
  end.

Definition run (sched : list nat) (st : DB * list job) : DB * list job :=
  fold_left (fun st i => step_at i (snd st) (fst st)) sched st.

(** Whatever is still pending is then served closure by closure. *)
Fixpoint drain (js : list job) (db : DB) : DB * list job :=
  match js with
  | [] => (db, [])
  | j :: rest =>
      let '(db1, j1) := step_job db j in
      let '(db2, j2) := step_job db1 j1 in
      let '(db3, rest') := drain rest db2 in
      (db3, j2 :: rest')
  end.

(** [await Promise.all(ensurePromises)] for a pool of closures. *)
Definition settle (sched : list nat) (js : list job) (db : DB) : DB :=
  let '(db1, js1) := run sched (db, js) in fst (drain js1 db1).

(** The ensure loop of one invocation. *)
Definition ensureToday (env : Env) (sched : list nat) (db : DB) : DB :=
  settle sched (ensure_jobs env db) db.

(** The schedule in which every existence query is answered before any
    insert is served. *)
Definition selects_first (n : nat) : list nat := seq 0 n.

(** *** Sending the due nudges *)

(** [.lte("scheduled_at", nowISO).is("sent_at", null)] *)
Definition is_due (nowISO : Z) (n : nudge) : bool :=
  (n_scheduled_at n <=? nowISO) && is_null (n_sent_at n).

Definition dueNudges (db : DB) (nowISO : Z) : list nudge := filter (is_due nowISO) (nudges db).

Definition todayDate (env : Env) : Z := local_day (system_zone env) (now env).

Definition overdue (env : Env) (myTasks : list task) : list task :=
  filter (fun t => negb (is_done t) && (due_end_of_day (t_due_date t) <? now env)) myTasks.

Definition dueToday (env : Env) (myTasks : list task) : list task :=
  filter (fun t => negb (is_done t) && (t_due_date t =? todayDate env)) myTasks.

Definition dueSoon (env : Env) (myTasks : list task) : list task :=
  filter (fun t =>
            if is_done t then false
            else
              let due := due_end_of_day (t_due_date t) in
              let diffDays := (due - todayEnd (todayDate env)) / MS_PER_DAY in
              (0 <=? diffDays) && (diffDays <=? 1)) myTasks.

Definition snapshot (env : Env) (myTasks : list task) : payload :=
  mkPayload
    (mkCounts (length (overdue env myTasks)) (length (dueToday env myTasks))
              (length (dueSoon env myTasks))
              (length (filter (fun t => negb (is_done t)) myTasks))
              (length (filter is_done myTasks)))
    (map (fun t => (t_id t, t_title t, t_due_date t)) (firstn 3 (overdue env myTasks)))
    (map (fun t => (t_id t, t_title t)) (firstn 3 (dueToday env myTasks)))
    (map (fun t => (t_id t, t_title t, t_due_date t)) (firstn 3 (dueSoon env myTasks))).

Definition update_nudge (f : nudge -> nudge) (id : nat) (db : DB) : DB :=
  with_nudges (map (fun r => if Nat.eqb (n_id r) id then f r else r) (nudges db)) db.

Definition mark_sent (at_ : Z) (pl : payload) (r : nudge) : nudge :=
  mkNudge (n_id r) (n_user_id r) (n_scheduled_at r) (Some at_) (n_acknowledged_at r)
          sent (Some pl).
Definition mark_failed (r : nudge) : nudge :=
  mkNudge (n_id r) (n_user_id r) (n_scheduled_at r) (n_sent_at r) (n_acknowledged_at r)
          failed (n_payload r).

Definition email_of (profs : list profile) (userId : string) : string :=
  match find (fun x => String.eqb (p_id x) userId) profs with
  | Some prof => p_email prof
  | None => ""
  end.

Definition name_of (profs : list profile) (userId : string) : string :=
  or_else (or_else (match find (fun x => String.eqb (p_id x) userId) profs with
                    | Some prof => p_name prof
                    | None => ""
                    end) (email_of profs userId)) "there".

Definition nudge_mail (env : Env) (origin : string) (profs : list profile)
           (myTasks : list task) (n : nudge) : SendEmailInput :=
  mkMail (email_of profs (n_user_id n)) "Your FlowTrack nudge"
         (NudgeHtml (htmlEscape (name_of profs (n_user_id n)))
                    (pl_counts (snapshot env myTasks))
                    (buildAckUrl env origin (uuid_text (n_id n)))).

(** The body of the loop over [dueNudges]; the state is the store and
    [sentCount]. *)
Definition dispatch_one (env : Env) (origin : string) (profs : list profile)
           (st : DB * nat) (n : nudge) : DB * nat :=
  let '(db, sentCount) := st in
  let email := email_of profs (n_user_id n) in
  let myTasks := filter (fun t => String.eqb (t_owner_id t) (n_user_id n)) (tasks db) in
  if negb (String.eqb email "") then
    if sendEmail env (nudge_mail env origin profs myTasks n)
    then (update_nudge (mark_sent (now env) (snapshot env myTasks)) (n_id n) db,
          S sentCount)
    else (update_nudge mark_failed (n_id n) db, sentCount)
  else (update_nudge mark_failed (n_id n) db, sentCount).

(** The loop over the rows the due query returned; [profs] is what the
    handler read from [profiles] when it started. *)
Definition dispatch (env : Env) (origin : string) (profs : list profile) (db : DB)
  : DB * nat :=
  fold_left (dispatch_one env origin profs) (dueNudges db (now env)) (db, O).

(** The handler past its authorisation check: the store it leaves and the
    JSON it answers, [(ensured_for_users, nudges_sent)]. *)
Definition GET (env : Env) (origin : string) (sched : list nat) (db : DB)
  : DB * (nat * nat) :=
  let profs := profiles db in
  let db1 := ensureToday env sched db in
  let '(db2, sentCount) := dispatch env origin profs db1 in
  (db2, (length profs, sentCount)).

End NudgesCron.

(** ** [src/app/api/cron/reports/route.ts] *)

Module ReportsCron.

(** [new Date().toISOString().slice(0, 10)] *)
Definition todayUtcDateStr (env : Env) : Z := utc_day (now env).

(** [perUser] is an object used as a map: reading a property, and assigning
    one (an existing key keeps its place, a new one goes last). *)
Fixpoint obj_get {A} (o : list (string * A)) (k : string) : option A :=
  match o with
  | [] => None
  | (k', v) :: rest => if String.eqb k' k then Some v else obj_get rest k
  end.

Fixpoint obj_set {A} (o : list (string * A)) (k : string) (v : A) : list (string * A) :=
  match o with
  | [] => [(k, v)]
  | (k', v') :: rest => if String.eqb k' k then (k', v) :: rest
                        else (k', v') :: obj_set rest k v
  end.

Definition init_perUser (team : list profile) : list (string * member_stats) :=
  fold_left (fun perUser member =>
               obj_set perUser (p_id member)
                       (mkStats (or_else (or_else (p_name member) (p_email member)) "Unknown")
                                0 0 0 0))
            team [].

(** The body of the loop over the team's tasks. *)
Definition tally (env : Env) (today : Z) (perUser : list (string * member_stats)) (t : task)
  : list (string * member_stats) :=
  match obj_get perUser (t_owner_id t) with
  | None => perUser
  | Some user =>
      let isDone := is_done t in
      let updatedDate := utc_day (t_updated_at t) in   (* t.updated_at.slice(0, 10) *)
      let isCompletedToday := isDone && (updatedDate =? today) in
      let user1 :=
        if isCompletedToday
        then mkStats (s_name user) (S (s_completedToday user)) (s_open user)
                     (s_overdue user) (s_dueSoon user)
        else user in
      let user2 :=
        if negb isDone then
          let u := mkStats (s_name user1) (s_completedToday user1) (S (s_open user1))
                           (s_overdue user1) (s_dueSoon user1) in
          let due := due_end_of_day (t_due_date t) in
          if due <? now env then
            mkStats (s_name u) (s_completedToday u) (s_open u) (S (s_overdue u)) (s_dueSoon u)
          else
            let diffDays := (due - todayEnd today) / MS_PER_DAY in
            if (0 <=? diffDays) && (diffDays <=? 1)
            then mkStats (s_name u) (s_completedToday u) (s_open u) (s_overdue u)
                         (S (s_dueSoon u))
            else u
        else user1 in
      obj_set perUser (t_owner_id t) user2
  end.

Definition team_of (db : DB) (manager : profile) : list profile :=
  filter (fun p => match p_manager_id p with
                   | Some m => String.eqb m (p_id manager)
                   | None => false
                   end) (profiles db).

Definition team_tasks (db : DB) (team : list profile) : list task :=
  filter (fun t => existsb (String.eqb (t_owner_id t)) (map p_id team)) (tasks db).

Definition build_summary (env : Env) (db : DB) (manager : profile) : summary :=
  let today := todayUtcDateStr env in
  let team := team_of db manager in
  mkSummary today (fold_left (tally env today) (team_tasks db team) (init_perUser team)).

Definition same_report (manager_id : string) (date : Z) (r : manager_report) : bool :=
  String.eqb (r_manager_id r) manager_id && (r_report_date r =? date).

(** [.select("id").eq("manager_id", ..).eq("report_date", today).maybeSingle()] *)
Definition existing (db : DB) (manager_id : string) (date : Z) : option nat :=
  match filter (same_report manager_id date) (manager_reports db) with
  | [r] => Some (r_id r)
  | _ => None
  end.

Definition upsert_report (env : Env) (db : DB) (manager_id : string) (sm : summary) : DB :=
  let today := todayUtcDateStr env in
  match existing db manager_id today with
  | Some id =>
      with_reports
        (map (fun r => if Nat.eqb (r_id r) id
                       then mkReport (r_id r) (r_manager_id r) (r_report_date r)
                                     (Some (now env)) report_sent (Some sm)
                       else r) (manager_reports db)) db
  | None =>
      with_reports
        (manager_reports db
         ++ [mkReport (gen_random_uuid (map r_id (manager_reports db))) manager_id today
                      (Some (now env)) report_sent (Some sm)]) db
  end.

(** The body of the loop over the managers; the state is the store, the
    mails handed to the transport, and [sentCount]. *)
Definition report_one (env : Env) (st : DB * list SendEmailInput * nat) (manager : profile)
  : DB * list SendEmailInput * nat :=
  let '(db, outbox, sentCount) := st in
  let team := team_of db manager in
  if Nat.eqb (length (map p_id team)) 0 then
    if negb (String.eqb (p_email manager) "")
    then (db,
          outbox ++ [mkMail (p_email manager)
                            "FlowTrack - Daily team report (no team yet)" EmptyTeamHtml],
          S sentCount)
    else (db, outbox, sentCount)
  else
    let sm := build_summary env db manager in
    let db' := upsert_report env db (p_id manager) sm in
    if negb (String.eqb (p_email manager) "")
    then (db',
          outbox ++ [mkMail (p_email manager) "FlowTrack - Daily team report"
                            (ReportHtml (sum_date sm) (map snd (sum_perUser sm)))],
          S sentCount)
    else (db', outbox, sentCount).

Definition managers_of (db : DB) : list profile :=
  filter (fun p => match p_role p with role_manager => true | role_user => false end)
         (profiles db).

(** The handler past its authorisation check; it answers
    [(reports_sent, managers_considered)]. *)
Definition GET (env : Env) (db : DB) : DB * list SendEmailInput * (nat * nat) :=
  let managers := managers_of db in
  let '(db', outbox, sentCount) := fold_left (report_one env) managers (db, [], O) in
  (db', outbox, (sentCount, length managers)).

End ReportsCron.

(** ** The acknowledgement route, [GET /api/nudges/ack?i=..&t=..] *)

Module AckRoute.

Inductive page := InvalidLinkPage | ThanksPage.

(** What a call of the handler comes to: a response, or an exception that
    leaves the handler. *)
Inductive outcome :=
| Response (status : Z) (body : page)
| Throws_RangeError.   (* ERR_CRYPTO_TIMING_SAFE_EQUAL_LENGTH *)

(** [crypto.timingSafeEqual(a, b)]: throws unless both buffers have the same
    byte length; [None] stands for the exception. *)
Definition timingSafeEqual (a b : string) : option bool :=
  if Nat.eqb (String.length a) (String.length b) then Some (String.eqb a b) else None.

Definition verifyToken (env : Env) (id token : string) : option bool :=
  let secret := or_else (match ACK_SECRET env with Some s => s | None => "" end)
                        "dev-ack-secret" in
  let expected := Sha256.hmac_sha256_hex secret id in
  timingSafeEqual expected token.

Definition mark_acknowledged (at_ : Z) (r : nudge) : nudge :=
  mkNudge (n_id r) (n_user_id r) (n_scheduled_at r) (n_sent_at r) (Some at_)
          acknowledged (n_payload r).

(** [.update({acknowledged_at, status}).eq("id", id)] with the text [id]. *)
Definition acknowledge (env : Env) (id : string) (db : DB) : DB :=
  with_nudges (map (fun r => if String.eqb (uuid_text (n_id r)) id
                             then mark_acknowledged (now env) r else r) (nudges db)) db.

Definition is_empty (o : option string) : bool :=
  match o with None => true | Some s => String.eqb s "" end.

(** [i] and [t] are [searchParams.get("i")] and [searchParams.get("t")]. *)
Definition GET (env : Env) (db : DB) (i t : option string) : outcome * DB :=
  match i, t with
  | Some id, Some token =>
      if is_empty i || is_empty t then (Response 400 InvalidLinkPage, db)
      else
        match verifyToken env id token with
        | None => (Throws_RangeError, db)
        | Some false => (Response 400 InvalidLinkPage, db)
        | Some true => (Response 200 ThanksPage, acknowledge env id db)
        end
  | _, _ => (Response 400 InvalidLinkPage, db)
  end.

End AckRoute.

(** ** Sample data: 2024-06-10T12:00:00Z is 1718020800000, day 19884 *)

Definition noon_2024_06_10 : Z := 1718020800000.

Definition alice : profile :=
  mkProfile "u-alice" "Alice" "alice@example.com" role_user (Some "u-max").
Definition bob : profile := mkProfile "u-bob" "Bob" "" role_user (Some "u-max").
Definition max_ : profile := mkProfile "u-max" "Max" "max@example.com" role_manager None.

(** A store for the examples: three of Alice's nudges on 2024-06-10, the
    09:00 one already sent, and Bob's 13:00 one (Bob has no address). *)
Definition sample_nudges : list nudge :=
  [mkNudge 1 "u-alice" 1718010000000 (Some 1718010300000) None sent None;
   mkNudge 2 "u-alice" 1718024400000 None None scheduled None;
   mkNudge 3 "u-alice" 1718038800000 None None scheduled None;
   mkNudge 4 "u-bob" 1718010000000 None None scheduled None].

Definition sample_db : DB := mkDB [alice; bob; max_] [] [] sample_nudges [].

(** Alice's tasks around 2024-06-10 (day 19884). *)
Definition task_due (id : string) (day : Z) (st : task_status) : task :=
  mkTask id "u-alice" id day st 1717999200000.

Definition sample_tasks : list task :=
  [task_due "t-yesterday" 19883 todo; task_due "t-today" 19884 todo;
   task_due "t-tomorrow" 19885 in_progress; task_due "t-in-two-days" 19886 todo;
   task_due "t-in-three-days" 19887 todo; task_due "t-done" 19883 done].

(** A store with one nudge that was never sent. *)
Definition unsent_db : DB :=
  mkDB [alice] [] [] [mkNudge 1 "u-alice" 1718024400000 None None scheduled None] [].

(** ** Counting rows by slot *)

(** The number of nudges whose (user, scheduled instant) satisfies [f]. *)
Definition cnt (f : string -> Z -> bool) (rows : list nudge) : nat :=
  length (filter (fun r => f (n_user_id r) (n_scheduled_at r)) rows).

Definition slot_is (user : string) (at_ : Z) : string -> Z -> bool :=
  fun u a => String.eqb u user && (a =? at_).

(** At most one nudge per (user, scheduled_at). *)
Definition unique_slots (db : DB) : Prop :=
  forall user at_, (cnt (slot_is user at_) (nudges db) <= 1)%nat.

Definition rows_of (user : string) (db : DB) : nat :=
  cnt (fun u _ => String.eqb u user) (nudges db).

Definition job_key (j : NudgesCron.job) : string * Z := (NudgesCron.j_user j, NudgesCron.j_at j).

(** The slot of [j] had no row that the existence query would report. *)
Definition unseen (init : DB) (k : string * Z) : bool :=
  negb (NudgesCron.exists_ init (fst k) (snd k)).

Definition is_settled (j : NudgesCron.job) : bool :=
  match NudgesCron.j_phase j with NudgesCron.Settled => true | _ => false end.

(** The rows that the settled closures of [js] have added, counted by [f]. *)
Definition added (f : string -> Z -> bool) (init : DB) (js : list NudgesCron.job) : nat :=
  length (filter (fun j => is_settled j && unseen init (job_key j)
                           && f (NudgesCron.j_user j) (NudgesCron.j_at j)) js).

(** What holds of the store and the pool while the closures of one or more
    invocations run against the store [init]. *)
Record ensure_inv (init db : DB) (js : list NudgesCron.job) : Prop := {
  inv_inserting : forall j, In j js -> NudgesCron.j_phase j = NudgesCron.Inserting ->
                            unseen init (job_key j) = true;
  inv_count : forall f, cnt f (nudges db) = (cnt f (nudges init) + added f init js)%nat;
  inv_append : exists l, nudges db = nudges init ++ l;
  inv_profiles : profiles db = profiles init;
  inv_configs : nudge_configs db = nudge_configs init }.

(** A pool as an invocation creates it: every closure awaits its query. *)
Definition pristine (js : list NudgesCron.job) : Prop :=
  forall j, In j js -> NudgesCron.j_phase j = NudgesCron.Selecting.

(** Stores for the examples of the ensure loop: nobody has a nudge yet.
    Bob's second slot is not a time of day; Max has switched his nudges off. *)
Definition fresh_db : DB :=
  mkDB [alice; bob; max_]
       [mkConfig "u-bob" "America/New_York" ["09:00"; "25:00"] true;
        mkConfig "u-max" "UTC" ["08:00"] false]
       [] [] [].

Definition alice_only_db : DB := mkDB [alice] [] [] [] [].

(** Carol has configured the same slot twice. *)
Definition carol : profile := mkProfile "u-carol" "Carol" "carol@example.com" role_user None.
Definition carol_db : DB :=
  mkDB [carol] [mkConfig "u-carol" "UTC" ["09:00"; "09:00"] true] [] [] [].

(** ** Reports by key *)


(** The store in the state of the loop over the managers. *)
Definition db_of (st : DB * list SendEmailInput * nat) : DB := fst (fst st).

(** Stores for the examples of the aggregator: Max manages Alice and Bob; a
    manager on her own. *)
Definition team_db : DB := mkDB [alice; bob; max_] [] sample_tasks [] [].


(** ** The report counters, task by task *)

(** What one task adds to the counters of its owner, in the words of the
    classification: completed today, open, overdue, due soon. *)
Definition completed_today (today : Z) (t : task) : bool :=
  is_done t && (utc_day (t_updated_at t) =? today).

Definition is_overdue (now_ : Z) (t : task) : bool :=
  negb (is_done t) && (due_end_of_day (t_due_date t) <? now_).

Definition is_due_soon (now_ today : Z) (t : task) : bool :=
  negb (is_done t)
  && (0 <=? (due_end_of_day (t_due_date t) - todayEnd today) / MS_PER_DAY)
  && ((due_end_of_day (t_due_date t) - todayEnd today) / MS_PER_DAY <=? 1)
  && negb (is_overdue now_ t).

Definition count_of (owner : string) (p : task -> bool) (ts : list task) : nat :=
  length (filter (fun t => String.eqb (t_owner_id t) owner && p t) ts).

(** ** [isAuthorizedCron] (both cron routes) *)

(** [s.startsWith(p)] and [s.slice(n)]. *)
Definition startsWith (s p : string) : bool := String.prefix p s.

Fixpoint slice (n : nat) (s : string) : string :=
  match n, s with
  | O, _ => s
  | S m, String _ rest => slice m rest
  | S _, EmptyString => EmptyString
  end.

(** [a || b] on header values: [null] and the empty string are falsy. *)
Definition header_or (a b : option string) : option string :=
  match a with
  | Some s => if String.eqb s "" then b else a
  | None => b
  end.

(** [CRON_SECRET] is [process.env.CRON_SECRET]; [authorization] and
    [x_cron_secret] are what [req.headers.get] returns for the two headers. *)
Definition isAuthorizedCron (CRON_SECRET authorization x_cron_secret : option string) : bool :=
  match CRON_SECRET with
  | None => true
  | Some secret =>
      if String.eqb secret "" then true
      else
        match header_or authorization x_cron_secret with
        | None => false
        | Some authHeader =>
            if String.eqb authHeader "" then false
            else if String.eqb authHeader secret then true
            else if startsWith authHeader "Bearer "
                 then String.eqb (slice 7 authHeader) secret
                 else false
        end
  end.

(** ** [updateSession], the middleware in front of every route

    [user] tells whether [supabase.auth.getUser()] found a session; the
    cookies copied onto the response are left out. *)
Inductive middleware_result := PassThrough | RedirectTo (pathname : string).

Definition updateSession (user : bool) (pathname : string) : middleware_result :=
  if startsWith pathname "/api" then PassThrough
  else if negb user && negb (startsWith pathname "/login") then RedirectTo "/login"
  else if user && startsWith pathname "/login" then RedirectTo "/tasks"
  else PassThrough.

(** ** [htmlEscape], character by character *)

(** The replacement [htmlEscape] makes for one character. *)
Definition escape_char (c : ascii) : string :=
  let n := nat_of_ascii c in
  if Nat.eqb n 38 then "&amp;"
  else if Nat.eqb n 60 then "&lt;"
  else if Nat.eqb n 62 then "&gt;"
  else if Nat.eqb n 34 then "&quot;"
  else if Nat.eqb n 39 then "&#039;"
  else String c EmptyString.

(** One of the five characters the pattern of [htmlEscape] matches:
    ampersand, less-than, greater-than, double quote, apostrophe. *)
Definition html_special (c : ascii) : bool :=
  let n := nat_of_ascii c in
  Nat.eqb n 38 || Nat.eqb n 60 || Nat.eqb n 62 || Nat.eqb n 34 || Nat.eqb n 39.

(** ** Rows and slots of the ensure loop *)

(** A row as the ensure loop inserts it, for one of the slots [keys]. *)
Definition fresh_row_of (keys : list (string * Z)) (r : nudge) : Prop :=
  n_status r = scheduled /\ n_sent_at r = None /\ n_acknowledged_at r = None
  /\ n_payload r = None /\ In (n_user_id r, n_scheduled_at r) keys.

(** [conf?.times ?? ["09:00", "13:00", "17:00"]] *)
Definition times_of (configs : list nudge_config) (p : profile) : list string :=
  match NudgesCron.confByUser configs (p_id p) with
  | Some c => nc_times c
  | None => NudgesCron.default_times
  end.

(** ** What a run of the nudge handler writes *)

(** The columns of a nudge that neither the ensure loop nor the dispatch loop
    writes once the row exists. *)
Definition kept_columns (r : nudge) : nat * string * Z * option Z :=
  (n_id r, n_user_id r, n_scheduled_at r, n_acknowledged_at r).

(** The tables other than [nudges] are the same in both stores. *)
Definition same_other_tables (db db' : DB) : Prop :=
  profiles db' = profiles db /\ nudge_configs db' = nudge_configs db
  /\ tasks db' = tasks db /\ manager_reports db' = manager_reports db.

(** A nudge has an address and the transport takes its mail. *)
Definition deliverable (env : Env) (origin : string) (profs : list profile) (db : DB)
           (n : nudge) : bool :=
  negb (String.eqb (NudgesCron.email_of profs (n_user_id n)) "")
  && sendEmail env
       (NudgesCron.nudge_mail env origin profs
          (filter (fun t => String.eqb (t_owner_id t) (n_user_id n)) (tasks db)) n).

(** ** Rows and mails of the report handler *)

(** The row a member starts with in [perUser]. *)
Definition blank_stats (member : profile) : member_stats :=
  mkStats (or_else (or_else (p_name member) (p_email member)) "Unknown") 0 0 0 0.

(** [if (manager.email)] *)
Definition has_email (p : profile) : bool := negb (String.eqb (p_email p) "").

(** The columns of a report that an upsert never rewrites. *)
Definition report_key (r : manager_report) : nat * string * Z :=
  (r_id r, r_manager_id r, r_report_date r).

(** ** The alphabet of [digest("hex")] *)

(** The characters [digest("hex")] writes. *)
Definition is_lower_hex (c : ascii) : bool :=
  existsb (Ascii.eqb c) (list_ascii_of_string "0123456789abcdef").

(** ** The zone of a profile, a slot in a repeated hour, the words on due-soon *)

(** [(conf?.timezone && conf.timezone.trim()) || "UTC"] *)
Definition timezone_of (configs : list nudge_config) (p : profile) : string :=
  or_else (match NudgesCron.confByUser configs (p_id p) with
           | Some c => if String.eqb (nc_timezone c) "" then "" else trim (nc_timezone c)
           | None => ""
           end) "UTC".

(** Dana lives in New York and has one slot, at half past one in the night. *)
Definition dana : profile := mkProfile "u-dana" "Dana" "dana@example.com" role_user None.
Definition dana_db : DB :=
  mkDB [dana] [mkConfig "u-dana" "America/New_York" ["01:30"] true] [] [] [].

(** The surroundings of a host whose own zone is New York. *)
Definition new_york_host_env (t : Z) : Env :=
  mkEnv t sample_tzdb new_york_2024 None sendEmail_stub.

(** Due-soon in the words of the specification: both ends of day are taken
    at 23:59:59 UTC, the end of the due date and the end of today alike. *)
Definition spec_end_of_day (date : Z) : Z := date * MS_PER_DAY + 86399000.

Definition spec_overdue (now_ : Z) (t : task) : bool :=
  negb (is_done t) && (spec_end_of_day (t_due_date t) <? now_).

Definition spec_due_soon (now_ today : Z) (t : task) : bool :=
  negb (is_done t)
  && (0 <=? (spec_end_of_day (t_due_date t) - spec_end_of_day today) / MS_PER_DAY)
  && ((spec_end_of_day (t_due_date t) - spec_end_of_day today) / MS_PER_DAY <=? 1)
  && negb (spec_overdue now_ t).

(** Not done, and due one or two days after [today]. *)
Definition due_in_one_or_two_days (today : Z) (t : task) : bool :=
  negb (is_done t) && (today + 1 <=? t_due_date t) && (t_due_date t <=? today + 2).

(** * Properties *)

(** ** Test vectors for the hash *)

Example sha256_abc :
  Sha256.sha256_hex "abc"
  = "ba7816bf8f01cfea414140de5dae2223b00361a396177a9cb410ff61f20015ad".
Proof. vm_compute. reflexivity. Qed.

Example sha256_empty_message :
  Sha256.sha256_hex ""
  = "e3b0c44298fc1c149afbf4c8996fb92427ae41e4649b934ca495991b7852b855".
Proof. vm_compute. reflexivity. Qed.

Example hmac_sha256_short_key :
  Sha256.hmac_sha256_hex "key" "The quick brown fox jumps over the lazy dog"
  = "f7bc83f430538424b13298e6aa6fb143ef4d59a14946175997479dbc2d1a3cd8".
Proof. vm_compute. reflexivity. Qed.

Example hmac_sha256_long_key :
  Sha256.hmac_sha256_hex
    "kkkkkkkkkkkkkkkkkkkkkkkkkkkkkkkkkkkkkkkkkkkkkkkkkkkkkkkkkkkkkkkkkkkkkk" "hello"
  = "73473f937d4c181ed6aa87ce97d6db7dc732e19dd43e60c8ab7ee3aed2d9f4b0".
Proof. vm_compute. reflexivity. Qed.

Example parse_0900_utc :
  parseTimeToUTCISO (sample_env noon_2024_06_10) "09:00" "UTC" = Some 1718010000000.
Proof. reflexivity. Qed.

Example parse_rejects :
  map (fun t => parseTimeToUTCISO (sample_env noon_2024_06_10) t "UTC")
      ["24:00"; "9:60"; "09:00 "; "0900"; "23:59"; "19:5"; "1:00"; ""]
  = [None; None; None; None; Some 1718063940000; None; Some 1717981200000; None].
Proof. reflexivity. Qed.

(** ** Rows and identifiers *)

(** Distinctness of the keys of a list that is written out. *)
Ltac distinct_keys := repeat constructor; simpl; intuition discriminate.

Lemma NoDup_ids_inj {A B} (id : A -> B) (l : list A) (x y : A) :
  NoDup (map id l) -> In x l -> In y l -> id x = id y -> x = y.
Proof.
  induction l as [|a l IH]; simpl; [tauto|].
  intros Hnd Hx Hy Heq. inversion Hnd as [|? ? Hnotin Hnd']; subst.
  destruct Hx as [->|Hx], Hy as [->|Hy]; auto.
  - exfalso. apply Hnotin. rewrite Heq. now apply in_map.
  - exfalso. apply Hnotin. rewrite <- Heq. now apply in_map.
Qed.

Lemma NoDup_map_filter {A B} (id : A -> B) (f : A -> bool) (l : list A) :
  NoDup (map id l) -> NoDup (map id (filter f l)).
Proof.
  induction l as [|a l IH]; simpl; intros Hnd; [constructor|].
  inversion Hnd as [|? ? Hnotin Hnd']; subst.
  destruct (f a); simpl; auto.
  constructor; auto.
  intros Hin. apply Hnotin. apply in_map_iff in Hin as (x & Hx & Hin).
  apply filter_In in Hin as [Hin _]. rewrite <- Hx. now apply in_map.
Qed.

Lemma gen_random_uuid_fresh (used : list nat) : ~ In (gen_random_uuid used) used.
Proof.
  unfold gen_random_uuid. intros Hin.
  assert (H : (S (list_max used) <= list_max used)%nat).
  { pose proof (proj1 (list_max_le used (list_max used)) (Nat.le_refl _)) as Hall.
    rewrite Forall_forall in Hall. now apply Hall. }
  lia.
Qed.

(** ** The ensure loop only adds rows *)

Lemma step_job_appends (db : DB) (j : NudgesCron.job) :
  exists l, nudges (fst (NudgesCron.step_job db j)) = nudges db ++ l.
Proof.
  unfold NudgesCron.step_job. destruct (NudgesCron.j_phase j); simpl.
  - exists []. now rewrite app_nil_r.
  - eexists. reflexivity.
  - exists []. now rewrite app_nil_r.
Qed.

Lemma step_at_appends (i : nat) (js : list NudgesCron.job) (db : DB) :
  exists l, nudges (fst (NudgesCron.step_at i js db)) = nudges db ++ l.
Proof.
  revert i. induction js as [|j js IH]; intros i; simpl.
  - exists []. now rewrite app_nil_r.
  - destruct i as [|i].
    + destruct (step_job_appends db j) as [l Hl].
      destruct (NudgesCron.step_job db j). now exists l.
    + destruct (IH i) as [l Hl].
      destruct (NudgesCron.step_at i js db). now exists l.
Qed.

Lemma run_appends (sched : list nat) (js : list NudgesCron.job) (db : DB) :
  exists l, nudges (fst (NudgesCron.run sched (db, js))) = nudges db ++ l.
Proof.
  unfold NudgesCron.run. revert js db.
  induction sched as [|i sched IH]; intros js db; simpl.
  - exists []. now rewrite app_nil_r.
  - destruct (step_at_appends i js db) as [l1 H1].
    destruct (NudgesCron.step_at i js db) as [db1 js1]. simpl in *.
    destruct (IH js1 db1) as [l2 H2]. exists (l1 ++ l2).
    now rewrite H2, H1, app_assoc.
Qed.

Lemma drain_appends (js : list NudgesCron.job) (db : DB) :
  exists l, nudges (fst (NudgesCron.drain js db)) = nudges db ++ l.
Proof.
  revert db. induction js as [|j js IH]; intros db; simpl.
  - exists []. now rewrite app_nil_r.
  - destruct (step_job_appends db j) as [l1 H1].
    destruct (NudgesCron.step_job db j) as [db1 j1]. simpl in *.
    destruct (step_job_appends db1 j1) as [l2 H2].
    destruct (NudgesCron.step_job db1 j1) as [db2 j2]. simpl in *.
    destruct (IH db2) as [l3 H3].
    destruct (NudgesCron.drain js db2) as [db3 js3]. simpl in *.
    exists (l1 ++ l2 ++ l3). now rewrite H3, H2, H1, !app_assoc.
Qed.

(** Every row of the store is still there, as it was, after the ensure loop. *)
Lemma ensureToday_keeps (env : Env) (sched : list nat) (db : DB) (r : nudge) :
  In r (nudges db) -> In r (nudges (NudgesCron.ensureToday env sched db)).
Proof.
  intros Hin. unfold NudgesCron.ensureToday, NudgesCron.settle.
  destruct (run_appends sched (NudgesCron.ensure_jobs env db) db) as [l1 H1].
  destruct (NudgesCron.run sched (db, NudgesCron.ensure_jobs env db)) as [db1 js1].
  simpl in *.
  destruct (drain_appends js1 db1) as [l2 H2]. rewrite H2, H1.
  apply in_or_app. left. apply in_or_app. now left.
Qed.

(** ** The dispatch loop *)

Section Dispatch.
Import NudgesCron.
Variables (env : Env) (origin : string) (profs : list profile).

Lemma dispatch_one_ids st n :
  map n_id (nudges (fst (dispatch_one env origin profs st n))) = map n_id (nudges (fst st)).
Proof.
  destruct st as [db c]. unfold dispatch_one.
  repeat match goal with |- context [if ?b then _ else _] => destruct b end;
    simpl; rewrite map_map; apply map_ext; intros r;
    destruct (Nat.eqb (n_id r) (n_id n)); reflexivity.
Qed.

Lemma dispatch_one_tasks st n :
  tasks (fst (dispatch_one env origin profs st n)) = tasks (fst st).
Proof.
  destruct st as [db c]. unfold dispatch_one.
  repeat match goal with |- context [if ?b then _ else _] => destruct b end; reflexivity.
Qed.

Lemma dispatch_one_keeps st n r :
  In r (nudges (fst st)) -> n_id n <> n_id r ->
  In r (nudges (fst (dispatch_one env origin profs st n))).
Proof.
  destruct st as [db c]. intros Hin Hne. unfold dispatch_one.
  assert (K : forall f, In r (nudges (update_nudge f (n_id n) db))).
  { intros f. unfold update_nudge. simpl. apply in_map_iff. exists r. split; auto.
    destruct (Nat.eqb_spec (n_id r) (n_id n)); congruence. }
  repeat match goal with |- context [if ?b then _ else _] => destruct b end; apply K.
Qed.

Lemma dispatch_fold_ids l st :
  map n_id (nudges (fst (fold_left (dispatch_one env origin profs) l st)))
  = map n_id (nudges (fst st)).
Proof.
  revert st. induction l as [|n l IH]; intros st; simpl; auto.
  rewrite IH. apply dispatch_one_ids.
Qed.

Lemma dispatch_fold_tasks l st :
  tasks (fst (fold_left (dispatch_one env origin profs) l st)) = tasks (fst st).
Proof.
  revert st. induction l as [|n l IH]; intros st; simpl; auto.
  rewrite IH. apply dispatch_one_tasks.
Qed.

Lemma dispatch_fold_keeps l st r :
  In r (nudges (fst st)) -> (forall n, In n l -> n_id n <> n_id r) ->
  In r (nudges (fst (fold_left (dispatch_one env origin profs) l st))).
Proof.
  revert st. induction l as [|n l IH]; intros st Hin Hne; simpl; auto.
  apply IH.
  - apply dispatch_one_keeps; auto. apply Hne. now left.
  - intros n' Hn'. apply Hne. now right.
Qed.

End Dispatch.

(** C3.  The due query returns exactly the rows with [scheduled_at <= now] and
    [sent_at] null: a row scheduled in the future is not returned, a row with
    [sent_at] set is not returned, and the dispatch loop leaves every row that
    was not returned as it was. *)
Theorem due_query_selects_due_and_unsent
        (env : Env) (origin : string) (profs : list profile) (db : DB) (n : nudge) :
  In n (nudges db) ->
  (In n (NudgesCron.dueNudges db (now env))
   <-> n_scheduled_at n <= now env /\ n_sent_at n = None)
  /\ (now env < n_scheduled_at n -> ~ In n (NudgesCron.dueNudges db (now env)))
  /\ (n_sent_at n <> None -> ~ In n (NudgesCron.dueNudges db (now env)))
  /\ (NoDup (map n_id (nudges db)) ->
      ~ In n (NudgesCron.dueNudges db (now env)) ->
      In n (nudges (fst (NudgesCron.dispatch env origin profs db)))).
Proof.
  intros Hin.
  assert (Hiff : In n (NudgesCron.dueNudges db (now env))
                 <-> n_scheduled_at n <= now env /\ n_sent_at n = None).
  { unfold NudgesCron.dueNudges, NudgesCron.is_due. rewrite filter_In, andb_true_iff.
    rewrite Z.leb_le. split.
    - intros (_ & Hle & Hnull). split; auto. now destruct (n_sent_at n).
    - intros (Hle & Hnull). rewrite Hnull. auto. }
  split; [exact Hiff|]. split; [|split].
  - intros Hfut Hdue. apply Hiff in Hdue. lia.
  - intros Hsent Hdue. apply Hiff in Hdue. tauto.
  - intros Hnd Hnot. unfold NudgesCron.dispatch.
    apply dispatch_fold_keeps; auto.
    intros n' Hn' Heq. apply Hnot.
    assert (n' = n) as <-; auto.
    apply (NoDup_ids_inj n_id (nudges db)); auto.
    unfold NudgesCron.dueNudges in Hn'. now apply filter_In in Hn'.
Qed.

Lemma due_query_selects_due_and_unsent_witness :
  let env := sample_env noon_2024_06_10 in
  let n := mkNudge 3 "u-alice" 1718038800000 None None scheduled None in
  ~ In n (NudgesCron.dueNudges sample_db (now env))
  /\ In n (nudges (fst (NudgesCron.dispatch env "https://flow.test" [alice; bob; max_] sample_db))).
Proof.
  intros env n.
  destruct (due_query_selects_due_and_unsent env "https://flow.test" [alice; bob; max_]
              sample_db n) as (_ & Hfuture & _ & Hkept).
  { simpl. auto. }
  assert (Hnot : ~ In n (NudgesCron.dueNudges sample_db (now env))).
  { apply Hfuture. vm_compute. reflexivity. }
  split; [exact Hnot|].
  apply Hkept; [|exact Hnot].
  simpl. distinct_keys.
Defined.

(** C6.  A due nudge whose owner has no address, or whose delivery the
    transport reports as failed, ends the dispatch with status [failed] and
    [sent_at] still null; it is the only row with its id, and the due query
    returns it again at any later time, in particular in the next invocation
    of the handler, after its ensure loop. *)
Theorem failed_nudge_is_due_again (env : Env) (origin : string) (db : DB) (n : nudge) :
  NoDup (map n_id (nudges db)) ->
  In n (NudgesCron.dueNudges db (now env)) ->
  NudgesCron.email_of (profiles db) (n_user_id n) = ""
  \/ sendEmail env
       (NudgesCron.nudge_mail env origin (profiles db)
          (filter (fun t => String.eqb (t_owner_id t) (n_user_id n)) (tasks db)) n) = false ->
  let db' := fst (NudgesCron.dispatch env origin (profiles db) db) in
  exists r,
    In r (nudges db') /\ n_id r = n_id n
    /\ n_status r = failed /\ n_sent_at r = None
    /\ (forall r', In r' (nudges db') -> n_id r' = n_id n -> r' = r)
    /\ (forall later, now env <= later -> In r (NudgesCron.dueNudges db' later))
    /\ (forall env2 sched, now env <= now env2 ->
          In r (NudgesCron.dueNudges (NudgesCron.ensureToday env2 sched db') (now env2))).
Proof.
  intros Hnd Hdue Hfail db'.
  assert (Hdue' := Hdue). unfold NudgesCron.dueNudges in Hdue'.
  apply filter_In in Hdue' as [Hin Hisdue].
  unfold NudgesCron.is_due in Hisdue. apply andb_true_iff in Hisdue as [Hle Hnull].
  apply Z.leb_le in Hle.
  assert (Hsent : n_sent_at n = None) by (now destruct (n_sent_at n)).
  assert (Hnd_due : NoDup (map n_id (NudgesCron.dueNudges db (now env)))).
  { now apply NoDup_map_filter. }
  destruct (in_split _ _ Hdue) as (l1 & l2 & Hsplit).
  rewrite Hsplit, map_app in Hnd_due. simpl in Hnd_due.
  assert (Hl1 : forall n', In n' l1 -> n_id n' <> n_id n).
  { intros n' Hn' Heq. apply NoDup_remove_2 in Hnd_due. apply Hnd_due.
    apply in_or_app. left. rewrite <- Heq. now apply in_map. }
  assert (Hl2 : forall n', In n' l2 -> n_id n' <> n_id n).
  { intros n' Hn' Heq. apply NoDup_remove_2 in Hnd_due. apply Hnd_due.
    apply in_or_app. right. rewrite <- Heq. now apply in_map. }
  set (step := NudgesCron.dispatch_one env origin (profiles db)) in *.
  set (st1 := fold_left step l1 (db, O)).
  assert (Hin1 : In n (nudges (fst st1))).
  { apply dispatch_fold_keeps; auto. }
  assert (Htasks1 : tasks (fst st1) = tasks db).
  { unfold st1, step. now rewrite dispatch_fold_tasks. }
  assert (Hstep : fst (step st1 n)
                  = NudgesCron.update_nudge NudgesCron.mark_failed (n_id n) (fst st1)).
  { unfold step, NudgesCron.dispatch_one. destruct st1 as [db1 c1]. simpl in *.
    rewrite Htasks1.
    destruct Hfail as [Hemail|Hsend].
    - rewrite Hemail. reflexivity.
    - rewrite Hsend.
      destruct (negb (NudgesCron.email_of (profiles db) (n_user_id n) =? "")%string);
        reflexivity. }
  exists (NudgesCron.mark_failed n).
  assert (Hfinal : In (NudgesCron.mark_failed n) (nudges db')).
  { unfold db', NudgesCron.dispatch. rewrite Hsplit, fold_left_app. simpl.
    apply dispatch_fold_keeps; auto.
    change (In (NudgesCron.mark_failed n) (nudges (fst (step st1 n)))).
    rewrite Hstep. unfold NudgesCron.update_nudge. simpl.
    apply in_map_iff. exists n. rewrite Nat.eqb_refl. auto. }
  assert (Hids : map n_id (nudges db') = map n_id (nudges db)).
  { unfold db', NudgesCron.dispatch. now rewrite dispatch_fold_ids. }
  assert (Hlater : forall later, now env <= later ->
                                 NudgesCron.is_due later (NudgesCron.mark_failed n) = true).
  { intros later Hlater. unfold NudgesCron.is_due. simpl. rewrite Hsent. simpl.
    rewrite andb_true_r. apply Z.leb_le. lia. }
  split; [exact Hfinal|]. split; [reflexivity|]. split; [reflexivity|].
  split; [exact Hsent|]. split; [|split].
  - intros r' Hr' Heq.
    apply (NoDup_ids_inj n_id (nudges db')); auto. now rewrite Hids.
  - intros later Hl. unfold NudgesCron.dueNudges. apply filter_In. auto.
  - intros env2 sched Hl. unfold NudgesCron.dueNudges. apply filter_In. split; auto.
    now apply ensureToday_keeps.
Qed.

Lemma failed_nudge_is_due_again_witness :
  let env := sample_env noon_2024_06_10 in
  let db' := fst (NudgesCron.dispatch env "https://flow.test" (profiles sample_db) sample_db) in
  exists r,
    In r (nudges db') /\ n_id r = 4%nat
    /\ n_status r = failed /\ n_sent_at r = None
    /\ (forall r', In r' (nudges db') -> n_id r' = 4%nat -> r' = r)
    /\ (forall later, now env <= later -> In r (NudgesCron.dueNudges db' later))
    /\ (forall env2 sched, now env <= now env2 ->
          In r (NudgesCron.dueNudges (NudgesCron.ensureToday env2 sched db') (now env2))).
Proof.
  intros env.
  apply (failed_nudge_is_due_again env "https://flow.test" sample_db
           (mkNudge 4 "u-bob" 1718010000000 None None scheduled None)).
  - simpl. distinct_keys.
  - vm_compute. auto.
  - left. reflexivity.
Defined.

(** An hour later Alice's 13:00 nudge is due too.  With the transport down
    it is marked failed like Bob's and nothing is counted as sent; with the
    transport of the repository it is sent. *)
Example dispatch_with_and_without_transport :
  let statuses env :=
    let '(db', sentCount) :=
      NudgesCron.dispatch env "https://flow.test" (profiles sample_db) sample_db in
    (map (fun r => (n_id r, n_status r, n_sent_at r)) (nudges db'), sentCount) in
  statuses (mail_down_env (noon_2024_06_10 + MS_PER_HOUR))
  = ([(1%nat, sent, Some 1718010300000); (2%nat, failed, None);
      (3%nat, scheduled, None); (4%nat, failed, None)], 0%nat)
  /\ statuses (sample_env (noon_2024_06_10 + MS_PER_HOUR))
     = ([(1%nat, sent, Some 1718010300000);
         (2%nat, sent, Some (noon_2024_06_10 + MS_PER_HOUR));
         (3%nat, scheduled, None); (4%nat, failed, None)], 1%nat).
Proof. vm_compute. split; reflexivity. Qed.

(** ** The task snapshot *)

Lemma obj_get_set_same {A} (o : list (string * A)) (k : string) (v : A) :
  ReportsCron.obj_get (ReportsCron.obj_set o k v) k = Some v.
Proof.
  induction o as [|[k' v'] o IH]; simpl.
  - now rewrite String.eqb_refl.
  - destruct (String.eqb k' k) eqn:E; simpl; rewrite E; auto.
Qed.

Lemma obj_get_set_other {A} (o : list (string * A)) (k k' : string) (v : A) :
  k <> k' -> ReportsCron.obj_get (ReportsCron.obj_set o k v) k' = ReportsCron.obj_get o k'.
Proof.
  intros Hne. induction o as [|[k0 v0] o IH]; simpl.
  - destruct (String.eqb_spec k k'); congruence.
  - destruct (String.eqb_spec k0 k) as [->|Hk]; simpl.
    + destruct (String.eqb_spec k k'); congruence.
    + now rewrite IH.
Qed.

Lemma is_done_iff (t : task) : is_done t = true <-> t_status t = done.
Proof. unfold is_done. destruct (t_status t); split; congruence. Qed.

Lemma is_done_false_iff (t : task) : is_done t = false <-> t_status t <> done.
Proof. unfold is_done. destruct (t_status t); split; congruence. Qed.

(** A due date whose end lies at or after the end of [today] is not overdue,
    whatever zone the host derives [today] from. *)
Lemma not_overdue_when_diff_nonneg (z : zone) (now_ due_date : Z) :
  -1439 <= z now_ ->
  0 <= (due_end_of_day due_date - todayEnd (local_day z now_)) / MS_PER_DAY ->
  ~ due_end_of_day due_date < now_.
Proof.
  unfold due_end_of_day, todayEnd, local_day.
  change MS_PER_DAY with 86400000. change MS_PER_MINUTE with 60000.
  intros Hoff Hdiff.
  set (L := (now_ + z now_ * 60000) / 86400000) in *.
  pose proof (Z.div_mod (now_ + z now_ * 60000) 86400000 ltac:(lia)) as E1.
  pose proof (Z.mod_pos_bound (now_ + z now_ * 60000) 86400000 ltac:(lia)) as B1.
  fold L in E1.
  set (a := due_date * 86400000 + 86399000 - (L * 86400000 + 86399999)) in *.
  pose proof (Z.div_mod a 86400000 ltac:(lia)) as E2.
  pose proof (Z.mod_pos_bound a 86400000 ltac:(lia)) as B2.
  unfold a in *. lia.
Qed.

Lemma tally_entry (env : Env) (today : Z) (perUser : list (string * member_stats))
      (t : task) (u : string) (user : member_stats) :
  ReportsCron.obj_get perUser u = Some user ->
  ReportsCron.obj_get (ReportsCron.tally env today perUser t) u
  = Some (if String.eqb (t_owner_id t) u
          then mkStats (s_name user)
                       (s_completedToday user + if completed_today today t then 1 else 0)
                       (s_open user + if negb (is_done t) then 1 else 0)
                       (s_overdue user + if is_overdue (now env) t then 1 else 0)
                       (s_dueSoon user + if is_due_soon (now env) today t then 1 else 0)
          else user).
Proof.
  intros Hu. unfold ReportsCron.tally.
  destruct (String.eqb_spec (t_owner_id t) u) as [->|Hne].
  - rewrite Hu, obj_get_set_same. f_equal.
    unfold completed_today, is_due_soon, is_overdue.
    destruct user as [name c o v d]. simpl.
    destruct (is_done t); simpl.
    + destruct (utc_day (t_updated_at t) =? today); simpl; f_equal; lia.
    + destruct (due_end_of_day (t_due_date t) <? now env); simpl.
      * rewrite andb_false_r. f_equal; lia.
      * rewrite andb_true_r.
        destruct ((0 <=? _) && (_ <=? 1)); simpl; f_equal; lia.
  - destruct (ReportsCron.obj_get perUser (t_owner_id t)); auto.
    now rewrite obj_get_set_other.
Qed.

(** The counters of a team member after the loop over the tasks. *)
Lemma report_counters (env : Env) (today : Z) (ts : list task) :
  forall (perUser : list (string * member_stats)) (u : string) (user : member_stats),
    ReportsCron.obj_get perUser u = Some user ->
    ReportsCron.obj_get (fold_left (ReportsCron.tally env today) ts perUser) u
    = Some (mkStats (s_name user)
                    (s_completedToday user + count_of u (completed_today today) ts)
                    (s_open user + count_of u (fun t => negb (is_done t)) ts)
                    (s_overdue user + count_of u (is_overdue (now env)) ts)
                    (s_dueSoon user + count_of u (is_due_soon (now env) today) ts)).
Proof.
  induction ts as [|t ts IH]; intros perUser u user Hu; simpl.
  - rewrite Hu. destruct user. unfold count_of. simpl. f_equal. f_equal; lia.
  - rewrite (IH _ u _ (tally_entry env today perUser t u user Hu)).
    unfold count_of. simpl.
    destruct (String.eqb (t_owner_id t) u); simpl.
    + f_equal.
      destruct (completed_today today t), (negb (is_done t)), (is_overdue (now env) t),
        (is_due_soon (now env) today t); simpl; f_equal; lia.
    + reflexivity.
Qed.

(** The classification as the code computes it, the end of today being
    [todayEnd] (23:59:59.999 UTC), in the snapshot of the nudge and in the
    counters of the manager report: overdue iff not done and the end of its
    due date (23:59:59 UTC) is strictly before now; due-soon iff not done, the
    whole number of days from [todayEnd] to the end of its due date is 0 or
    1, and it is not overdue; a done task is neither.  The two lists of
    the nudge hold exactly the tasks so classified, and the two counters of a
    team member in the report grow by the number of their tasks so
    classified. *)
Theorem snapshot_classification
        (env : Env) (ts : list task) (t : task)
        (perUser : list (string * member_stats)) (u : string) (user : member_stats) :
  -1439 <= system_zone env (now env) ->
  ReportsCron.obj_get perUser u = Some user ->
  let due := due_end_of_day (t_due_date t) in
  let diffDays today := (due - todayEnd today) / MS_PER_DAY in
  let overdue_now := t_status t <> done /\ due < now env in
  let due_soon today := t_status t <> done /\ 0 <= diffDays today <= 1 /\ ~ overdue_now in
  (is_overdue (now env) t = true <-> overdue_now)
  /\ (forall today, is_due_soon (now env) today t = true <-> due_soon today)
  /\ (In t (NudgesCron.overdue env ts) <-> In t ts /\ overdue_now)
  /\ (In t (NudgesCron.dueSoon env ts) <-> In t ts /\ due_soon (NudgesCron.todayDate env))
  /\ (exists user',
         ReportsCron.obj_get
           (fold_left (ReportsCron.tally env (ReportsCron.todayUtcDateStr env)) ts perUser) u
         = Some user'
         /\ s_overdue user' = (s_overdue user + count_of u (is_overdue (now env)) ts)%nat
         /\ s_dueSoon user'
            = (s_dueSoon user
               + count_of u (is_due_soon (now env) (ReportsCron.todayUtcDateStr env)) ts)%nat)
  /\ (t_status t = done -> ~ overdue_now /\ forall today, ~ due_soon today).
Proof.
  intros Hzone Huser due diffDays overdue_now due_soon.
  assert (Hov : is_overdue (now env) t = true <-> overdue_now).
  { unfold is_overdue, overdue_now, due.
    now rewrite andb_true_iff, negb_true_iff, is_done_false_iff, Z.ltb_lt. }
  assert (Hsoon : forall today, is_due_soon (now env) today t = true <-> due_soon today).
  { intros today. unfold is_due_soon, due_soon, diffDays, due.
    rewrite !andb_true_iff, negb_true_iff, is_done_false_iff, !Z.leb_le, <- Hov.
    destruct (is_overdue (now env) t); simpl; intuition congruence. }
  split; [exact Hov|]. split; [exact Hsoon|]. split; [|split; [|split]].
  - unfold NudgesCron.overdue. rewrite filter_In. fold (is_overdue (now env) t).
    now rewrite Hov.
  - unfold NudgesCron.dueSoon. rewrite filter_In.
    unfold due_soon, overdue_now, diffDays, due, NudgesCron.todayDate.
    destruct (is_done t) eqn:Hd.
    + apply is_done_iff in Hd. intuition congruence.
    + apply is_done_false_iff in Hd.
      rewrite andb_true_iff, !Z.leb_le.
      split.
      * intros (Hin & Hlo & Hhi). repeat split; auto.
        intros [_ Hlt].
        now apply (not_overdue_when_diff_nonneg (system_zone env) (now env) (t_due_date t)).
      * intros (Hin & _ & [Hlo Hhi] & _). auto.
  - eexists. split; [apply (report_counters env _ ts perUser u user Huser)|].
    simpl. auto.
  - intros Hdone. unfold due_soon, overdue_now. split; [tauto|]. intros today. tauto.
Qed.

Lemma snapshot_classification_witness :
  let env := sample_env noon_2024_06_10 in
  let t := task_due "t-tomorrow" 19885 in_progress in
  In t (NudgesCron.dueSoon env sample_tasks)
  <-> In t sample_tasks
      /\ (t_status t <> done
          /\ 0 <= (due_end_of_day (t_due_date t)
                   - todayEnd (NudgesCron.todayDate env)) / MS_PER_DAY <= 1
          /\ ~ (t_status t <> done /\ due_end_of_day (t_due_date t) < now env)).
Proof.
  intros env t.
  destruct (snapshot_classification env sample_tasks t
              (ReportsCron.init_perUser [alice; bob]) "u-alice" (mkStats "Alice" 0 0 0 0))
    as (_ & _ & _ & Hsoon & _).
  - unfold env, sample_env, utc_zone. simpl. lia.
  - reflexivity.
  - exact Hsoon.
Defined.

(** At noon of 2024-06-10 the due-soon tasks are those due on the 11th and
    the 12th; the one due on the 10th is counted as due today only. *)
Example due_soon_window :
  let env := sample_env noon_2024_06_10 in
  map t_id (NudgesCron.overdue env sample_tasks) = ["t-yesterday"]
  /\ map t_id (NudgesCron.dueToday env sample_tasks) = ["t-today"]
  /\ map t_id (NudgesCron.dueSoon env sample_tasks) = ["t-tomorrow"; "t-in-two-days"].
Proof. vm_compute. auto. Qed.

(** ** Due soon: the words and the code *)

Lemma floor_code (d today : Z) :
  (due_end_of_day d - todayEnd today) / MS_PER_DAY = d - today - 1.
Proof.
  unfold due_end_of_day, todayEnd. change MS_PER_DAY with 86400000.
  replace (d * 86400000 + 86399000 - (today * 86400000 + 86399999))
    with ((d - today - 1) * 86400000 + 86399001) by lia.
  rewrite Z.div_add_l by lia. change (86399001 / 86400000) with 0. lia.
Qed.

Lemma floor_spec (d today : Z) :
  (spec_end_of_day d - spec_end_of_day today) / MS_PER_DAY = d - today.
Proof.
  unfold spec_end_of_day. change MS_PER_DAY with 86400000.
  replace (d * 86400000 + 86399000 - (today * 86400000 + 86399000))
    with ((d - today) * 86400000) by lia.
  now rewrite Z.div_mul by lia.
Qed.

Lemma leb_shift (a b c : Z) : (a <=? b - c) = (c + a <=? b).
Proof. destruct (Z.leb_spec a (b - c)), (Z.leb_spec (c + a) b); auto; lia. Qed.

Lemma code_window (today : Z) (t : task) :
  (if is_done t then false
   else (0 <=? (due_end_of_day (t_due_date t) - todayEnd today) / MS_PER_DAY)
        && ((due_end_of_day (t_due_date t) - todayEnd today) / MS_PER_DAY <=? 1))
  = due_in_one_or_two_days today t.
Proof.
  unfold due_in_one_or_two_days. rewrite floor_code.
  destruct (is_done t); [reflexivity|]. cbn [negb andb]. f_equal.
  - destruct (Z.leb_spec 0 (t_due_date t - today - 1)),
      (Z.leb_spec (today + 1) (t_due_date t)); auto; lia.
  - destruct (Z.leb_spec (t_due_date t - today - 1) 1),
      (Z.leb_spec (t_due_date t) (today + 2)); auto; lia.
Qed.

Lemma is_due_soon_utc (now_ : Z) (t : task) :
  is_due_soon now_ (utc_day now_) t = due_in_one_or_two_days (utc_day now_) t.
Proof.
  unfold is_due_soon. rewrite <- andb_assoc, <- andb_assoc.
  rewrite (andb_assoc (0 <=? _)).
  pose proof (code_window (utc_day now_) t) as W.
  destruct (is_done t) eqn:Hd.
  - unfold due_in_one_or_two_days. rewrite Hd. reflexivity.
  - cbn [negb andb]. rewrite W.
    destruct (due_in_one_or_two_days (utc_day now_) t) eqn:Hw; [|reflexivity].
    cbn [andb]. unfold is_overdue. rewrite Hd. cbn [negb andb].
    unfold due_in_one_or_two_days in Hw. rewrite Hd in Hw. cbn [negb andb] in Hw.
    apply andb_true_iff in Hw as [Hlo _]. apply Z.leb_le in Hlo.
    apply negb_true_iff, Z.ltb_ge.
    unfold due_end_of_day, utc_day in *. change MS_PER_DAY with 86400000 in *.
    pose proof (Z.mul_succ_div_gt now_ 86400000 eq_refl). nia.
Qed.

(** C4 (the failing case).  Due-soon as the specification words it, with the
    end of today and the end of the due date both at 23:59:59 UTC, holds of
    the tasks that are not done, not overdue and due today or tomorrow.  The
    code takes the end of today at 23:59:59.999 and the end of the due date
    at 23:59:59, which makes the whole number of days one less: in the
    snapshot of a nudge the due-soon tasks, and their counter, are the tasks
    not done and due one or two days after today, and the due-soon counter
    of a team member in the report grows by the number of their tasks of
    this kind.  On the example of the specification (noon of 2024-06-10) the
    task due that day is due-soon by the words and is left out by both
    routes, and the task due on the 12th is not due-soon by the words and is
    counted by both.  The two routes also take today differently, the nudge
    route from the clock of the host and the report from UTC: on a host in
    New York, at 02:00Z of the 11th, the task due on the 13th is due-soon
    for the report and not for the nudge. *)
Theorem due_soon_is_a_day_late (env : Env) (ts : list task) :
  (forall now_ today t,
      spec_due_soon now_ today t = true
      <-> t_status t <> done /\ today <= t_due_date t <= today + 1
          /\ ~ spec_end_of_day (t_due_date t) < now_)
  /\ NudgesCron.dueSoon env ts
     = filter (due_in_one_or_two_days (NudgesCron.todayDate env)) ts
  /\ c_dueSoon (pl_counts (NudgesCron.snapshot env ts))
     = length (filter (due_in_one_or_two_days (NudgesCron.todayDate env)) ts)
  /\ (forall perUser u user,
        ReportsCron.obj_get perUser u = Some user ->
        exists user',
          ReportsCron.obj_get
            (fold_left (ReportsCron.tally env (ReportsCron.todayUtcDateStr env)) ts perUser) u
          = Some user'
          /\ s_dueSoon user'
             = (s_dueSoon user
                + count_of u (due_in_one_or_two_days (ReportsCron.todayUtcDateStr env)) ts)%nat)
  /\ (let env0 := sample_env noon_2024_06_10 in
      map (fun t => (t_id t, t_due_date t - 19884, spec_due_soon (now env0) 19884 t))
          sample_tasks
      = [("t-yesterday", -1, false); ("t-today", 0, true); ("t-tomorrow", 1, true);
         ("t-in-two-days", 2, false); ("t-in-three-days", 3, false); ("t-done", -1, false)]
      /\ NudgesCron.todayDate env0 = 19884
      /\ pl_dueSoon (NudgesCron.snapshot env0 sample_tasks)
         = [("t-tomorrow", "t-tomorrow", 19885); ("t-in-two-days", "t-in-two-days", 19886)]
      /\ c_dueSoon (pl_counts (NudgesCron.snapshot env0 sample_tasks)) = 2%nat
      /\ ReportsCron.todayUtcDateStr env0 = 19884
      /\ ReportsCron.obj_get
           (sum_perUser (ReportsCron.build_summary
                           env0 (with_tasks [task_due "t-today" 19884 todo] team_db) max_))
           "u-alice"
         = Some (mkStats "Alice" 0 1 0 0)
      /\ ReportsCron.obj_get
           (sum_perUser (ReportsCron.build_summary
                           env0 (with_tasks [task_due "t-in-two-days" 19886 todo] team_db)
                           max_))
           "u-alice"
         = Some (mkStats "Alice" 0 1 0 1))
  /\ (let env1 := new_york_host_env 1718071200000 in
      let t := task_due "t-in-three-days" 19887 todo in
      NudgesCron.todayDate env1 = 19884 /\ ReportsCron.todayUtcDateStr env1 = 19885
      /\ c_dueSoon (pl_counts (NudgesCron.snapshot env1 [t])) = 0%nat
      /\ ReportsCron.obj_get
           (sum_perUser (ReportsCron.build_summary env1 (with_tasks [t] team_db) max_))
           "u-alice"
         = Some (mkStats "Alice" 0 1 0 1)).
Proof.
  assert (Hsoon : NudgesCron.dueSoon env ts
                  = filter (due_in_one_or_two_days (NudgesCron.todayDate env)) ts).
  { unfold NudgesCron.dueSoon. apply filter_ext. intros t. cbv zeta. apply code_window. }
  split; [|split; [exact Hsoon|split; [|split; [|split]]]].
  - intros now_ today t. unfold spec_due_soon, spec_overdue. rewrite floor_spec.
    rewrite <- is_done_false_iff.
    destruct (is_done t); cbn [negb andb].
    + split; [discriminate|]. intros [Hd _]. discriminate Hd.
    + rewrite !andb_true_iff, negb_true_iff, !Z.leb_le, Z.ltb_ge. split.
      * intros ((Hlo & Hhi) & Hov). split; [reflexivity|]. split; lia.
      * intros (_ & [Hlo Hhi] & Hov). split; [split|]; lia.
  - unfold NudgesCron.snapshot. cbn [pl_counts c_dueSoon]. now rewrite Hsoon.
  - intros perUser u user Hu.
    rewrite (report_counters env (ReportsCron.todayUtcDateStr env) ts perUser u user Hu).
    eexists. split; [reflexivity|]. cbn [s_dueSoon]. f_equal.
    unfold count_of. f_equal. apply filter_ext. intros t. f_equal.
    apply is_due_soon_utc.
  - vm_compute. repeat split; reflexivity.
  - vm_compute. repeat split; reflexivity.
Qed.

(** ** Resolving a slot *)

Lemma match_time_0900 : match_time "09:00" = Some (9, 0).
Proof. reflexivity. Qed.

Lemma fixOffset_two_offsets (z : zone) (L A13 A14 o : Z) :
  L - -240 * MS_PER_MINUTE = A13 ->
  L - -300 * MS_PER_MINUTE = A14 ->
  o = -300 \/ o = -240 ->
  z A13 = -300 \/ z A13 = -240 ->
  z A14 = -300 \/ z A14 = -240 ->
  let r := fst (fixOffset L o z) in
  (r = A13 \/ r = A14)
  /\ (z A13 = z A14 ->
      (r = A13 <-> z r = -240) /\ (r = A14 <-> z r = -300)).
Proof.
  intros E13 E14 Ho H13 H14 r.
  assert (Hne : A13 <> A14) by (change MS_PER_MINUTE with 60000 in *; lia).
  assert (E1 : A14 - (-240 - -300) * MS_PER_MINUTE = A13)
    by (change MS_PER_MINUTE with 60000 in *; lia).
  assert (E2 : A13 - (-300 - -240) * MS_PER_MINUTE = A14)
    by (change MS_PER_MINUTE with 60000 in *; lia).
  assert (Hr : r = if z A13 =? -240 then (if o =? -240 then A13 else if z A14 =? -240 then A13 else A14)
                   else A14).
  { unfold r, fixOffset.
    destruct Ho as [-> | ->]; [rewrite E14 | rewrite E13];
      destruct H13 as [H13|H13], H14 as [H14|H14]; rewrite ?H13, ?H14;
      rewrite ?E1, ?E2, ?H13, ?H14; cbn [Z.eqb Pos.eqb fst];
      try change (Z.min (-240) (-300)) with (-300); try change (Z.min (-300) (-240)) with (-300);
      rewrite ?E14, ?E13; reflexivity. }
  rewrite Hr. clear Hr r.
  destruct Ho as [-> | ->], H13 as [H13|H13], H14 as [H14|H14]; rewrite H13, ?H14;
    cbn [Z.eqb Pos.eqb]; (split; [auto|]); intros Hst; try congruence;
    rewrite ?H13, ?H14; split; split; intros; congruence.
Qed.

(** C5.  The slot "09:00" in zone "UTC" resolves to 09:00 UTC of the UTC day
    of the clock reading.  In zone "America/New_York" (offsets -05:00 and,
    under daylight saving, -04:00, around the clock reading) it resolves to
    13:00 or 14:00 UTC of the day the New York wall clock shows at the clock
    reading: 13:00 exactly when daylight saving is in effect at the resolved
    instant (the zone having no transition between 13:00 and 14:00 UTC). *)
Theorem slot_0900_utc_and_new_york (env : Env) (ny : zone) :
  tzdb env "UTC" = Some utc_zone ->
  tzdb env "America/New_York" = Some ny ->
  (forall ts, now env - 2 * MS_PER_DAY <= ts <= now env + 2 * MS_PER_DAY ->
              ny ts = -300 \/ ny ts = -240) ->
  let day_utc := utc_day (now env) * MS_PER_DAY in
  let day_ny := local_day ny (now env) * MS_PER_DAY in
  parseTimeToUTCISO env "09:00" "UTC" = Some (day_utc + 9 * MS_PER_HOUR)
  /\ exists r,
      parseTimeToUTCISO env "09:00" "America/New_York" = Some r
      /\ (r = day_ny + 13 * MS_PER_HOUR \/ r = day_ny + 14 * MS_PER_HOUR)
      /\ (ny (day_ny + 13 * MS_PER_HOUR) = ny (day_ny + 14 * MS_PER_HOUR) ->
          (r = day_ny + 13 * MS_PER_HOUR <-> ny r = -240)
          /\ (r = day_ny + 14 * MS_PER_HOUR <-> ny r = -300)).
Proof.
  intros Hutc Hny Hrange day_utc day_ny.
  unfold parseTimeToUTCISO. rewrite match_time_0900. split.
  - simpl. rewrite Hutc. unfold fixOffset, utc_zone, local_day, day_utc, utc_day. simpl.
    now rewrite !Z.add_0_r, Z.sub_0_r.
  - simpl (if String.eqb _ _ then _ else _). rewrite Hny.
    fold day_ny. eexists. split; [reflexivity|].
    assert (Hnow : ny (now env) = -300 \/ ny (now env) = -240).
    { apply Hrange. change MS_PER_DAY with 86400000. lia. }
    assert (Hday : now env - 18000000 - 86400000 < day_ny <= now env - 14400000).
    { unfold day_ny, local_day.
      change MS_PER_DAY with 86400000. change MS_PER_MINUTE with 60000.
      pose proof (Z.div_mod (now env + ny (now env) * 60000) 86400000 ltac:(lia)) as E.
      pose proof (Z.mod_pos_bound (now env + ny (now env) * 60000) 86400000 ltac:(lia)) as B.
      lia. }
    apply fixOffset_two_offsets; auto;
      try apply Hrange;
      change MS_PER_MINUTE with 60000; change MS_PER_HOUR with 3600000;
      change MS_PER_DAY with 86400000; lia.
Qed.

Lemma new_york_2024_offsets (ts : Z) : new_york_2024 ts = -300 \/ new_york_2024 ts = -240.
Proof.
  unfold new_york_2024.
  destruct ((1710054000000 <=? ts) && (ts <? 1730613600000)); auto.
Qed.

Lemma slot_0900_utc_and_new_york_witness :
  parseTimeToUTCISO (sample_env noon_2024_06_10) "09:00" "UTC"
  = Some (19884 * MS_PER_DAY + 9 * MS_PER_HOUR)
  /\ exists r,
      parseTimeToUTCISO (sample_env noon_2024_06_10) "09:00" "America/New_York" = Some r
      /\ (r = 19884 * MS_PER_DAY + 13 * MS_PER_HOUR
          \/ r = 19884 * MS_PER_DAY + 14 * MS_PER_HOUR)
      /\ (new_york_2024 (19884 * MS_PER_DAY + 13 * MS_PER_HOUR)
          = new_york_2024 (19884 * MS_PER_DAY + 14 * MS_PER_HOUR) ->
          (r = 19884 * MS_PER_DAY + 13 * MS_PER_HOUR <-> new_york_2024 r = -240)
          /\ (r = 19884 * MS_PER_DAY + 14 * MS_PER_HOUR <-> new_york_2024 r = -300)).
Proof.
  apply (slot_0900_utc_and_new_york (sample_env noon_2024_06_10) new_york_2024).
  - reflexivity.
  - reflexivity.
  - intros ts _. apply new_york_2024_offsets.
Defined.

(** In June the slot lands on 13:00 UTC, in January on 14:00 UTC. *)
Example new_york_summer_and_winter :
  parseTimeToUTCISO (sample_env noon_2024_06_10) "09:00" "America/New_York"
  = Some (19884 * MS_PER_DAY + 13 * MS_PER_HOUR)
  /\ parseTimeToUTCISO (sample_env 1705320000000) "09:00" "America/New_York"
     = Some (19737 * MS_PER_DAY + 14 * MS_PER_HOUR).
Proof. split; reflexivity. Qed.

(** C10 (as the code has it).  [parseTimeToUTCISO] touches no store and its
    result is determined by its two arguments and the reading of the clock,
    which it takes itself: two calls with the same arguments agree whenever
    the zone shows the same calendar day and has the same offset at both
    readings. *)
Theorem parse_agrees_within_a_zone_day (env : Env) (t1 t2 : Z) (localTime tz : string) :
  (forall z, tzdb env (if String.eqb tz "" then "UTC" else tz) = Some z ->
             local_day z t1 = local_day z t2 /\ z t1 = z t2) ->
  parseTimeToUTCISO (at_time t1 env) localTime tz
  = parseTimeToUTCISO (at_time t2 env) localTime tz.
Proof.
  intros Hsame. unfold parseTimeToUTCISO.
  destruct (match_time localTime) as [[hour minute]|]; auto.
  simpl. destruct (tzdb env (if String.eqb tz "" then "UTC" else tz)) as [z|]; auto.
  destruct (Hsame z eq_refl) as [-> ->]. reflexivity.
Qed.

Lemma parse_agrees_within_a_zone_day_witness :
  parseTimeToUTCISO (at_time noon_2024_06_10 (sample_env 0)) "17:00" "America/New_York"
  = parseTimeToUTCISO (at_time (noon_2024_06_10 + 6 * MS_PER_HOUR) (sample_env 0))
      "17:00" "America/New_York".
Proof.
  apply (parse_agrees_within_a_zone_day (sample_env 0) noon_2024_06_10
           (noon_2024_06_10 + 6 * MS_PER_HOUR) "17:00" "America/New_York").
  intros z Hz. change (Some new_york_2024 = Some z) in Hz. injection Hz as <-.
  split; reflexivity.
Defined.

(** The same two arguments at noon of 2024-06-10 and at noon of 2024-06-11:
    the results differ, the call reads the clock. *)
Lemma parse_reads_the_clock :
  parseTimeToUTCISO (sample_env noon_2024_06_10) "09:00" "UTC" = Some 1718010000000
  /\ parseTimeToUTCISO (sample_env (noon_2024_06_10 + MS_PER_DAY)) "09:00" "UTC"
     = Some 1718096400000
  /\ parseTimeToUTCISO (sample_env noon_2024_06_10) "09:00" "UTC"
     <> parseTimeToUTCISO (sample_env (noon_2024_06_10 + MS_PER_DAY)) "09:00" "UTC".
Proof. repeat split. discriminate. Qed.

(** ** The acknowledgement link *)

Arguments Sha256.hmac_sha256_hex : simpl never.
Arguments AckRoute.verifyToken : simpl never.
Arguments NudgesCron.buildAckToken : simpl never.

Lemma compress_length (h block : list Z) :
  length h = 8%nat -> length (Sha256.compress h block) = 8%nat.
Proof.
  intros Hh. unfold Sha256.compress.
  destruct (fold_left Sha256.round _ _) as [[[[[[[a b] c] d] e] f] g] hh].
  rewrite length_map, length_combine, Hh. reflexivity.
Qed.

Lemma blocks_length (fuel : nat) (h ws : list Z) :
  length h = 8%nat -> length (Sha256.blocks fuel h ws) = 8%nat.
Proof.
  revert h ws. induction fuel as [|fuel IH]; intros h ws Hh; simpl; auto.
  destruct ws; auto. apply IH. now apply compress_length.
Qed.

Lemma sha256_length (msg : list Z) : length (Sha256.sha256 msg) = 32%nat.
Proof.
  unfold Sha256.sha256.
  pose proof (blocks_length
                (length (Sha256.words_of_bytes (length (Sha256.pad msg)) (Sha256.pad msg)))
                Sha256.H0
                (Sha256.words_of_bytes (length (Sha256.pad msg)) (Sha256.pad msg))
                eq_refl) as H.
  destruct (Sha256.blocks _ _ _) as [|a [|b [|c [|d [|e [|f [|g [|h [|]]]]]]]]];
    simpl in H; try discriminate. reflexivity.
Qed.

Lemma hex_length (bs : list Z) : String.length (Sha256.hex bs) = (2 * length bs)%nat.
Proof. induction bs as [|b bs IH]; simpl; auto. rewrite IH. lia. Qed.

(** A token is 64 hexadecimal characters. *)
Lemma buildAckToken_length (env : Env) (id : string) :
  String.length (NudgesCron.buildAckToken env id) = 64%nat.
Proof.
  unfold NudgesCron.buildAckToken, Sha256.hmac_sha256_hex, Sha256.hmac_sha256.
  now rewrite hex_length, sha256_length.
Qed.

Lemma verifyToken_spec (env : Env) (id token : string) :
  AckRoute.verifyToken env id token
  = if Nat.eqb (String.length token) 64
    then Some (String.eqb (NudgesCron.buildAckToken env id) token)
    else None.
Proof.
  unfold AckRoute.verifyToken, AckRoute.timingSafeEqual.
  fold (NudgesCron.buildAckToken env id). rewrite buildAckToken_length.
  rewrite Nat.eqb_sym. reflexivity.
Qed.

(** A request is answered from the parameters and the secret alone: the
    response never depends on what the store holds. *)
Lemma ack_response_ignores_store (env : Env) (db db' : DB) (i t : option string) :
  fst (AckRoute.GET env db i t) = fst (AckRoute.GET env db' i t).
Proof.
  unfold AckRoute.GET. destruct i as [id|], t as [token|]; auto.
  destruct (AckRoute.is_empty (Some id) || AckRoute.is_empty (Some token)); auto.
  destruct (AckRoute.verifyToken env id token) as [[|]|]; reflexivity.
Qed.

(** X21.  A request whose token is not the MAC of its id changes no row; it
    is answered with the "invalid link" page when the token is missing, empty
    or 64 bytes long, and raises otherwise. *)
Lemma invalid_ack_changes_nothing (env : Env) (db : DB) (i t : option string) :
  (forall id, i = Some id -> t <> Some (NudgesCron.buildAckToken env id)) ->
  snd (AckRoute.GET env db i t) = db
  /\ (fst (AckRoute.GET env db i t) = AckRoute.Response 400 AckRoute.InvalidLinkPage
      \/ fst (AckRoute.GET env db i t) = AckRoute.Throws_RangeError)
  /\ (fst (AckRoute.GET env db i t) = AckRoute.Throws_RangeError
      <-> exists id token, i = Some id /\ t = Some token /\ id <> "" /\ token <> ""
                           /\ String.length token <> 64%nat).
Proof.
  intros Hbad. unfold AckRoute.GET.
  destruct i as [id|], t as [token|]; simpl;
    try (split; [reflexivity|split; [now left|]]; split; [discriminate|];
         intros (? & ? & ? & ? & _); discriminate).
  destruct (String.eqb_spec id "") as [->|Hid]; simpl.
  { split; [reflexivity|split; [now left|]]. split; [discriminate|].
    intros (? & ? & E & _ & Hn & _). injection E as <-. congruence. }
  destruct (String.eqb_spec token "") as [->|Htok]; simpl.
  { split; [reflexivity|split; [now left|]]. split; [discriminate|].
    intros (? & ? & _ & E & _ & Hn & _). injection E as <-. congruence. }
  rewrite verifyToken_spec.
  destruct (Nat.eqb_spec (String.length token) 64) as [Hlen|Hlen].
  - destruct (String.eqb_spec (NudgesCron.buildAckToken env id) token) as [Heq|Hne].
    + exfalso. apply (Hbad id eq_refl). now rewrite Heq.
    + split; [reflexivity|split; [now left|]]. split; [discriminate|].
      intros (? & ? & _ & E & _ & _ & Hn). injection E as <-. congruence.
  - split; [reflexivity|split; [now right|]]. split; auto.
    intros _. exists id, token. auto.
Qed.

(** C9 (the failing case).  For the nudge with id 1, a token that is not its
    MAC and not 64 bytes long: [timingSafeEqual] raises, the handler returns
    no response; the store is left as it was. *)
Theorem short_token_raises :
  AckRoute.GET (sample_env noon_2024_06_10) unsent_db (Some "1") (Some "93bda3e6")
  = (AckRoute.Throws_RangeError, unsent_db).
Proof. vm_compute. reflexivity. Qed.

(** A wrong token of the right length is turned away with the page. *)
Example flipped_bit_token_rejected :
  AckRoute.GET (sample_env noon_2024_06_10) unsent_db (Some "1")
    (Some "83bda3e640dcd98c7801f398f93c50252bd059330004f2312e08953508543e9e")
  = (AckRoute.Response 400 AckRoute.InvalidLinkPage, unsent_db).
Proof. vm_compute. reflexivity. Qed.

(** X22.  A request carrying the MAC of its id marks every row with that id
    acknowledged, at the time of the request, whatever the status of the row
    was; [sent_at] and the other columns keep their values and rows with
    another id are left alone. *)
Theorem valid_ack_marks_any_status (env : Env) (db : DB) (id token : string) (r : nudge) :
  id <> "" ->
  AckRoute.verifyToken env id token = Some true ->
  In r (nudges db) ->
  exists db',
    AckRoute.GET env db (Some id) (Some token)
    = (AckRoute.Response 200 AckRoute.ThanksPage, db')
    /\ (uuid_text (n_id r) = id ->
        In (mkNudge (n_id r) (n_user_id r) (n_scheduled_at r) (n_sent_at r)
                    (Some (now env)) acknowledged (n_payload r)) (nudges db'))
    /\ (uuid_text (n_id r) <> id -> In r (nudges db')).
Proof.
  intros Hid Hok Hin.
  assert (Htok : token <> "").
  { rewrite verifyToken_spec in Hok. intros ->. discriminate. }
  exists (AckRoute.acknowledge env id db). split; [|split].
  - unfold AckRoute.GET. simpl.
    destruct (String.eqb_spec id ""); [congruence|].
    destruct (String.eqb_spec token ""); [congruence|]. simpl.
    now rewrite Hok.
  - intros Huuid. unfold AckRoute.acknowledge. simpl.
    apply in_map_iff. exists r. split; auto.
    destruct (String.eqb_spec (uuid_text (n_id r)) id); [reflexivity|congruence].
  - intros Huuid. unfold AckRoute.acknowledge. simpl.
    apply in_map_iff. exists r. split; auto.
    destruct (String.eqb_spec (uuid_text (n_id r)) id); [congruence|reflexivity].
Qed.

Lemma valid_ack_marks_any_status_witness :
  exists db',
    AckRoute.GET (sample_env noon_2024_06_10) unsent_db (Some "1")
      (Some "93bda3e640dcd98c7801f398f93c50252bd059330004f2312e08953508543e9e")
    = (AckRoute.Response 200 AckRoute.ThanksPage, db')
    /\ (uuid_text 1 = "1" ->
        In (mkNudge 1 "u-alice" 1718024400000 None (Some noon_2024_06_10) acknowledged None)
           (nudges db'))
    /\ (uuid_text 1 <> "1" ->
        In (mkNudge 1 "u-alice" 1718024400000 None None scheduled None) (nudges db')).
Proof.
  apply (valid_ack_marks_any_status (sample_env noon_2024_06_10) unsent_db "1"
           "93bda3e640dcd98c7801f398f93c50252bd059330004f2312e08953508543e9e"
           (mkNudge 1 "u-alice" 1718024400000 None None scheduled None)).
  - discriminate.
  - vm_compute. reflexivity.
  - simpl. auto.
Defined.

(** C8 (the failing case).  An instance reaches [acknowledged] only from
    [sent]: not so for the link.  The nudge below is [scheduled] and was never
    sent; a request carrying the MAC of its id is answered with the thanks
    page and the row ends up [acknowledged], [sent_at] still null. *)
Theorem unsent_nudge_gets_acknowledged :
  nudges unsent_db = [mkNudge 1 "u-alice" 1718024400000 None None scheduled None]
  /\ AckRoute.GET (sample_env noon_2024_06_10) unsent_db (Some "1")
       (Some "93bda3e640dcd98c7801f398f93c50252bd059330004f2312e08953508543e9e")
     = (AckRoute.Response 200 AckRoute.ThanksPage,
        with_nudges
          [mkNudge 1 "u-alice" 1718024400000 None (Some noon_2024_06_10) acknowledged None]
          unsent_db).
Proof. split; vm_compute; reflexivity. Qed.

(** ** The ensure loop *)

Section Ensure.
Import NudgesCron.

Lemma filter_none {A} (f : A -> bool) (l : list A) :
  (forall x, In x l -> f x = false) -> filter f l = [].
Proof.
  induction l as [|x l IH]; simpl; auto. intros H.
  rewrite (H x (or_introl eq_refl)). apply IH. intros y Hy. apply H. now right.
Qed.

Lemma exists_cnt db u a : exists_ db u a = Nat.eqb (cnt (slot_is u a) (nudges db)) 1.
Proof.
  unfold exists_, cnt.
  change (filter (fun r => slot_is u a (n_user_id r) (n_scheduled_at r)) (nudges db))
    with (filter (same_slot u a) (nudges db)).
  destruct (filter (same_slot u a) (nudges db)) as [|x [|y l]]; reflexivity.
Qed.

Lemma cnt_app f l1 l2 : cnt f (l1 ++ l2) = (cnt f l1 + cnt f l2)%nat.
Proof. unfold cnt. now rewrite filter_app, length_app. Qed.

Lemma added_app f init l1 l2 : added f init (l1 ++ l2) = (added f init l1 + added f init l2)%nat.
Proof. unfold added. now rewrite filter_app, length_app. Qed.

Lemma added_cons f init j l :
  added f init (j :: l)
  = ((if is_settled j && unseen init (job_key j) && f (j_user j) (j_at j) then 1 else 0)
     + added f init l)%nat.
Proof. unfold added. simpl. destruct (_ && _ && _); reflexivity. Qed.

Lemma slot_is_key (k k' : string * Z) :
  slot_is (fst k) (snd k) (fst k') (snd k') = true <-> k' = k.
Proof.
  destruct k as [u a], k' as [u' a']. unfold slot_is. simpl.
  rewrite andb_true_iff, String.eqb_eq, Z.eqb_eq. split.
  - intros [-> ->]. reflexivity.
  - intros E. injection E as -> ->. auto.
Qed.

Lemma added_other_keys f init l :
  (forall j, In j l -> f (j_user j) (j_at j) = false) -> added f init l = 0%nat.
Proof.
  intros H. unfold added. induction l as [|j l IH]; simpl; auto.
  rewrite (H j (or_introl eq_refl)), andb_false_r. apply IH.
  intros j' Hj'. apply H. now right.
Qed.

Lemma added_absent_key init l u a :
  ~ In (u, a) (map job_key l) -> added (slot_is u a) init l = 0%nat.
Proof.
  intros Hnot. apply added_other_keys. intros j Hj.
  destruct (slot_is u a (j_user j) (j_at j)) eqn:E; auto.
  exfalso. apply Hnot. apply (slot_is_key (u, a) (job_key j)) in E. rewrite <- E.
  now apply in_map.
Qed.

Lemma added_unsettled f init l :
  (forall j, In j l -> j_phase j = Selecting) -> added f init l = 0%nat.
Proof.
  intros H. unfold added. induction l as [|j l IH]; simpl; auto.
  unfold is_settled at 1. rewrite (H j (or_introl eq_refl)). simpl. apply IH.
  intros j' Hj'. apply H. now right.
Qed.

Lemma step_job_key db j : job_key (snd (step_job db j)) = job_key j.
Proof. unfold step_job. destruct (j_phase j); reflexivity. Qed.

Lemma cnt_insert f db u a :
  cnt f (nudges (insert_scheduled db u a)) = (cnt f (nudges db) + if f u a then 1 else 0)%nat.
Proof.
  unfold insert_scheduled. simpl. rewrite cnt_app. unfold cnt at 2. simpl.
  destruct (f u a); reflexivity.
Qed.

(** One request served, seen from the pool [l1 ++ j :: l2]. *)
Lemma step_job_inv init db l1 j l2 :
  NoDup (map job_key (l1 ++ j :: l2)) ->
  ensure_inv init db (l1 ++ j :: l2) ->
  ensure_inv init (fst (step_job db j)) (l1 ++ snd (step_job db j) :: l2).
Proof.
  intros Hnd [HA HB HC HP HN].
  rewrite map_app in Hnd. simpl in Hnd.
  assert (Hl1 : ~ In (job_key j) (map job_key l1)).
  { intros Hin. apply NoDup_remove_2 in Hnd. apply Hnd. apply in_or_app. now left. }
  assert (Hl2 : ~ In (job_key j) (map job_key l2)).
  { intros Hin. apply NoDup_remove_2 in Hnd. apply Hnd. apply in_or_app. now right. }
  assert (Hothers : forall j', In j' (l1 ++ snd (step_job db j) :: l2) ->
                               j' = snd (step_job db j) \/ In j' (l1 ++ j :: l2)).
  { intros j' Hj'. apply in_app_or in Hj' as [Hj'|[Hj'|Hj']]; auto.
    - right. apply in_or_app. now left.
    - right. apply in_or_app. right. now right. }
  unfold step_job. destruct (j_phase j) eqn:Hph.
  - (* the existence query is answered *)
    assert (Hsame : exists_ db (j_user j) (j_at j) = exists_ init (j_user j) (j_at j)).
    { rewrite !exists_cnt. rewrite HB. rewrite added_app, added_cons.
      rewrite (added_absent_key init l1 (j_user j) (j_at j) Hl1).
      rewrite (added_absent_key init l2 (j_user j) (j_at j) Hl2).
      unfold is_settled. rewrite Hph. simpl. now rewrite Nat.add_0_r. }
    simpl. rewrite Hsame. constructor; auto.
    + intros j' Hj' Hins. apply in_app_or in Hj' as [Hj'|[<-|Hj']].
      * apply HA; auto. apply in_or_app. now left.
      * simpl in Hins. unfold unseen, job_key. simpl.
        destruct (exists_ init (j_user j) (j_at j)); [discriminate|reflexivity].
      * apply HA; auto. apply in_or_app. right. now right.
    + intros f. rewrite HB, !added_app, !added_cons. f_equal. f_equal. f_equal.
      unfold is_settled, unseen, job_key. rewrite Hph. simpl.
      destruct (exists_ init (j_user j) (j_at j)); reflexivity.
  - (* the insert is served *)
    simpl. constructor; auto.
    + intros j' Hj' Hins. apply in_app_or in Hj' as [Hj'|[<-|Hj']].
      * apply HA; auto. apply in_or_app. now left.
      * discriminate.
      * apply HA; auto. apply in_or_app. right. now right.
    + intros f. rewrite cnt_insert, HB, !added_app, !added_cons.
      assert (Hun : unseen init (job_key j) = true).
      { apply HA; auto. apply in_or_app. right. now left. }
      replace (is_settled j) with false by (unfold is_settled; now rewrite Hph).
      change (is_settled {| j_user := j_user j; j_at := j_at j; j_phase := Settled |}) with true.
      change (job_key {| j_user := j_user j; j_at := j_at j; j_phase := Settled |})
        with (job_key j).
      rewrite Hun. simpl. destruct (f (j_user j) (j_at j)); lia.
    + destruct HC as [l HC]. exists (l ++ [mkNudge (gen_random_uuid (map n_id (nudges db)))
                                               (j_user j) (j_at j) None None scheduled None]).
      unfold insert_scheduled. simpl. rewrite HC. now rewrite app_assoc.
  - (* nothing is pending *)
    simpl. constructor; auto.
Qed.


Lemma step_at_split i js db :
  (exists l1 j l2, js = l1 ++ j :: l2
                   /\ step_at i js db = (fst (step_job db j), l1 ++ snd (step_job db j) :: l2))
  \/ step_at i js db = (db, js).
Proof.
  revert i. induction js as [|j js IH]; intros i; simpl; [now right|].
  destruct i as [|i].
  - left. exists [], j, js. split; auto. simpl. destruct (step_job db j); reflexivity.
  - destruct (IH i) as [(l1 & j' & l2 & -> & E)|E]; rewrite E.
    + left. exists (j :: l1), j', l2. auto.
    + now right.
Qed.

Lemma step_at_inv init i js db :
  NoDup (map job_key js) -> ensure_inv init db js ->
  ensure_inv init (fst (step_at i js db)) (snd (step_at i js db))
  /\ map job_key (snd (step_at i js db)) = map job_key js.
Proof.
  intros Hnd Hinv.
  destruct (step_at_split i js db) as [(l1 & j & l2 & -> & E)|E]; rewrite E; simpl; auto.
  split; [now apply step_job_inv|].
  rewrite !map_app. simpl. now rewrite step_job_key.
Qed.

Lemma run_inv init sched js db :
  NoDup (map job_key js) -> ensure_inv init db js ->
  ensure_inv init (fst (run sched (db, js))) (snd (run sched (db, js)))
  /\ map job_key (snd (run sched (db, js))) = map job_key js.
Proof.
  unfold run. revert js db. induction sched as [|i sched IH]; intros js db Hnd Hinv; simpl; auto.
  destruct (step_at_inv init i js db Hnd Hinv) as [Hinv' Hkeys].
  destruct (step_at i js db) as [db' js'] eqn:E. simpl in *.
  destruct (IH js' db') as [H1 H2]; auto.
  - now rewrite Hkeys.
  - split; auto. now rewrite H2.
Qed.

Lemma step_job_twice_settles db j :
  is_settled (snd (step_job (fst (step_job db j)) (snd (step_job db j)))) = true.
Proof.
  unfold step_job at 2 3. destruct (j_phase j) eqn:Hph; simpl.
  - unfold step_job. simpl. destruct (exists_ db (j_user j) (j_at j)); reflexivity.
  - reflexivity.
  - unfold step_job. rewrite Hph. simpl. unfold is_settled. now rewrite Hph.
Qed.

Lemma drain_inv init l2 : forall l1 db,
  NoDup (map job_key (l1 ++ l2)) -> ensure_inv init db (l1 ++ l2) ->
  ensure_inv init (fst (drain l2 db)) (l1 ++ snd (drain l2 db))
  /\ map job_key (snd (drain l2 db)) = map job_key l2
  /\ forallb is_settled (snd (drain l2 db)) = true.
Proof.
  induction l2 as [|j l2 IH]; intros l1 db Hnd Hinv; simpl; auto.
  pose proof (step_job_inv init db l1 j l2 Hnd Hinv) as H1.
  pose proof (step_job_key db j) as K1.
  pose proof (step_job_twice_settles db j) as Hset.
  destruct (step_job db j) as [db1 j1]. simpl in *.
  assert (Hnd1 : NoDup (map job_key (l1 ++ j1 :: l2))).
  { rewrite map_app in *. simpl in *. now rewrite K1. }
  pose proof (step_job_inv init db1 l1 j1 l2 Hnd1 H1) as H2.
  pose proof (step_job_key db1 j1) as K2.
  destruct (step_job db1 j1) as [db2 j2]. simpl in *.
  assert (Hnd2 : NoDup (map job_key ((l1 ++ [j2]) ++ l2))).
  { rewrite <- app_assoc. simpl. rewrite map_app in *. simpl in *. now rewrite K2. }
  assert (H2' : ensure_inv init db2 ((l1 ++ [j2]) ++ l2)).
  { rewrite <- app_assoc. exact H2. }
  destruct (IH (l1 ++ [j2]) db2 Hnd2 H2') as (H3 & K3 & S3).
  destruct (drain l2 db2) as [db3 l2']. simpl in *.
  rewrite <- app_assoc in H3. simpl in H3.
  split; [exact H3|]. split.
  - now rewrite K3, K2, K1.
  - now rewrite Hset, S3.
Qed.

Lemma added_all_settled f init js :
  forallb is_settled js = true ->
  added f init js
  = length (filter (fun k => unseen init k && f (fst k) (snd k)) (map job_key js)).
Proof.
  unfold added. induction js as [|j js IH]; simpl; auto.
  intros H. apply andb_true_iff in H as [Hj Hjs]. rewrite Hj. simpl.
  destruct (unseen init (job_key j) && f (j_user j) (j_at j)); simpl; rewrite IH; auto.
Qed.

Lemma ensure_inv_start db js : pristine js -> ensure_inv db db js.
Proof.
  intros Hp. constructor; auto.
  - intros j Hj Hins. rewrite (Hp j Hj) in Hins. discriminate.
  - intros f. rewrite added_unsettled; auto.
  - exists []. now rewrite app_nil_r.
Qed.


(** What [await Promise.all] leaves behind, whatever the order of service. *)
Lemma settle_counts sched js db :
  NoDup (map job_key js) -> pristine js ->
  (forall f, cnt f (nudges (settle sched js db))
             = (cnt f (nudges db)
                + length (filter (fun k => unseen db k && f (fst k) (snd k))
                                 (map job_key js)))%nat)
  /\ (exists l, nudges (settle sched js db) = nudges db ++ l)
  /\ profiles (settle sched js db) = profiles db
  /\ nudge_configs (settle sched js db) = nudge_configs db.
Proof.
  intros Hnd Hp. unfold settle.
  destruct (run_inv db sched js db Hnd (ensure_inv_start db js Hp)) as [Hinv Hkeys].
  destruct (run sched (db, js)) as [db1 js1]. simpl in *.
  destruct (drain_inv db js1 [] db1) as (Hinv' & Hkeys' & Hset); auto.
  { simpl. now rewrite Hkeys. }
  simpl in Hinv'. destruct Hinv' as [_ HB HC HP HN].
  repeat split; auto.
  intros f. rewrite HB, added_all_settled; auto. now rewrite Hkeys', Hkeys.
Qed.

Lemma count_key_present (g : string * Z -> bool) (keys : list (string * Z)) u a :
  NoDup keys -> In (u, a) keys ->
  length (filter (fun k => g k && slot_is u a (fst k) (snd k)) keys)
  = if g (u, a) then 1%nat else 0%nat.
Proof.
  induction keys as [|k keys IH]; simpl; [tauto|].
  intros Hnd Hin. inversion Hnd as [|? ? Hnotin Hnd']; subst.
  destruct Hin as [->|Hin].
  - simpl. replace (slot_is u a u a) with true
      by (symmetry; apply (slot_is_key (u, a) (u, a)); reflexivity).
    rewrite andb_true_r.
    assert (E : filter (fun k => g k && slot_is u a (fst k) (snd k)) keys = []).
    { apply filter_none. intros k Hk.
      destruct (slot_is u a (fst k) (snd k)) eqn:Es; [|apply andb_false_r].
      apply (slot_is_key (u, a) k) in Es. subst k. contradiction. }
    rewrite E. destruct (g (u, a)); reflexivity.
  - destruct (slot_is u a (fst k) (snd k)) eqn:Es.
    + apply (slot_is_key (u, a) k) in Es. subst k. contradiction.
    + rewrite andb_false_r. auto.
Qed.

Lemma count_key_absent (g : string * Z -> bool) (keys : list (string * Z)) u a :
  ~ In (u, a) keys ->
  length (filter (fun k => g k && slot_is u a (fst k) (snd k)) keys) = 0%nat.
Proof.
  intros Hnot.
  assert (E : filter (fun k => g k && slot_is u a (fst k) (snd k)) keys = []).
  { apply filter_none. intros k Hk.
    destruct (slot_is u a (fst k) (snd k)) eqn:Es; [|apply andb_false_r].
    apply (slot_is_key (u, a) k) in Es. subst k. contradiction. }
  now rewrite E.
Qed.

Lemma jobs_of_profile_user env cfgs p j :
  In j (jobs_of_profile env cfgs p) -> j_user j = p_id p /\ j_phase j = Selecting.
Proof.
  unfold jobs_of_profile.
  destruct (match confByUser cfgs (p_id p) with
            | Some c => negb (nc_enabled c) | None => false end); [simpl; tauto|].
  intros Hin. apply in_flat_map in Hin as (t & _ & Hin).
  destruct (parseTimeToUTCISO env t _); simpl in Hin; [|tauto].
  destruct Hin as [<-|[]]. auto.
Qed.

Lemma ensure_jobs_pristine env db : pristine (ensure_jobs env db).
Proof.
  intros j Hj. unfold ensure_jobs in Hj. apply in_flat_map in Hj as (p & _ & Hj).
  now apply jobs_of_profile_user in Hj.
Qed.

(** Among the closures of an invocation, those of one profile. *)
Lemma count_jobs_of_profile env cfgs (g : string * Z -> bool) (profs : list profile) p :
  NoDup (map p_id profs) -> In p profs ->
  length (filter (fun k => g k && String.eqb (fst k) (p_id p))
                 (map job_key (flat_map (jobs_of_profile env cfgs) profs)))
  = length (filter (fun j => g (job_key j)) (jobs_of_profile env cfgs p)).
Proof.
  assert (Hmine : forall q, p_id q = p_id p ->
            length (filter (fun k => g k && String.eqb (fst k) (p_id p))
                           (map job_key (jobs_of_profile env cfgs q)))
            = length (filter (fun j => g (job_key j)) (jobs_of_profile env cfgs q))).
  { intros q Hq.
    assert (H : forall l, (forall j, In j l -> j_user j = p_id p) ->
                length (filter (fun k => g k && String.eqb (fst k) (p_id p)) (map job_key l))
                = length (filter (fun j => g (job_key j)) l)).
    { induction l as [|j l IH]; simpl; auto. intros Hl.
      rewrite (Hl j (or_introl eq_refl)), String.eqb_refl, andb_true_r.
      destruct (g (job_key j)); simpl; rewrite IH; auto. }
    apply H. intros j Hj. apply jobs_of_profile_user in Hj. destruct Hj as [-> _]. exact Hq. }
  assert (Hother : forall l, (forall q, In q l -> p_id q <> p_id p) ->
            length (filter (fun k => g k && String.eqb (fst k) (p_id p))
                           (map job_key (flat_map (jobs_of_profile env cfgs) l))) = 0%nat).
  { intros l Hl.
    assert (E : filter (fun k => g k && String.eqb (fst k) (p_id p))
                       (map job_key (flat_map (jobs_of_profile env cfgs) l)) = []).
    { apply filter_none. intros k Hk.
      apply in_map_iff in Hk as (j & <- & Hj). apply in_flat_map in Hj as (q & Hq & Hj).
      apply jobs_of_profile_user in Hj. destruct Hj as [Hu _]. simpl. rewrite Hu.
      destruct (String.eqb_spec (p_id q) (p_id p)) as [E|_]; [|apply andb_false_r].
      exfalso. now apply (Hl q Hq). }
    now rewrite E. }
  induction profs as [|q profs IH]; simpl; [tauto|].
  intros Hnd Hin. inversion Hnd as [|? ? Hnotin Hnd']; subst.
  rewrite map_app, filter_app, length_app.
  destruct Hin as [->|Hin].
  - rewrite Hmine; auto. rewrite Hother; [lia|].
    intros q Hq E. apply Hnotin. rewrite <- E. now apply in_map.
  - rewrite IH; auto.
    assert (Hq : p_id q <> p_id p).
    { intros E. apply Hnotin. rewrite E. now apply in_map. }
    assert (E : forall q', In q' [q] -> p_id q' <> p_id p) by (intros q' [<-|[]]; exact Hq).
    apply Hother in E. simpl in E. rewrite app_nil_r in E. now rewrite E.
Qed.


Lemma key_eq_dec (k k' : string * Z) : {k = k'} + {k <> k'}.
Proof. decide equality; [apply Z.eq_dec|apply string_dec]. Qed.

Lemma cnt_all rows : cnt (fun _ _ => true) rows = length rows.
Proof. unfold cnt. induction rows; simpl; auto. Qed.

End Ensure.

(** Where two runs do create once.  Two invocations of the ensure loop in
    succession, whatever the order in which the store serves the concurrent
    requests of each: provided both resolve the configured slots to the same
    instants and no two closures of an invocation share a (user, instant),
    and the store starts with at most one nudge per (user, scheduled_at),
    the first invocation adds for each user one nudge per slot of theirs that
    resolves and has no nudge yet, the second adds nothing, and at most one
    nudge per (user, scheduled_at) holds after each. *)
Theorem ensure_twice_creates_once
        (env1 env2 : Env) (s1 s2 : list nat) (db : DB) (p : profile) :
  NoDup (map p_id (profiles db)) ->
  In p (profiles db) ->
  NoDup (map job_key (NudgesCron.ensure_jobs env1 db)) ->
  NudgesCron.ensure_jobs env2 db = NudgesCron.ensure_jobs env1 db ->
  unique_slots db ->
  let db1 := NudgesCron.ensureToday env1 s1 db in
  let db2 := NudgesCron.ensureToday env2 s2 db1 in
  rows_of (p_id p) db1
  = (rows_of (p_id p) db
     + length (filter (fun j => unseen db (job_key j))
                      (NudgesCron.jobs_of_profile env1 (nudge_configs db) p)))%nat
  /\ nudges db2 = nudges db1
  /\ unique_slots db1
  /\ unique_slots db2.
Proof.
  intros Hids Hp Hnd Hsame Huniq db1 db2.
  set (jobs := NudgesCron.ensure_jobs env1 db) in *.
  destruct (settle_counts s1 jobs db Hnd (ensure_jobs_pristine env1 db))
    as (Hcnt1 & _ & Hprofs1 & Hconfs1).
  change (NudgesCron.settle s1 jobs db) with db1 in Hcnt1, Hprofs1, Hconfs1.
  assert (Hone : forall u a, In (u, a) (map job_key jobs) ->
                             cnt (slot_is u a) (nudges db1) = 1%nat).
  { intros u a Hin. rewrite Hcnt1, (count_key_present (unseen db)); auto.
    unfold unseen. simpl. rewrite exists_cnt. specialize (Huniq u a).
    destruct (cnt (slot_is u a) (nudges db)) as [|[|n]]; simpl; lia. }
  assert (Huniq1 : unique_slots db1).
  { intros u a. destruct (in_dec key_eq_dec (u, a) (map job_key jobs)) as [Hin|Hnot].
    - now rewrite Hone.
    - rewrite Hcnt1, (count_key_absent (unseen db)); auto. specialize (Huniq u a). lia. }
  assert (Hjobs2 : NudgesCron.ensure_jobs env2 db1 = jobs).
  { unfold NudgesCron.ensure_jobs. rewrite Hprofs1, Hconfs1. exact Hsame. }
  assert (Hnd2 : NoDup (map job_key (NudgesCron.ensure_jobs env2 db1))) by now rewrite Hjobs2.
  destruct (settle_counts s2 (NudgesCron.ensure_jobs env2 db1) db1 Hnd2
              (ensure_jobs_pristine env2 db1)) as (Hcnt2 & [l Happ] & _ & _).
  change (NudgesCron.settle s2 (NudgesCron.ensure_jobs env2 db1) db1) with db2 in Hcnt2, Happ.
  rewrite Hjobs2 in Hcnt2.
  assert (Hnone : forall f, filter (fun k => unseen db1 k && f (fst k) (snd k))
                                   (map job_key jobs) = []).
  { intros f. apply filter_none. intros [u a] Hk. unfold unseen. simpl.
    rewrite exists_cnt, (Hone u a Hk). reflexivity. }
  assert (Hsame_rows : nudges db2 = nudges db1).
  { pose proof (Hcnt2 (fun _ _ => true)) as Hlen. rewrite Hnone, !cnt_all in Hlen.
    rewrite Happ, length_app in Hlen. simpl in Hlen.
    destruct l; [now rewrite app_nil_r in Happ|simpl in Hlen; lia]. }
  split; [|split; [exact Hsame_rows|split; [exact Huniq1|]]].
  - unfold rows_of. rewrite Hcnt1.
    f_equal. unfold jobs, NudgesCron.ensure_jobs.
    apply (count_jobs_of_profile env1 (nudge_configs db) (unseen db)); auto.
  - intros u a. rewrite Hsame_rows. apply Huniq1.
Qed.

Lemma ensure_twice_creates_once_witness :
  let env1 := sample_env noon_2024_06_10 in
  let env2 := sample_env (noon_2024_06_10 + MS_PER_HOUR) in
  let db1 := NudgesCron.ensureToday env1 (NudgesCron.selects_first 4) fresh_db in
  let db2 := NudgesCron.ensureToday env2 [] db1 in
  rows_of "u-alice" db1
  = (rows_of "u-alice" fresh_db
     + length (filter (fun j => unseen fresh_db (job_key j))
                      (NudgesCron.jobs_of_profile env1 (nudge_configs fresh_db) alice)))%nat
  /\ nudges db2 = nudges db1
  /\ unique_slots db1
  /\ unique_slots db2.
Proof.
  apply (ensure_twice_creates_once (sample_env noon_2024_06_10)
           (sample_env (noon_2024_06_10 + MS_PER_HOUR))
           (NudgesCron.selects_first 4) [] fresh_db alice).
  - simpl. distinct_keys.
  - simpl. auto.
  - vm_compute. distinct_keys.
  - vm_compute. reflexivity.
  - intros u a. unfold cnt. simpl. lia.
Defined.

(** Three nudges for Alice, one for Bob, none for Max. *)
Example ensure_fresh_db :
  let db1 := NudgesCron.ensureToday (sample_env noon_2024_06_10)
                                    (NudgesCron.selects_first 4) fresh_db in
  map (fun r => (n_user_id r, n_scheduled_at r)) (nudges db1)
  = [("u-alice", 1718010000000); ("u-alice", 1718024400000);
     ("u-alice", 1718038800000); ("u-bob", 1718024400000)].
Proof. vm_compute. reflexivity. Qed.

(** Max has one configured slot and his nudges switched off, Bob has two
    distinct configured slots of which one is no time of day: two invocations
    in succession leave no nudge for Max and one for Bob. *)
Lemma disabled_and_invalid_slots_create_no_nudge :
  let env := sample_env noon_2024_06_10 in
  let db2 := NudgesCron.ensureToday env [] (NudgesCron.ensureToday env [] fresh_db) in
  NudgesCron.confByUser (nudge_configs fresh_db) "u-max"
  = Some (mkConfig "u-max" "UTC" ["08:00"] false)
  /\ rows_of "u-max" db2 = 0%nat
  /\ NudgesCron.confByUser (nudge_configs fresh_db) "u-bob"
     = Some (mkConfig "u-bob" "America/New_York" ["09:00"; "25:00"] true)
  /\ length (nodup string_dec ["09:00"; "25:00"]) = 2%nat
  /\ rows_of "u-bob" db2 = 1%nat.
Proof. vm_compute. repeat split; reflexivity. Qed.

(** C2 (the failing case).  Two invocations for Alice overlap on an empty
    table and the store answers the six existence queries before it serves
    an insert: every slot of hers ends up with two nudges.  Nothing in the
    store stands in the way, the check is the handler's own. *)
Theorem overlapping_invocations_insert_twice :
  let env := sample_env noon_2024_06_10 in
  let pool := NudgesCron.ensure_jobs env alice_only_db
              ++ NudgesCron.ensure_jobs env alice_only_db in
  let db' := NudgesCron.settle (NudgesCron.selects_first 6) pool alice_only_db in
  map (fun r => (n_user_id r, n_scheduled_at r)) (nudges db')
  = [("u-alice", 1718010000000); ("u-alice", 1718024400000); ("u-alice", 1718038800000);
     ("u-alice", 1718010000000); ("u-alice", 1718024400000); ("u-alice", 1718038800000)]
  /\ cnt (slot_is "u-alice" 1718010000000) (nudges db') = 2%nat
  /\ ~ unique_slots db'.
Proof.
  intros env pool db'.
  assert (H2 : cnt (slot_is "u-alice" 1718010000000) (nudges db') = 2%nat)
    by (vm_compute; reflexivity).
  split; [vm_compute; reflexivity|]. split; [exact H2|].
  intros Hu. specialize (Hu "u-alice" 1718010000000). rewrite H2 in Hu. lia.
Qed.

(** The same within one invocation, for a slot that is configured twice; and
    once a slot has two nudges the existence query reports none, so that every
    later invocation adds more. *)
Example duplicated_slot_inserts_twice :
  let env := sample_env noon_2024_06_10 in
  let db1 := NudgesCron.ensureToday env (NudgesCron.selects_first 2) carol_db in
  let db2 := NudgesCron.ensureToday env [] db1 in
  length (nudges db1) = 2%nat /\ length (nudges db2) = 4%nat.
Proof. vm_compute. split; reflexivity. Qed.

(** ** Two runs on one day *)

(** C1 (the failing cases).  Two runs of the ensure loop in succession on one
    day leave more rows than the user has distinct slots.  Carol has one
    slot, written twice: the two closures of the first run both query before
    either inserts, as [Promise.all] starts them, and leave two rows for one
    (user, scheduled_at); the existence query then finds two rows, reports
    none, and the second run, served one request at a time, adds two more.
    Dana has one slot, 01:30 in New York: on 2024-11-03 the wall clock shows
    that time twice, a run at 05:00Z resolves it to 05:30Z and a run at
    07:00Z of the same New York day to 06:30Z, and Dana ends the day with
    two rows, with no two requests ever overlapping. *)
Theorem same_day_runs_double_rows :
  let slot_of (r : nudge) := (n_user_id r, n_scheduled_at r) in
  (let env := sample_env noon_2024_06_10 in
   let db1 := NudgesCron.ensureToday env (NudgesCron.selects_first 2) carol_db in
   let db2 := NudgesCron.ensureToday env [] db1 in
   nc_times (nth 0 (nudge_configs carol_db) (mkConfig "" "" [] true)) = ["09:00"; "09:00"]
   /\ nudges carol_db = []
   /\ map slot_of (nudges db1)
      = [("u-carol", 1718010000000); ("u-carol", 1718010000000)]
   /\ ~ unique_slots db1
   /\ map slot_of (nudges db2)
      = [("u-carol", 1718010000000); ("u-carol", 1718010000000);
         ("u-carol", 1718010000000); ("u-carol", 1718010000000)])
  /\ (let env1 := sample_env 1730610000000 in
      let env2 := sample_env 1730617200000 in
      let db1 := NudgesCron.ensureToday env1 [] dana_db in
      let db2 := NudgesCron.ensureToday env2 [] db1 in
      nc_times (nth 0 (nudge_configs dana_db) (mkConfig "" "" [] true)) = ["01:30"]
      /\ nudges dana_db = []
      /\ local_day new_york_2024 (now env1) = local_day new_york_2024 (now env2)
      /\ map slot_of (nudges db1) = [("u-dana", 1730611800000)]
      /\ map slot_of (nudges db2)
         = [("u-dana", 1730611800000); ("u-dana", 1730615400000)]).
Proof.
  intros slot_of. split.
  - intros env db1 db2.
    assert (H1 : map slot_of (nudges db1)
                 = [("u-carol", 1718010000000); ("u-carol", 1718010000000)])
      by (vm_compute; reflexivity).
    split; [reflexivity|]. split; [reflexivity|]. split; [exact H1|]. split.
    + intros Hu. specialize (Hu "u-carol" 1718010000000).
      assert (H2 : cnt (slot_is "u-carol" 1718010000000) (nudges db1) = 2%nat)
        by (vm_compute; reflexivity).
      rewrite H2 in Hu. lia.
    + vm_compute. reflexivity.
  - intros env1 env2 db1 db2. repeat split; vm_compute; reflexivity.
Qed.

(** ** The manager report *)

Section Reports.
Import ReportsCron.
Variable env : Env.



Lemma NoDup_snoc {A} (l : list A) (x : A) : NoDup l -> ~ In x l -> NoDup (l ++ [x]).
Proof.
  induction l as [|y l IH]; simpl; intros Hnd Hnot.
  - constructor; auto.
  - inversion Hnd as [|? ? Hy Hnd']; subst. constructor.
    + intros Hin. apply in_app_or in Hin as [Hin|[->|[]]]; auto.
    + apply IH; auto.
Qed.















End Reports.



(** The two runs of the witness: one row, and the counters of the second run. *)
Example report_refreshed :
  let env1 := sample_env noon_2024_06_10 in
  let env2 := sample_env (noon_2024_06_10 + MS_PER_HOUR) in
  let db1 := fst (fst (ReportsCron.GET env1 team_db)) in
  let db2 := fst (fst (ReportsCron.GET env2 (with_tasks [task_due "t-today" 19884 done] db1))) in
  map r_summary (manager_reports db1)
  = [Some (mkSummary 19884 [("u-alice", mkStats "Alice" 1 5 1 2);
                            ("u-bob", mkStats "Bob" 0 0 0 0)])]
  /\ map (fun r => (r_id r, r_sent_at r, r_summary r)) (manager_reports db2)
     = [(1%nat, Some (noon_2024_06_10 + MS_PER_HOUR),
         Some (mkSummary 19884 [("u-alice", mkStats "Alice" 1 0 0 0);
                                ("u-bob", mkStats "Bob" 0 0 0 0)]))].
Proof. vm_compute. split; reflexivity. Qed.


(** ** Who may trigger the cron routes *)

Lemma prefix_slice (p s : string) :
  String.prefix p s = true -> s = (p ++ slice (String.length p) s)%string.
Proof.
  revert s. induction p as [|c p IH]; intros s; simpl; auto.
  destruct s as [|c' s]; simpl; [intros H; discriminate H|].
  destruct (Ascii.ascii_dec c c') as [->|]; [|intros H; discriminate H].
  intros H. f_equal. now apply IH.
Qed.

Lemma prefix_app (p s : string) : String.prefix p (p ++ s) = true.
Proof.
  induction p as [|c p IH]; simpl.
  - now destruct s.
  - destruct (Ascii.ascii_dec c c); [exact IH|congruence].
Qed.

Lemma slice_app (p s : string) : slice (String.length p) (p ++ s) = s.
Proof. induction p as [|c p IH]; simpl; auto. Qed.

(** X1.  With a secret configured, a request is authorised exactly when the header
    that counts carries the secret, bare or after "Bearer "; the header that
    counts is [authorization] unless that is missing or empty, and only then
    [x-cron-secret]. *)
Theorem isAuthorizedCron_iff (secret : string) (authorization x_cron_secret : option string) :
  secret <> "" ->
  isAuthorizedCron (Some secret) authorization x_cron_secret = true
  <-> header_or authorization x_cron_secret = Some secret
      \/ header_or authorization x_cron_secret = Some ("Bearer " ++ secret)%string.
Proof.
  intros Hs. unfold isAuthorizedCron.
  destruct (String.eqb_spec secret "") as [|_]; [contradiction|].
  destruct (header_or authorization x_cron_secret) as [h|].
  - destruct (String.eqb_spec h "") as [->|Hh].
    + split; [discriminate|]. intros [E|E]; injection E as E; [congruence|discriminate].
    + destruct (String.eqb_spec h secret) as [->|Hne].
      * split; auto.
      * unfold startsWith. destruct (String.prefix "Bearer " h) eqn:Hp.
        -- apply prefix_slice in Hp. change (String.length "Bearer ") with 7%nat in Hp.
           split.
           ++ intros E. apply String.eqb_eq in E. right. rewrite Hp, E. reflexivity.
           ++ intros [E|E]; injection E as E; [congruence|].
              subst h. apply String.eqb_eq. apply (slice_app "Bearer " secret).
        -- split; [discriminate|]. intros [E|E]; injection E as E; [congruence|].
           subst h. pose proof (prefix_app "Bearer " secret) as Hq.
           simpl in Hq, Hp. congruence.
  - split; [discriminate|]. intros [E|E]; discriminate.
Qed.

Lemma isAuthorizedCron_iff_witness :
  isAuthorizedCron (Some "s3cret") (Some "Basic abc") (Some "s3cret") = true
  <-> header_or (Some "Basic abc") (Some "s3cret") = Some "s3cret"
      \/ header_or (Some "Basic abc") (Some "s3cret") = Some ("Bearer " ++ "s3cret")%string.
Proof. apply (isAuthorizedCron_iff "s3cret" (Some "Basic abc") (Some "s3cret")). discriminate. Defined.

(** The secret in [x-cron-secret] does not help once [authorization] carries
    something else; without a configured secret everybody is let in. *)
Example isAuthorizedCron_cases :
  isAuthorizedCron (Some "s3cret") (Some "Basic abc") (Some "s3cret") = false
  /\ isAuthorizedCron (Some "s3cret") (Some "") (Some "s3cret") = true
  /\ isAuthorizedCron (Some "s3cret") (Some "Bearer s3cret") None = true
  /\ isAuthorizedCron (Some "s3cret") None None = false
  /\ isAuthorizedCron None None None = true
  /\ isAuthorizedCron (Some "") None None = true.
Proof. repeat split. Qed.

(** ** The middleware *)

(** X2.  A redirect is never answered with another redirect: the path a visitor is
    sent to passes the middleware for that same visitor. *)
Theorem updateSession_redirect_settles (user : bool) (pathname target : string) :
  updateSession user pathname = RedirectTo target ->
  updateSession user target = PassThrough.
Proof.
  unfold updateSession at 1.
  destruct (startsWith pathname "/api"); [discriminate|].
  destruct user; simpl.
  - destruct (startsWith pathname "/login"); [|discriminate].
    intros E. injection E as <-. reflexivity.
  - destruct (startsWith pathname "/login"); simpl; [discriminate|].
    intros E. injection E as <-. reflexivity.
Qed.

Lemma updateSession_redirect_settles_witness :
  updateSession false "/login" = PassThrough.
Proof. apply (updateSession_redirect_settles false "/tasks" "/login"). reflexivity. Defined.

(** ** [htmlEscape] *)

Lemma htmlEscape_cons (c : ascii) (s : string) :
  htmlEscape (String c s) = (escape_char c ++ htmlEscape s)%string.
Proof. reflexivity. Qed.

Lemma list_ascii_app (a b : string) :
  list_ascii_of_string (a ++ b) = list_ascii_of_string a ++ list_ascii_of_string b.
Proof. induction a as [|c a IH]; simpl; auto. now rewrite IH. Qed.

Lemma ascii_of_code (c : ascii) (n : nat) : nat_of_ascii c = n -> c = ascii_of_nat n.
Proof. intros <-. now rewrite ascii_nat_embedding. Qed.

Lemma escape_char_cases (c : ascii) :
  (html_special c = false /\ escape_char c = String c EmptyString)
  \/ (c = "&"%char /\ escape_char c = "&amp;")
  \/ (c = "<"%char /\ escape_char c = "&lt;")
  \/ (c = ">"%char /\ escape_char c = "&gt;")
  \/ (c = ascii_of_nat 34 /\ escape_char c = "&quot;")
  \/ (c = "'"%char /\ escape_char c = "&#039;").
Proof.
  unfold escape_char, html_special.
  destruct (Nat.eqb_spec (nat_of_ascii c) 38) as [E|_].
  { right. left. split; auto. now apply ascii_of_code in E. }
  destruct (Nat.eqb_spec (nat_of_ascii c) 60) as [E|_].
  { right. right. left. split; auto. now apply ascii_of_code in E. }
  destruct (Nat.eqb_spec (nat_of_ascii c) 62) as [E|_].
  { right. right. right. left. split; auto. now apply ascii_of_code in E. }
  destruct (Nat.eqb_spec (nat_of_ascii c) 34) as [E|_].
  { right. right. right. right. left. split; auto. now apply ascii_of_code in E. }
  destruct (Nat.eqb_spec (nat_of_ascii c) 39) as [E|_].
  { right. right. right. right. right. split; auto. now apply ascii_of_code in E. }
  left. auto.
Qed.

(** X3.  The escaped text holds no less-than, greater-than, double quote or
    apostrophe, and so cannot open or close a tag or an attribute of the mail
    it is spliced into. *)
Theorem htmlEscape_output_is_inert (s : string) (c : ascii) :
  In c (list_ascii_of_string (htmlEscape s)) ->
  c <> "<"%char /\ c <> ">"%char /\ c <> ascii_of_nat 34 /\ c <> "'"%char.
Proof.
  induction s as [|a s IH]; [simpl; tauto|].
  rewrite htmlEscape_cons, list_ascii_app. intros Hin.
  apply in_app_or in Hin as [Hin|Hin]; [|now apply IH].
  destruct (escape_char_cases a) as [[Hs E]|[[_ E]|[[_ E]|[[_ E]|[[_ E]|[_ E]]]]]];
    rewrite E in Hin; simpl in Hin.
  - destruct Hin as [<-|[]]. unfold html_special in Hs.
    repeat split; intros ->; discriminate Hs.
  - repeat split; intros ->; intuition discriminate.
  - repeat split; intros ->; intuition discriminate.
  - repeat split; intros ->; intuition discriminate.
  - repeat split; intros ->; intuition discriminate.
  - repeat split; intros ->; intuition discriminate.
Qed.

Lemma htmlEscape_output_is_inert_witness :
  "&"%char <> "<"%char /\ "&"%char <> ">"%char /\ "&"%char <> ascii_of_nat 34
  /\ "&"%char <> "'"%char.
Proof.
  apply (htmlEscape_output_is_inert "<b>Tom & Co</b>" "&"%char).
  simpl. auto.
Defined.

Lemma app_string_assoc (a b c : string) : ((a ++ b) ++ c = a ++ (b ++ c))%string.
Proof. induction a as [|x a IH]; simpl; auto. now rewrite IH. Qed.

(** X4.  Escaping goes character by character: it distributes over concatenation,
    and a text without any of the five characters comes out unchanged. *)
Theorem htmlEscape_app_and_plain (a b : string) :
  htmlEscape (a ++ b) = (htmlEscape a ++ htmlEscape b)%string
  /\ (forallb (fun c => negb (html_special c)) (list_ascii_of_string a) = true ->
      htmlEscape a = a).
Proof.
  split.
  - induction a as [|c a IH]; [reflexivity|].
    change (htmlEscape (String c (a ++ b)) = (htmlEscape (String c a) ++ htmlEscape b)%string).
    rewrite !htmlEscape_cons, IH. now rewrite app_string_assoc.
  - induction a as [|c a IH]; [reflexivity|].
    simpl list_ascii_of_string. simpl forallb. intros H.
    apply andb_true_iff in H as [Hc Ha]. apply negb_true_iff in Hc.
    rewrite htmlEscape_cons, (IH Ha).
    destruct (escape_char_cases c) as [[_ E]|[[-> _]|[[-> _]|[[-> _]|[[-> _]|[-> _]]]]]];
      try (vm_compute in Hc; discriminate Hc).
    now rewrite E.
Qed.

Lemma htmlEscape_app_and_plain_witness :
  htmlEscape ("Alice" ++ " <admin>")
  = (htmlEscape "Alice" ++ htmlEscape " <admin>")%string
  /\ (forallb (fun c => negb (html_special c)) (list_ascii_of_string "Alice") = true ->
      htmlEscape "Alice" = "Alice").
Proof. apply (htmlEscape_app_and_plain "Alice" " <admin>"). Defined.

Lemma escape_char_inj (c1 c2 : ascii) (x y : string) :
  (escape_char c1 ++ x)%string = (escape_char c2 ++ y)%string -> c1 = c2 /\ x = y.
Proof.
  destruct (escape_char_cases c1) as [[H1 E1]|[[-> E1]|[[-> E1]|[[-> E1]|[[-> E1]|[-> E1]]]]]];
    destruct (escape_char_cases c2) as [[H2 E2]|[[-> E2]|[[-> E2]|[[-> E2]|[[-> E2]|[-> E2]]]]]];
    rewrite ?E1, ?E2; simpl; intros E;
    try (injection E; intros; subst; try discriminate; auto; fail);
    try congruence.
Qed.

(** X5.  Escaping loses nothing: two different texts never escape to the same
    text. *)
Theorem htmlEscape_injective (s1 s2 : string) :
  htmlEscape s1 = htmlEscape s2 -> s1 = s2.
Proof.
  revert s2. induction s1 as [|c1 s1 IH]; intros [|c2 s2]; auto.
  - rewrite htmlEscape_cons. simpl.
    destruct (escape_char_cases c2) as [[_ E]|[[_ E]|[[_ E]|[[_ E]|[[_ E]|[_ E]]]]]];
      rewrite E; discriminate.
  - rewrite htmlEscape_cons. simpl.
    destruct (escape_char_cases c1) as [[_ E]|[[_ E]|[[_ E]|[[_ E]|[[_ E]|[_ E]]]]]];
      rewrite E; discriminate.
  - rewrite !htmlEscape_cons. intros E. apply escape_char_inj in E as [-> E].
    f_equal. now apply IH.
Qed.

Lemma htmlEscape_injective_witness : "a<b" = "a<b".
Proof. apply (htmlEscape_injective "a<b" "a<b"). reflexivity. Defined.

(** ** The zone name *)

(** [trim] takes the no-break space and the byte order mark off a zone name,
    as it takes blanks and line ends. *)
Example trim_strips_unicode_space :
  let nbsp := String (ascii_of_nat 194) (String (ascii_of_nat 160) EmptyString) in
  let bom := String (ascii_of_nat 239) (String (ascii_of_nat 187)
               (String (ascii_of_nat 191) EmptyString)) in
  trim (nbsp ++ " America/New_York " ++ bom) = "America/New_York"
  /\ trim (nbsp ++ bom) = ""
  /\ trim "New York" = "New York".
Proof. vm_compute. repeat split; reflexivity. Qed.

(** ** The slot pattern *)

Lemma in_range_bounds (lo hi : string) (c : ascii) (a b : ascii) :
  lo = String a EmptyString -> hi = String b EmptyString ->
  in_range lo hi c = true -> code a - 48 <= digit c <= code b - 48.
Proof.
  intros -> ->. unfold in_range, digit. rewrite andb_true_iff, !Z.leb_le. lia.
Qed.

Lemma eqb_digit (c d : ascii) : Ascii.eqb c d = true -> digit c = digit d.
Proof. intros H. apply Ascii.eqb_eq in H. now subst. Qed.

Lemma match_time_some (localTime : string) (hour minute : Z) :
  match_time localTime = Some (hour, minute) ->
  0 <= hour <= 23 /\ 0 <= minute <= 59
  /\ (String.length localTime = 4%nat \/ String.length localTime = 5%nat).
Proof.
  unfold match_time.
  destruct localTime as [|c1 [|c2 [|c3 [|c4 [|c5 [|c6 rest]]]]]];
    cbn [list_ascii_of_string String.length]; try (intros E0; discriminate E0).
  - match goal with |- (if ?c then _ else _) = _ -> _ => destruct c eqn:Hc end;
      [|intros E0; discriminate E0].
    intros E.
    assert (hour = digit c1 /\ minute = 10 * digit c3 + digit c4) as [-> ->]
      by (split; congruence).
    rewrite !andb_true_iff in Hc. destruct Hc as [[[H1 _] H3] H4].
    apply (in_range_bounds _ _ _ "0" "9" eq_refl eq_refl) in H1, H4.
    apply (in_range_bounds _ _ _ "0" "5" eq_refl eq_refl) in H3.
    change (code "0") with 48 in *. change (code "9") with 57 in *.
    change (code "5") with 53 in *. lia.
  - match goal with |- (if ?c then _ else _) = _ -> _ => destruct c eqn:Hc end;
      [|intros E0; discriminate E0].
    intros E.
    assert (hour = 10 * digit c1 + digit c2 /\ minute = 10 * digit c4 + digit c5) as [-> ->]
      by (split; congruence).
    rewrite !andb_true_iff in Hc. destruct Hc as [[[Hh _] H4] H5].
    apply (in_range_bounds _ _ _ "0" "5" eq_refl eq_refl) in H4.
    apply (in_range_bounds _ _ _ "0" "9" eq_refl eq_refl) in H5.
    change (code "0") with 48 in *. change (code "9") with 57 in *.
    change (code "5") with 53 in *.
    apply orb_true_iff in Hh as [Hh|Hh]; apply andb_true_iff in Hh as [Ha Hb].
    + apply (in_range_bounds _ _ _ "0" "1" eq_refl eq_refl) in Ha.
      apply (in_range_bounds _ _ _ "0" "9" eq_refl eq_refl) in Hb.
      change (code "0") with 48 in *. change (code "9") with 57 in *.
      change (code "1") with 49 in *. lia.
    + apply eqb_digit in Ha. change (digit "2") with 2 in Ha.
      apply (in_range_bounds _ _ _ "0" "3" eq_refl eq_refl) in Hb.
      change (code "0") with 48 in *. change (code "3") with 51 in *. lia.
Qed.

(** X6.  A slot that is accepted denotes an hour from 0 to 23 and a minute from 0 to
    59, and is written with four or five characters. *)
Theorem match_time_bounds (localTime : string) (hour minute : Z) :
  match_time localTime = Some (hour, minute) ->
  0 <= hour <= 23 /\ 0 <= minute <= 59
  /\ (String.length localTime = 4%nat \/ String.length localTime = 5%nat).
Proof. apply match_time_some. Qed.

Lemma match_time_bounds_witness :
  0 <= 23 <= 23 /\ 0 <= 59 <= 59
  /\ (String.length "23:59" = 4%nat \/ String.length "23:59" = 5%nat).
Proof. apply (match_time_bounds "23:59" 23 59). reflexivity. Defined.

(** X7.  The leading zero of the hour is optional: a slot written with four
    characters and the same slot with a zero in front denote the same time,
    so that two different texts can configure one slot. *)
Theorem match_time_leading_zero (localTime : string) (hour minute : Z) :
  match_time localTime = Some (hour, minute) ->
  String.length localTime = 4%nat ->
  match_time (String "0" localTime) = Some (hour, minute).
Proof.
  unfold match_time.
  destruct localTime as [|c1 [|c2 [|c3 [|c4 [|c5 rest]]]]];
    cbn [list_ascii_of_string String.length]; try (intros E0; discriminate E0).
  - match goal with |- (if ?c then _ else _) = _ -> _ => destruct c eqn:Hc end;
      [|intros E0; discriminate E0].
    intros E _.
    assert (hour = digit c1 /\ minute = 10 * digit c3 + digit c4) as [-> ->]
      by (split; congruence).
    rewrite !andb_true_iff in Hc. destruct Hc as [[[H1 H2] H3] H4].
    change (in_range "0" "1" "0") with true. rewrite H1, H2, H3, H4.
    change (digit "0") with 0. reflexivity.
  - intros _ E0. discriminate E0.
Qed.

Lemma match_time_leading_zero_witness : match_time "09:00" = Some (9, 0).
Proof. apply (match_time_leading_zero "9:00" 9 0); reflexivity. Defined.

(** ** The resolved instant on the wall clock *)

Lemma day_and_time_of_day (day t : Z) :
  0 <= t < MS_PER_DAY ->
  (day * MS_PER_DAY + t) / MS_PER_DAY = day /\ (day * MS_PER_DAY + t) mod MS_PER_DAY = t.
Proof.
  change MS_PER_DAY with 86400000. intros Ht.
  pose proof (Z.div_mod (day * 86400000 + t) 86400000 ltac:(lia)) as E.
  pose proof (Z.mod_pos_bound (day * 86400000 + t) 86400000 ltac:(lia)) as B.
  assert ((day * 86400000 + t) / 86400000 = day) by nia.
  split; auto. lia.
Qed.

(** X8.  When one of the two offsets that [fixOffset] tries is the one in force at
    the instant it leads to (the slot does not fall into a gap of the zone's
    wall clock), the slot resolves, and at the resolved instant the zone's
    wall clock shows the calendar day of the clock reading and exactly the
    hour and minute of the slot. *)
Theorem parse_shows_slot_on_wall_clock
        (env : Env) (localTime tz : string) (z : zone) (hour minute : Z) :
  match_time localTime = Some (hour, minute) ->
  tzdb env (if String.eqb tz "" then "UTC" else tz) = Some z ->
  let localTS := local_day z (now env) * MS_PER_DAY
                 + hour * MS_PER_HOUR + minute * MS_PER_MINUTE in
  let guess := localTS - z (now env) * MS_PER_MINUTE in
  z guess = z (now env) \/ z (localTS - z guess * MS_PER_MINUTE) = z guess ->
  exists r,
    parseTimeToUTCISO env localTime tz = Some r
    /\ local_day z r = local_day z (now env)
    /\ (r + z r * MS_PER_MINUTE) mod MS_PER_DAY = hour * MS_PER_HOUR + minute * MS_PER_MINUTE.
Proof.
  intros Hm Hz localTS guess Hfit.
  apply match_time_some in Hm as Hb. destruct Hb as (Hh & Hmin & _).
  assert (Ht : 0 <= hour * MS_PER_HOUR + minute * MS_PER_MINUTE < MS_PER_DAY).
  { change MS_PER_HOUR with 3600000. change MS_PER_MINUTE with 60000.
    change MS_PER_DAY with 86400000. lia. }
  destruct (day_and_time_of_day (local_day z (now env)) _ Ht) as [Hday Htod].
  rewrite Z.add_assoc in Hday, Htod. fold localTS in Hday, Htod.
  assert (Hgoal : forall r, r + z r * MS_PER_MINUTE = localTS ->
                            local_day z r = local_day z (now env)
                            /\ (r + z r * MS_PER_MINUTE) mod MS_PER_DAY
                               = hour * MS_PER_HOUR + minute * MS_PER_MINUTE).
  { intros r Hr. unfold local_day at 1. rewrite Hr. auto. }
  unfold parseTimeToUTCISO. rewrite Hm, Hz. fold localTS. unfold fixOffset. fold guess.
  destruct (Z.eqb_spec (z (now env)) (z guess)) as [Heq|Hne].
  - eexists. split; [reflexivity|]. cbn [fst]. apply Hgoal. rewrite <- Heq.
    unfold guess. lia.
  - destruct Hfit as [Hfit|Hfit]; [congruence|].
    assert (Hg2 : guess - (z guess - z (now env)) * MS_PER_MINUTE
                  = localTS - z guess * MS_PER_MINUTE) by (unfold guess; lia).
    rewrite Hg2, Hfit, Z.eqb_refl.
    eexists. split; [reflexivity|]. cbn [fst]. apply Hgoal. rewrite Hfit. lia.
Qed.

Lemma parse_shows_slot_on_wall_clock_witness :
  exists r,
    parseTimeToUTCISO (sample_env noon_2024_06_10) "17:30" "America/New_York" = Some r
    /\ local_day new_york_2024 r = local_day new_york_2024 noon_2024_06_10
    /\ (r + new_york_2024 r * MS_PER_MINUTE) mod MS_PER_DAY
       = 17 * MS_PER_HOUR + 30 * MS_PER_MINUTE.
Proof.
  apply (parse_shows_slot_on_wall_clock (sample_env noon_2024_06_10) "17:30"
           "America/New_York" new_york_2024 17 30).
  - reflexivity.
  - reflexivity.
  - left. reflexivity.
Defined.

(** On 2024-03-10 the New York wall clock jumps from 02:00 to 03:00: the slot
    02:30 does not exist that day and resolves to 07:30 UTC, when the wall
    clock shows 03:30. *)
Example slot_in_the_gap :
  parseTimeToUTCISO (sample_env 1710072000000) "02:30" "America/New_York"
  = Some 1710055800000
  /\ (1710055800000 + new_york_2024 1710055800000 * MS_PER_MINUTE) mod MS_PER_DAY
     = 3 * MS_PER_HOUR + 30 * MS_PER_MINUTE.
Proof. split; reflexivity. Qed.

(** ** The rows the ensure loop adds *)

Lemma fresh_row_of_incl (ks ks' : list (string * Z)) (l : list nudge) :
  incl ks ks' -> Forall (fresh_row_of ks) l -> Forall (fresh_row_of ks') l.
Proof.
  intros Hi. apply Forall_impl. intros r (A & B & C & D & E). repeat split; auto.
Qed.

Lemma step_job_adds (db : DB) (j : NudgesCron.job) :
  exists l, nudges (fst (NudgesCron.step_job db j)) = nudges db ++ l
            /\ Forall (fresh_row_of [job_key j]) l
            /\ job_key (snd (NudgesCron.step_job db j)) = job_key j.
Proof.
  unfold NudgesCron.step_job. destruct (NudgesCron.j_phase j); simpl.
  - exists []. rewrite app_nil_r. auto.
  - eexists. split; [reflexivity|]. split; [|reflexivity].
    constructor; [|constructor]. repeat split; simpl; auto.
  - exists []. rewrite app_nil_r. auto.
Qed.

Lemma step_at_adds (i : nat) (js : list NudgesCron.job) (db : DB) :
  exists l, nudges (fst (NudgesCron.step_at i js db)) = nudges db ++ l
            /\ Forall (fresh_row_of (map job_key js)) l
            /\ map job_key (snd (NudgesCron.step_at i js db)) = map job_key js.
Proof.
  revert i. induction js as [|j js IH]; intros i; simpl.
  - exists []. rewrite app_nil_r. auto.
  - destruct i as [|i].
    + destruct (step_job_adds db j) as (l & Hl & Hf & Hk).
      destruct (NudgesCron.step_job db j) as [db1 j1]. simpl in *.
      exists l. split; auto. split; [|now rewrite Hk].
      eapply fresh_row_of_incl; [|exact Hf]. intros k [<-|[]]. now left.
    + destruct (IH i) as (l & Hl & Hf & Hk).
      destruct (NudgesCron.step_at i js db) as [db1 js1]. simpl in *.
      exists l. split; auto. split; [|now rewrite Hk].
      eapply fresh_row_of_incl; [|exact Hf]. intros k Hin. now right.
Qed.

Lemma run_adds (sched : list nat) (js : list NudgesCron.job) (db : DB) :
  exists l, nudges (fst (NudgesCron.run sched (db, js))) = nudges db ++ l
            /\ Forall (fresh_row_of (map job_key js)) l
            /\ map job_key (snd (NudgesCron.run sched (db, js))) = map job_key js.
Proof.
  unfold NudgesCron.run. revert js db.
  induction sched as [|i sched IH]; intros js db; simpl.
  - exists []. rewrite app_nil_r. auto.
  - destruct (step_at_adds i js db) as (l1 & H1 & F1 & K1).
    destruct (NudgesCron.step_at i js db) as [db1 js1]. simpl in *.
    destruct (IH js1 db1) as (l2 & H2 & F2 & K2). exists (l1 ++ l2).
    split; [now rewrite H2, H1, app_assoc|]. split; [|congruence].
    apply Forall_app. split; auto. now rewrite <- K1.
Qed.

Lemma drain_adds (js : list NudgesCron.job) (db : DB) :
  exists l, nudges (fst (NudgesCron.drain js db)) = nudges db ++ l
            /\ Forall (fresh_row_of (map job_key js)) l.
Proof.
  revert db. induction js as [|j js IH]; intros db; simpl.
  - exists []. rewrite app_nil_r. auto.
  - destruct (step_job_adds db j) as (l1 & H1 & F1 & K1).
    destruct (NudgesCron.step_job db j) as [db1 j1]. simpl in *.
    destruct (step_job_adds db1 j1) as (l2 & H2 & F2 & K2).
    destruct (NudgesCron.step_job db1 j1) as [db2 j2]. simpl in *.
    destruct (IH db2) as (l3 & H3 & F3).
    destruct (NudgesCron.drain js db2) as [db3 js3]. simpl in *.
    exists (l1 ++ l2 ++ l3). split; [now rewrite H3, H2, H1, !app_assoc|].
    rewrite K1 in F2.
    repeat (apply Forall_app; split).
    + eapply fresh_row_of_incl; [|exact F1]. intros k [<-|[]]. now left.
    + eapply fresh_row_of_incl; [|exact F2]. intros k [<-|[]]. now left.
    + eapply fresh_row_of_incl; [|exact F3]. intros k Hin. now right.
Qed.

Lemma job_of_profile env configs p u a :
  In (u, a) (map job_key (NudgesCron.jobs_of_profile env configs p)) ->
  u = p_id p
  /\ (forall c, NudgesCron.confByUser configs (p_id p) = Some c -> nc_enabled c = true)
  /\ exists t, In t (times_of configs p)
               /\ parseTimeToUTCISO env t (timezone_of configs p) = Some a.
Proof.
  unfold NudgesCron.jobs_of_profile, times_of, timezone_of.
  destruct (NudgesCron.confByUser configs (p_id p)) as [c|].
  - destruct (nc_enabled c) eqn:En; cbn [negb]; cbv iota; [|intros []].
    intros Hin. apply in_map_iff in Hin as (j & Hk & Hin).
    apply in_flat_map in Hin as (t & Ht & Hj).
    destruct (parseTimeToUTCISO env t _) as [at_|] eqn:Ep; [|destruct Hj].
    destruct Hj as [<-|[]]. injection Hk as <- <-.
    split; [reflexivity|]. split; [intros c' E; congruence|].
    exists t. split; [exact Ht|exact Ep].
  - cbv iota. intros Hin. apply in_map_iff in Hin as (j & Hk & Hin).
    apply in_flat_map in Hin as (t & Ht & Hj).
    destruct (parseTimeToUTCISO env t _) as [at_|] eqn:Ep; [|destruct Hj].
    destruct Hj as [<-|[]]. injection Hk as <- <-.
    split; [reflexivity|]. split; [intros c' E; discriminate|].
    exists t. split; [exact Ht|exact Ep].
Qed.

(** X10.  Whatever the order in which the store serves the requests, the ensure
    loop only appends rows, and every row it appends is a blank [scheduled]
    one (not sent, not acknowledged, no payload) for a profile of the store
    whose configuration, if there is one, is enabled, at an instant that one
    of the profile's slots (the three default slots without a configuration)
    resolves to in the profile's own zone (the configured zone trimmed, UTC
    when it is empty or there is no configuration): a user who switched
    nudges off, a slot that does not resolve and a zone that is not known
    get no row. *)
Theorem ensure_adds_only_configured_slots (env : Env) (sched : list nat) (db : DB) :
  exists new_rows,
    nudges (NudgesCron.ensureToday env sched db) = nudges db ++ new_rows
    /\ forall r, In r new_rows ->
         n_status r = scheduled /\ n_sent_at r = None /\ n_acknowledged_at r = None
         /\ n_payload r = None
         /\ exists p, In p (profiles db) /\ n_user_id r = p_id p
              /\ (forall c, NudgesCron.confByUser (nudge_configs db) (p_id p) = Some c ->
                            nc_enabled c = true)
              /\ exists t, In t (times_of (nudge_configs db) p)
                           /\ parseTimeToUTCISO env t (timezone_of (nudge_configs db) p)
                              = Some (n_scheduled_at r).
Proof.
  unfold NudgesCron.ensureToday, NudgesCron.settle.
  destruct (run_adds sched (NudgesCron.ensure_jobs env db) db) as (l1 & H1 & F1 & K1).
  destruct (NudgesCron.run sched (db, NudgesCron.ensure_jobs env db)) as [db1 js1].
  simpl in *.
  destruct (drain_adds js1 db1) as (l2 & H2 & F2). rewrite K1 in F2.
  exists (l1 ++ l2). split; [now rewrite H2, H1, app_assoc|].
  intros r Hr.
  assert (Hf : fresh_row_of (map job_key (NudgesCron.ensure_jobs env db)) r).
  { apply in_app_or in Hr as [Hr|Hr]; [revert r Hr|revert r Hr]; now apply Forall_forall. }
  destruct Hf as (A & B & C & D & Hkey). repeat (split; [assumption|]).
  unfold NudgesCron.ensure_jobs in Hkey.
  apply in_map_iff in Hkey as (j & Hk & Hin).
  apply in_flat_map in Hin as (p & Hp & Hj).
  assert (Hkey : In (n_user_id r, n_scheduled_at r)
                    (map job_key (NudgesCron.jobs_of_profile env (nudge_configs db) p))).
  { rewrite <- Hk. now apply in_map. }
  apply job_of_profile in Hkey as (Hu & Hen & Hslot).
  exists p. auto.
Qed.

(** ** Slots in UTC and the default configuration *)

Lemma parse_in_utc (env : Env) (localTime : string) (hour minute : Z) :
  match_time localTime = Some (hour, minute) ->
  tzdb env "UTC" = Some utc_zone ->
  parseTimeToUTCISO env localTime "UTC"
  = Some (utc_day (now env) * MS_PER_DAY + hour * MS_PER_HOUR + minute * MS_PER_MINUTE).
Proof.
  intros Hm Hz. unfold parseTimeToUTCISO. rewrite Hm. cbn [String.eqb Ascii.eqb Bool.eqb].
  rewrite Hz. unfold fixOffset, local_day, utc_zone, utc_day. cbn [Z.eqb fst].
  f_equal. change MS_PER_MINUTE with 60000. change MS_PER_DAY with 86400000.
  rewrite Z.mul_0_l, Z.add_0_r. lia.
Qed.

(** X9.  A profile with no configuration row is nudged at the three default
    slots, read in UTC: the closures created for it are for 09:00, 13:00 and
    17:00 UTC of the UTC day of the run, in this order. *)
Theorem no_config_means_default_slots_in_utc
        (env : Env) (configs : list nudge_config) (p : profile) :
  NudgesCron.confByUser configs (p_id p) = None ->
  tzdb env "UTC" = Some utc_zone ->
  let midnight := utc_day (now env) * MS_PER_DAY in
  NudgesCron.jobs_of_profile env configs p
  = [NudgesCron.mkJob (p_id p) (midnight + 9 * MS_PER_HOUR) NudgesCron.Selecting;
     NudgesCron.mkJob (p_id p) (midnight + 13 * MS_PER_HOUR) NudgesCron.Selecting;
     NudgesCron.mkJob (p_id p) (midnight + 17 * MS_PER_HOUR) NudgesCron.Selecting].
Proof.
  intros Hc Hz midnight. unfold NudgesCron.jobs_of_profile. rewrite Hc.
  unfold NudgesCron.default_times, or_else.
  cbn [String.eqb flat_map app].
  rewrite (parse_in_utc env "09:00" 9 0 eq_refl Hz).
  rewrite (parse_in_utc env "13:00" 13 0 eq_refl Hz).
  rewrite (parse_in_utc env "17:00" 17 0 eq_refl Hz).
  assert (E : forall a h, a + h * MS_PER_HOUR + 0 * MS_PER_MINUTE = a + h * MS_PER_HOUR)
    by (intros; lia).
  rewrite !E. reflexivity.
Qed.

Lemma no_config_means_default_slots_in_utc_witness :
  let env := sample_env noon_2024_06_10 in
  let midnight := utc_day (now env) * MS_PER_DAY in
  NudgesCron.jobs_of_profile env [] alice
  = [NudgesCron.mkJob "u-alice" (midnight + 9 * MS_PER_HOUR) NudgesCron.Selecting;
     NudgesCron.mkJob "u-alice" (midnight + 13 * MS_PER_HOUR) NudgesCron.Selecting;
     NudgesCron.mkJob "u-alice" (midnight + 17 * MS_PER_HOUR) NudgesCron.Selecting].
Proof.
  intros env.
  apply (no_config_means_default_slots_in_utc env [] alice); reflexivity.
Defined.

(** ** The ensure loop, one closure at a time *)

Section SerialEnsure.
Import NudgesCron.

(** A closure whose query and insert are served back to back. *)
Lemma check_then_insert db j :
  j_phase j = Selecting ->
  unique_slots db ->
  let db2 := fst (step_job (fst (step_job db j)) (snd (step_job db j))) in
  unique_slots db2
  /\ cnt (slot_is (j_user j) (j_at j)) (nudges db2) = 1%nat
  /\ (forall u a, cnt (slot_is u a) (nudges db) = 1%nat -> cnt (slot_is u a) (nudges db2) = 1%nat).
Proof.
  intros Hph Hu. unfold step_job at 2 3. rewrite Hph. cbn [fst snd].
  pose proof (Hu (j_user j) (j_at j)) as Hj.
  destruct (exists_ db (j_user j) (j_at j)) eqn:Hex; unfold step_job; cbn [j_phase fst snd].
  - rewrite exists_cnt in Hex. apply Nat.eqb_eq in Hex. auto.
  - rewrite exists_cnt in Hex. apply Nat.eqb_neq in Hex.
    assert (H0 : cnt (slot_is (j_user j) (j_at j)) (nudges db) = 0%nat) by lia.
    cbn [j_user j_at].
    assert (Hother : forall u a, (u, a) <> (j_user j, j_at j) ->
              cnt (slot_is u a) (nudges (insert_scheduled db (j_user j) (j_at j)))
              = cnt (slot_is u a) (nudges db)).
    { intros u a Hne. rewrite cnt_insert.
      destruct (slot_is u a (j_user j) (j_at j)) eqn:E; [|lia].
      apply (slot_is_key (u, a) (j_user j, j_at j)) in E. congruence. }
    assert (Hself : cnt (slot_is (j_user j) (j_at j))
                        (nudges (insert_scheduled db (j_user j) (j_at j))) = 1%nat).
    { rewrite cnt_insert, H0.
      replace (slot_is (j_user j) (j_at j) (j_user j) (j_at j)) with true; auto.
      symmetry. now apply (slot_is_key (j_user j, j_at j) (j_user j, j_at j)). }
    split; [|split; auto].
    + intros u a. destruct (key_eq_dec (u, a) (j_user j, j_at j)) as [E|Hne].
      * injection E as -> ->. lia.
      * rewrite Hother; auto.
    + intros u a H1. destruct (key_eq_dec (u, a) (j_user j, j_at j)) as [E|Hne].
      * injection E as -> ->. lia.
      * rewrite Hother; auto.
Qed.

Lemma drain_serial js : forall db,
  pristine js -> unique_slots db ->
  unique_slots (fst (drain js db))
  /\ (forall u a, cnt (slot_is u a) (nudges db) = 1%nat ->
                  cnt (slot_is u a) (nudges (fst (drain js db))) = 1%nat)
  /\ (forall j, In j js -> cnt (slot_is (j_user j) (j_at j)) (nudges (fst (drain js db))) = 1%nat).
Proof.
  induction js as [|j js IH]; intros db Hp Hu; simpl.
  - repeat split; auto. intros j [].
  - assert (Hph : j_phase j = Selecting) by (apply Hp; now left).
    destruct (check_then_insert db j Hph Hu) as (Hu2 & Hj2 & Hkeep2).
    destruct (step_job db j) as [db1 j1]. cbn [fst snd] in *.
    destruct (step_job db1 j1) as [db2 j2]. cbn [fst snd] in *.
    assert (Hp' : pristine js) by (intros j' Hj'; apply Hp; now right).
    destruct (IH db2 Hp' Hu2) as (Hu3 & Hkeep3 & Hall3).
    destruct (drain js db2) as [db3 js3]. cbn [fst snd] in *.
    repeat split; auto.
    intros j' [<-|Hj']; auto.
Qed.

End SerialEnsure.

(** X11.  When the store serves the query and the insert of each closure back to
    back (the empty schedule), the ensure loop keeps at most one nudge per
    (user, scheduled_at) also for a slot that is configured twice, and leaves
    exactly one nudge for every slot that resolved. *)
Theorem serial_ensure_never_duplicates (env : Env) (db : DB) :
  unique_slots db ->
  unique_slots (NudgesCron.ensureToday env [] db)
  /\ forall j, In j (NudgesCron.ensure_jobs env db) ->
               cnt (slot_is (NudgesCron.j_user j) (NudgesCron.j_at j))
                   (nudges (NudgesCron.ensureToday env [] db)) = 1%nat.
Proof.
  intros Hu. unfold NudgesCron.ensureToday, NudgesCron.settle. simpl.
  destruct (drain_serial (NudgesCron.ensure_jobs env db) db (ensure_jobs_pristine env db) Hu)
    as (H1 & _ & H3).
  auto.
Qed.

Lemma serial_ensure_never_duplicates_witness :
  unique_slots (NudgesCron.ensureToday (sample_env noon_2024_06_10) [] carol_db)
  /\ forall j, In j (NudgesCron.ensure_jobs (sample_env noon_2024_06_10) carol_db) ->
               cnt (slot_is (NudgesCron.j_user j) (NudgesCron.j_at j))
                   (nudges (NudgesCron.ensureToday (sample_env noon_2024_06_10) [] carol_db))
               = 1%nat.
Proof.
  apply (serial_ensure_never_duplicates (sample_env noon_2024_06_10) carol_db).
  intros u a. unfold cnt. simpl. lia.
Defined.

(** ** What the nudge handler leaves alone *)

Lemma same_other_tables_refl db : same_other_tables db db.
Proof. repeat split. Qed.

Lemma same_other_tables_trans db1 db2 db3 :
  same_other_tables db1 db2 -> same_other_tables db2 db3 -> same_other_tables db1 db3.
Proof.
  intros (A1 & A2 & A3 & A4) (B1 & B2 & B3 & B4). repeat split; congruence.
Qed.

Lemma step_job_frame db j :
  same_other_tables db (fst (NudgesCron.step_job db j))
  /\ (NoDup (map n_id (nudges db)) ->
      NoDup (map n_id (nudges (fst (NudgesCron.step_job db j))))).
Proof.
  unfold NudgesCron.step_job. destruct (NudgesCron.j_phase j); simpl.
  - split; [apply same_other_tables_refl|auto].
  - split; [repeat split|]. intros Hnd. rewrite map_app. simpl.
    apply NoDup_snoc; auto. apply gen_random_uuid_fresh.
  - split; [apply same_other_tables_refl|auto].
Qed.

Lemma step_at_frame i js db :
  same_other_tables db (fst (NudgesCron.step_at i js db))
  /\ (NoDup (map n_id (nudges db)) ->
      NoDup (map n_id (nudges (fst (NudgesCron.step_at i js db))))).
Proof.
  revert i. induction js as [|j js IH]; intros i; simpl.
  - split; [apply same_other_tables_refl|auto].
  - destruct i as [|i].
    + pose proof (step_job_frame db j) as H. destruct (NudgesCron.step_job db j). exact H.
    + pose proof (IH i) as H. destruct (NudgesCron.step_at i js db). exact H.
Qed.

Lemma run_frame sched js db :
  same_other_tables db (fst (NudgesCron.run sched (db, js)))
  /\ (NoDup (map n_id (nudges db)) ->
      NoDup (map n_id (nudges (fst (NudgesCron.run sched (db, js)))))).
Proof.
  unfold NudgesCron.run. revert js db.
  induction sched as [|i sched IH]; intros js db; simpl.
  - split; [apply same_other_tables_refl|auto].
  - pose proof (step_at_frame i js db) as [F1 N1].
    destruct (NudgesCron.step_at i js db) as [db1 js1]. simpl in *.
    destruct (IH js1 db1) as [F2 N2]. split; auto.
    eapply same_other_tables_trans; eauto.
Qed.

Lemma drain_frame js db :
  same_other_tables db (fst (NudgesCron.drain js db))
  /\ (NoDup (map n_id (nudges db)) ->
      NoDup (map n_id (nudges (fst (NudgesCron.drain js db))))).
Proof.
  revert db. induction js as [|j js IH]; intros db; simpl.
  - split; [apply same_other_tables_refl|auto].
  - pose proof (step_job_frame db j) as [F1 N1].
    destruct (NudgesCron.step_job db j) as [db1 j1]. simpl in *.
    pose proof (step_job_frame db1 j1) as [F2 N2].
    destruct (NudgesCron.step_job db1 j1) as [db2 j2]. simpl in *.
    destruct (IH db2) as [F3 N3].
    destruct (NudgesCron.drain js db2) as [db3 js3]. simpl in *.
    split; auto.
    eapply same_other_tables_trans; [|exact F3].
    eapply same_other_tables_trans; eauto.
Qed.

Lemma ensureToday_frame env sched db :
  same_other_tables db (NudgesCron.ensureToday env sched db)
  /\ (NoDup (map n_id (nudges db)) ->
      NoDup (map n_id (nudges (NudgesCron.ensureToday env sched db))))
  /\ exists l, nudges (NudgesCron.ensureToday env sched db) = nudges db ++ l.
Proof.
  unfold NudgesCron.ensureToday, NudgesCron.settle.
  pose proof (run_frame sched (NudgesCron.ensure_jobs env db) db) as [F1 N1].
  destruct (run_appends sched (NudgesCron.ensure_jobs env db) db) as [l1 A1].
  destruct (NudgesCron.run sched (db, NudgesCron.ensure_jobs env db)) as [db1 js1].
  simpl in *.
  destruct (drain_frame js1 db1) as [F2 N2].
  destruct (drain_appends js1 db1) as [l2 A2].
  split; [eapply same_other_tables_trans; eauto|]. split; auto.
  exists (l1 ++ l2). now rewrite A2, A1, app_assoc.
Qed.

Lemma dispatch_one_kept env origin profs st n :
  map kept_columns (nudges (fst (NudgesCron.dispatch_one env origin profs st n)))
  = map kept_columns (nudges (fst st))
  /\ same_other_tables (fst st) (fst (NudgesCron.dispatch_one env origin profs st n)).
Proof.
  destruct st as [db c]. unfold NudgesCron.dispatch_one.
  repeat match goal with |- context [if ?b then _ else _] => destruct b end;
    simpl; (split; [|repeat split]); rewrite map_map; apply map_ext; intros r;
    destruct (Nat.eqb (n_id r) (n_id n)); reflexivity.
Qed.

Lemma dispatch_fold_kept env origin profs l st :
  map kept_columns (nudges (fst (fold_left (NudgesCron.dispatch_one env origin profs) l st)))
  = map kept_columns (nudges (fst st))
  /\ same_other_tables (fst st) (fst (fold_left (NudgesCron.dispatch_one env origin profs) l st)).
Proof.
  revert st. induction l as [|n l IH]; intros st; simpl.
  - split; [reflexivity|apply same_other_tables_refl].
  - destruct (IH (NudgesCron.dispatch_one env origin profs st n)) as [K F].
    destruct (dispatch_one_kept env origin profs st n) as [K1 F1].
    split; [congruence|]. eapply same_other_tables_trans; eauto.
Qed.

(** X12.  The nudge handler keeps the history: whatever the schedule and the
    transport, every nudge that was in the store is still there, in its
    place, with its id, owner, scheduled instant and acknowledgement as they
    were; new rows come after; and profiles, configurations, tasks and
    reports are not written. *)
Theorem nudges_GET_keeps_history (env : Env) (origin : string) (sched : list nat) (db : DB) :
  let db' := fst (NudgesCron.GET env origin sched db) in
  (exists l, map kept_columns (nudges db') = map kept_columns (nudges db) ++ l)
  /\ same_other_tables db db'.
Proof.
  unfold NudgesCron.GET, NudgesCron.dispatch.
  destruct (ensureToday_frame env sched db) as (F1 & _ & [l A1]).
  destruct (dispatch_fold_kept env origin (profiles db)
              (NudgesCron.dueNudges (NudgesCron.ensureToday env sched db) (now env))
              (NudgesCron.ensureToday env sched db, O)) as [K F2].
  destruct (fold_left _ _ _) as [db2 c]. simpl in *.
  split.
  - exists (map kept_columns l). now rewrite K, A1, map_app.
  - eapply same_other_tables_trans; eauto.
Qed.

(** ** Deliveries *)

Lemma dispatch_one_count env origin profs db c n :
  snd (NudgesCron.dispatch_one env origin profs (db, c) n)
  = ((if deliverable env origin profs db n then 1 else 0) + c)%nat.
Proof.
  unfold NudgesCron.dispatch_one, deliverable.
  destruct (negb (NudgesCron.email_of profs (n_user_id n) =? "")%string); simpl; auto.
  destruct (sendEmail env _); reflexivity.
Qed.

Lemma deliverable_tasks env origin profs db db' n :
  tasks db' = tasks db ->
  deliverable env origin profs db' n = deliverable env origin profs db n.
Proof. intros E. unfold deliverable. now rewrite E. Qed.

Lemma dispatch_fold_count env origin profs db0 l st :
  tasks (fst st) = tasks db0 ->
  snd (fold_left (NudgesCron.dispatch_one env origin profs) l st)
  = (snd st + length (filter (deliverable env origin profs db0) l))%nat.
Proof.
  revert st. induction l as [|n l IH]; intros st Ht; simpl.
  - lia.
  - rewrite IH by (now rewrite dispatch_one_tasks).
    destruct st as [db c]. rewrite dispatch_one_count. simpl in Ht.
    rewrite (deliverable_tasks env origin profs db0 db n Ht).
    destruct (deliverable env origin profs db0 n); simpl; lia.
Qed.

(** X13.  [nudges_sent] in the answer of the handler is the number of due nudges
    whose owner has an address and whose mail the transport took; it never
    exceeds the number of due nudges. *)
Theorem nudges_sent_counts_deliveries (env : Env) (origin : string)
        (profs : list profile) (db : DB) :
  snd (NudgesCron.dispatch env origin profs db)
  = length (filter (deliverable env origin profs db) (NudgesCron.dueNudges db (now env)))
  /\ (snd (NudgesCron.dispatch env origin profs db)
      <= length (NudgesCron.dueNudges db (now env)))%nat.
Proof.
  assert (E : snd (NudgesCron.dispatch env origin profs db)
              = length (filter (deliverable env origin profs db)
                               (NudgesCron.dueNudges db (now env)))).
  { unfold NudgesCron.dispatch.
    now rewrite (dispatch_fold_count env origin profs db) by reflexivity. }
  split; [exact E|]. rewrite E. apply filter_length_le.
Qed.

(** X14.  A due nudge whose owner has an address and whose mail the transport takes
    ends the dispatch with status [sent], [sent_at] the time of the run and
    the snapshot of its owner's tasks as payload; it is the only row with its
    id, no later due query returns it, and no later run of the handler finds
    a due row with its id. *)
Theorem delivered_nudge_is_sent_once (env : Env) (origin : string) (db : DB) (n : nudge) :
  NoDup (map n_id (nudges db)) ->
  In n (NudgesCron.dueNudges db (now env)) ->
  deliverable env origin (profiles db) db n = true ->
  let db' := fst (NudgesCron.dispatch env origin (profiles db) db) in
  let mine := filter (fun t => String.eqb (t_owner_id t) (n_user_id n)) (tasks db) in
  exists r,
    In r (nudges db') /\ kept_columns r = kept_columns n
    /\ n_status r = sent /\ n_sent_at r = Some (now env)
    /\ n_payload r = Some (NudgesCron.snapshot env mine)
    /\ (forall r', In r' (nudges db') -> n_id r' = n_id n -> r' = r)
    /\ (forall env2 sched r',
          In r' (NudgesCron.dueNudges (NudgesCron.ensureToday env2 sched db') (now env2)) ->
          n_id r' <> n_id n).
Proof.
  intros Hnd Hdue Hok db' mine.
  assert (Hin : In n (nudges db)).
  { unfold NudgesCron.dueNudges in Hdue. now apply filter_In in Hdue. }
  assert (Hnd_due : NoDup (map n_id (NudgesCron.dueNudges db (now env)))).
  { now apply NoDup_map_filter. }
  destruct (in_split _ _ Hdue) as (before & after & Hsplit).
  rewrite Hsplit, map_app in Hnd_due. simpl in Hnd_due.
  assert (Hother : forall n', In n' (before ++ after) -> n_id n' <> n_id n).
  { intros n' Hn' Heq. apply NoDup_remove_2 in Hnd_due. apply Hnd_due.
    rewrite <- map_app, <- Heq. now apply in_map. }
  set (step := NudgesCron.dispatch_one env origin (profiles db)) in *.
  set (st1 := fold_left step before (db, O)).
  assert (Hin1 : In n (nudges (fst st1))).
  { apply dispatch_fold_keeps; auto. intros n' Hn'. apply Hother, in_or_app. now left. }
  assert (Htasks1 : tasks (fst st1) = tasks db).
  { unfold st1, step. now rewrite dispatch_fold_tasks. }
  set (r := NudgesCron.mark_sent (now env) (NudgesCron.snapshot env mine) n).
  assert (Hstep : fst (step st1 n)
                  = NudgesCron.update_nudge
                      (NudgesCron.mark_sent (now env) (NudgesCron.snapshot env mine))
                      (n_id n) (fst st1)).
  { unfold step, NudgesCron.dispatch_one. destruct st1 as [db1 c1]. simpl in *.
    rewrite Htasks1. unfold deliverable in Hok. apply andb_true_iff in Hok as [Ha Hs].
    fold mine in Hs |- *. now rewrite Ha, Hs. }
  assert (Hfinal : In r (nudges db')).
  { unfold db', NudgesCron.dispatch. rewrite Hsplit, fold_left_app. simpl.
    apply dispatch_fold_keeps.
    - change (In r (nudges (fst (step st1 n)))).
      rewrite Hstep. unfold NudgesCron.update_nudge. simpl.
      apply in_map_iff. exists n. rewrite Nat.eqb_refl. auto.
    - intros n' Hn'. apply Hother, in_or_app. now right. }
  assert (Hids : map n_id (nudges db') = map n_id (nudges db)).
  { unfold db', NudgesCron.dispatch. now rewrite dispatch_fold_ids. }
  exists r. split; [exact Hfinal|]. repeat (split; [reflexivity|]). split.
  - intros r' Hr' Heq.
    apply (NoDup_ids_inj n_id (nudges db')); auto. now rewrite Hids.
  - intros env2 sched r' Hr' Heq.
    unfold NudgesCron.dueNudges in Hr'. apply filter_In in Hr' as [Hr' Hisdue].
    destruct (ensureToday_frame env2 sched db') as (_ & Hnd2 & [l Happ]).
    assert (r' = r) as ->.
    { apply (NoDup_ids_inj n_id (nudges (NudgesCron.ensureToday env2 sched db'))); auto.
      - apply Hnd2. now rewrite Hids.
      - rewrite Happ. apply in_or_app. now left. }
    unfold NudgesCron.is_due in Hisdue. simpl in Hisdue.
    now rewrite andb_false_r in Hisdue.
Qed.

Lemma delivered_nudge_is_sent_once_witness :
  let env := sample_env (noon_2024_06_10 + MS_PER_HOUR) in
  let db' := fst (NudgesCron.dispatch env "https://flow.test" (profiles sample_db) sample_db) in
  exists r,
    In r (nudges db') /\ n_id r = 2%nat /\ n_status r = sent
    /\ n_sent_at r = Some (noon_2024_06_10 + MS_PER_HOUR).
Proof.
  intros env db'.
  destruct (delivered_nudge_is_sent_once env "https://flow.test" sample_db
              (nth 1 (nudges sample_db) (mkNudge 0 "" 0 None None scheduled None)))
    as (r & Hin & Hkept & Hst & Hat & _).
  - simpl. distinct_keys.
  - vm_compute. auto.
  - reflexivity.
  - exists r. split; [exact Hin|]. split; [|split; auto].
    unfold kept_columns in Hkept. simpl in Hkept. congruence.
Defined.

(** ** Counters of a snapshot *)

Lemma filter_partition_length {A} (f : A -> bool) (l : list A) :
  (length (filter f l) + length (filter (fun x => negb (f x)) l) = length l)%nat.
Proof.
  induction l as [|x l IH]; simpl; auto.
  destruct (f x); simpl; lia.
Qed.

Lemma filter_implies_length {A} (f g : A -> bool) (l : list A) :
  (forall x, f x = true -> g x = true) ->
  (length (filter f l) <= length (filter g l))%nat.
Proof.
  intros H. induction l as [|x l IH]; simpl; auto.
  destruct (f x) eqn:Ef.
  - rewrite (H x Ef). simpl. lia.
  - destruct (g x); simpl; lia.
Qed.

(** X15.  The counters of a nudge's payload: open and done tasks partition the
    owner's tasks; overdue, due-today and due-soon tasks are open tasks; and
    each sample lists the first three of its class, or all of them when they
    are fewer. *)
Theorem snapshot_counters (env : Env) (myTasks : list task) :
  let c := pl_counts (NudgesCron.snapshot env myTasks) in
  (c_open c + c_done c = length myTasks)%nat
  /\ (c_overdue c <= c_open c)%nat
  /\ (c_dueToday c <= c_open c)%nat
  /\ (c_dueSoon c <= c_open c)%nat
  /\ length (pl_overdue (NudgesCron.snapshot env myTasks)) = Nat.min 3 (c_overdue c)
  /\ length (pl_dueToday (NudgesCron.snapshot env myTasks)) = Nat.min 3 (c_dueToday c)
  /\ length (pl_dueSoon (NudgesCron.snapshot env myTasks)) = Nat.min 3 (c_dueSoon c).
Proof.
  unfold NudgesCron.snapshot.
  cbn [pl_counts pl_overdue pl_dueToday pl_dueSoon c_open c_done c_overdue c_dueToday
       c_dueSoon].
  split; [|split; [|split; [|split]]].
  - rewrite Nat.add_comm. apply filter_partition_length.
  - apply filter_implies_length. intros t Ht. now apply andb_true_iff in Ht as [-> _].
  - apply filter_implies_length. intros t Ht. now apply andb_true_iff in Ht as [-> _].
  - apply filter_implies_length. intros t Ht. now destruct (is_done t).
  - repeat split; rewrite length_map, length_firstn; reflexivity.
Qed.

(** X16.  When the offset of the system zone is above minus one day, as every real
    offset is, no task is counted both as overdue and as due soon: the two
    counters of a payload together do not exceed [open]. *)
Theorem overdue_and_due_soon_within_open (env : Env) (myTasks : list task) :
  - 1440 < system_zone env (now env) ->
  let c := pl_counts (NudgesCron.snapshot env myTasks) in
  (c_overdue c + c_dueSoon c <= c_open c)%nat.
Proof.
  intros Hoff.
  assert (K : forall t, (due_end_of_day (t_due_date t) <? now env) = true ->
                        (0 <=? (due_end_of_day (t_due_date t)
                                - todayEnd (NudgesCron.todayDate env)) / MS_PER_DAY) = false).
  { intros t Ho. apply Z.ltb_lt in Ho. apply Z.leb_gt.
    unfold due_end_of_day, todayEnd, NudgesCron.todayDate, local_day, MS_PER_DAY,
      MS_PER_MINUTE in *.
    change (1000 * 60 * 60 * 24) with 86400000 in *.
    change (60 * 1000) with 60000 in *.
    apply Z.div_lt_upper_bound; [lia|].
    set (x := now env + system_zone env (now env) * 60000) in *.
    pose proof (Z.mul_div_le x 86400000 eq_refl) as Hq1.
    pose proof (Z.mul_succ_div_gt x 86400000 eq_refl) as Hq2.
    assert (Hx : now env - 86340000 <= x) by (unfold x; lia).
    set (q := x / 86400000) in *.
    assert (t_due_date t <= q) by lia.
    lia. }
  unfold NudgesCron.snapshot. cbn [pl_counts c_open c_overdue c_dueSoon].
  unfold NudgesCron.overdue, NudgesCron.dueSoon.
  induction myTasks as [|t ts IH]; simpl; auto.
  destruct (is_done t); simpl; auto.
  destruct (due_end_of_day (t_due_date t) <? now env) eqn:Eo; simpl.
  - rewrite (K t Eo). simpl. lia.
  - destruct (_ && _); simpl; lia.
Qed.

Lemma overdue_and_due_soon_within_open_witness :
  let env := sample_env noon_2024_06_10 in
  let c := pl_counts (NudgesCron.snapshot env sample_tasks) in
  (c_overdue c + c_dueSoon c <= c_open c)%nat.
Proof.
  intros env.
  apply (overdue_and_due_soon_within_open env sample_tasks).
  unfold env, sample_env, utc_zone. simpl. lia.
Defined.

(** ** The rows of a team report *)

Lemma obj_get_set {A} (o : list (string * A)) (k k' : string) (v : A) :
  ReportsCron.obj_get (ReportsCron.obj_set o k v) k'
  = if String.eqb k k' then Some v else ReportsCron.obj_get o k'.
Proof.
  destruct (String.eqb_spec k k') as [<-|Hne].
  - apply obj_get_set_same.
  - now apply obj_get_set_other.
Qed.

Lemma init_fold_absent (team : list profile) (acc : list (string * member_stats)) (k : string) :
  ~ In k (map p_id team) ->
  ReportsCron.obj_get
    (fold_left (fun perUser member => ReportsCron.obj_set perUser (p_id member) (blank_stats member))
               team acc) k
  = ReportsCron.obj_get acc k.
Proof.
  revert acc. induction team as [|a team IH]; intros acc Hk; simpl; auto.
  simpl in Hk. rewrite IH by tauto. rewrite obj_get_set.
  destruct (String.eqb_spec (p_id a) k); tauto.
Qed.

Lemma init_fold_member (team : list profile) (acc : list (string * member_stats)) (m : profile) :
  NoDup (map p_id team) -> In m team ->
  ReportsCron.obj_get
    (fold_left (fun perUser member => ReportsCron.obj_set perUser (p_id member) (blank_stats member))
               team acc) (p_id m)
  = Some (blank_stats m).
Proof.
  revert acc. induction team as [|a team IH]; intros acc Hnd Hin; simpl in *; [tauto|].
  inversion Hnd as [|? ? Hnotin Hnd']; subst.
  destruct Hin as [->|Hin].
  - rewrite init_fold_absent by exact Hnotin. apply obj_get_set_same.
  - now apply IH.
Qed.

Lemma tally_absent env today perUser t u :
  ReportsCron.obj_get perUser u = None ->
  ReportsCron.obj_get (ReportsCron.tally env today perUser t) u = None.
Proof.
  intros Hu. unfold ReportsCron.tally.
  destruct (ReportsCron.obj_get perUser (t_owner_id t)) eqn:Eo; auto.
  rewrite obj_get_set. destruct (String.eqb_spec (t_owner_id t) u); congruence.
Qed.

Lemma tally_fold_absent env today ts perUser u :
  ReportsCron.obj_get perUser u = None ->
  ReportsCron.obj_get (fold_left (ReportsCron.tally env today) ts perUser) u = None.
Proof.
  revert perUser. induction ts as [|t ts IH]; intros perUser Hu; simpl; auto.
  apply IH. now apply tally_absent.
Qed.

Lemma count_of_team_tasks (ids : list string) (u : string) (p : task -> bool) (ts : list task) :
  In u ids ->
  count_of u p (filter (fun t => existsb (String.eqb (t_owner_id t)) ids) ts) = count_of u p ts.
Proof.
  intros Hu. unfold count_of. induction ts as [|t ts IH]; simpl; auto.
  destruct (existsb (String.eqb (t_owner_id t)) ids) eqn:Ex; simpl.
  - destruct (_ && _); simpl; now rewrite IH.
  - destruct (String.eqb_spec (t_owner_id t) u) as [E|_]; simpl; auto.
    exfalso. assert (existsb (String.eqb (t_owner_id t)) ids = true); [|congruence].
    apply existsb_exists. exists u. split; auto. rewrite E. apply String.eqb_refl.
Qed.

(** X17.  The summary a manager gets, when profile ids are distinct: every member
    of the team has a row, under the member's name (the address when the
    name is empty, [Unknown] when both are), whose counters are the numbers
    of the member's own tasks, among all tasks of the store, that were
    completed today, are open, are overdue and are due soon; and nobody
    outside the team has a row, whatever tasks they own. *)
Theorem summary_rows_are_the_team (env : Env) (db : DB) (manager : profile) :
  NoDup (map p_id (profiles db)) ->
  let sm := ReportsCron.build_summary env db manager in
  let today := ReportsCron.todayUtcDateStr env in
  sum_date sm = today
  /\ (forall member, In member (ReportsCron.team_of db manager) ->
        ReportsCron.obj_get (sum_perUser sm) (p_id member)
        = Some (mkStats (or_else (or_else (p_name member) (p_email member)) "Unknown")
                        (count_of (p_id member) (completed_today today) (tasks db))
                        (count_of (p_id member) (fun t => negb (is_done t)) (tasks db))
                        (count_of (p_id member) (is_overdue (now env)) (tasks db))
                        (count_of (p_id member) (is_due_soon (now env) today) (tasks db))))
  /\ (forall u, ~ In u (map p_id (ReportsCron.team_of db manager)) ->
        ReportsCron.obj_get (sum_perUser sm) u = None).
Proof.
  intros Hnd sm today. split; [reflexivity|]. split.
  - intros member Hm. unfold sm, ReportsCron.build_summary. cbn [sum_perUser].
    assert (Hinit : ReportsCron.obj_get
                      (ReportsCron.init_perUser (ReportsCron.team_of db manager)) (p_id member)
                    = Some (blank_stats member)).
    { apply init_fold_member; auto. unfold ReportsCron.team_of. now apply NoDup_map_filter. }
    rewrite (report_counters env (ReportsCron.todayUtcDateStr env) _ _ _ _ Hinit).
    unfold ReportsCron.team_tasks.
    rewrite !count_of_team_tasks by (now apply in_map).
    reflexivity.
  - intros u Hu. unfold sm, ReportsCron.build_summary. cbn [sum_perUser].
    apply tally_fold_absent. exact (init_fold_absent _ [] u Hu).
Qed.

Lemma summary_rows_are_the_team_witness :
  let env := sample_env noon_2024_06_10 in
  ReportsCron.obj_get (sum_perUser (ReportsCron.build_summary env team_db max_)) "u-alice"
  = Some (mkStats "Alice"
                  (count_of "u-alice" (completed_today 19884) sample_tasks)
                  (count_of "u-alice" (fun t => negb (is_done t)) sample_tasks)
                  (count_of "u-alice" (is_overdue noon_2024_06_10) sample_tasks)
                  (count_of "u-alice" (is_due_soon noon_2024_06_10 19884) sample_tasks))
  /\ ReportsCron.obj_get (sum_perUser (ReportsCron.build_summary env team_db max_)) "u-max"
     = None.
Proof.
  intros env.
  destruct (summary_rows_are_the_team env team_db max_) as (_ & Hin & Hout).
  - simpl. distinct_keys.
  - split.
    + apply (Hin alice). simpl. auto.
    + apply Hout. simpl. intuition discriminate.
Defined.

(** ** What the report handler sends and keeps *)

Lemma upsert_report_keys env db manager_id sm :
  exists l, map report_key (manager_reports (ReportsCron.upsert_report env db manager_id sm))
            = map report_key (manager_reports db) ++ l.
Proof.
  unfold ReportsCron.upsert_report.
  destruct (ReportsCron.existing db manager_id _) as [id|]; simpl.
  - exists []. rewrite app_nil_r, map_map. apply map_ext. intros r.
    destruct (Nat.eqb (r_id r) id); reflexivity.
  - rewrite map_app. eauto.
Qed.

Lemma upsert_report_others env db manager_id sm :
  profiles (ReportsCron.upsert_report env db manager_id sm) = profiles db
  /\ nudge_configs (ReportsCron.upsert_report env db manager_id sm) = nudge_configs db
  /\ tasks (ReportsCron.upsert_report env db manager_id sm) = tasks db
  /\ nudges (ReportsCron.upsert_report env db manager_id sm) = nudges db.
Proof.
  unfold ReportsCron.upsert_report.
  destruct (ReportsCron.existing db manager_id _); repeat split.
Qed.

Lemma report_one_sends env db outbox c manager :
  let st' := ReportsCron.report_one env (db, outbox, c) manager in
  map to (snd (fst st')) = map to outbox ++ (if has_email manager then [p_email manager] else [])
  /\ snd st' = (c + if has_email manager then 1 else 0)%nat
  /\ profiles (db_of st') = profiles db /\ nudge_configs (db_of st') = nudge_configs db
  /\ tasks (db_of st') = tasks db /\ nudges (db_of st') = nudges db
  /\ exists l, map report_key (manager_reports (db_of st'))
               = map report_key (manager_reports db) ++ l.
Proof.
  unfold ReportsCron.report_one, has_email, db_of.
  destruct (Nat.eqb _ 0).
  - destruct (negb _); simpl; rewrite ?map_app, ?app_nil_r; simpl;
      (split; [reflexivity|]); (split; [lia|]); repeat (split; [reflexivity|]);
      exists []; now rewrite app_nil_r.
  - pose proof (upsert_report_others env db (p_id manager)
                  (ReportsCron.build_summary env db manager)) as (P & C & T & N).
    pose proof (upsert_report_keys env db (p_id manager)
                  (ReportsCron.build_summary env db manager)) as K.
    destruct (negb _); simpl; rewrite ?map_app, ?app_nil_r; simpl;
      (split; [reflexivity|]); (split; [lia|]); auto.
Qed.

Lemma report_fold_sends env managers : forall db outbox c,
  let st' := fold_left (ReportsCron.report_one env) managers (db, outbox, c) in
  map to (snd (fst st')) = map to outbox ++ map p_email (filter has_email managers)
  /\ snd st' = (c + length (filter has_email managers))%nat
  /\ profiles (db_of st') = profiles db /\ nudge_configs (db_of st') = nudge_configs db
  /\ tasks (db_of st') = tasks db /\ nudges (db_of st') = nudges db
  /\ exists l, map report_key (manager_reports (db_of st'))
               = map report_key (manager_reports db) ++ l.
Proof.
  induction managers as [|m ms IH]; intros db outbox c; cbn [fold_left filter].
  - simpl. rewrite app_nil_r. repeat (split; [reflexivity || lia|]). exists []. now rewrite app_nil_r.
  - pose proof (report_one_sends env db outbox c m) as (S1 & S2 & P1 & C1 & T1 & N1 & [l1 K1]).
    destruct (ReportsCron.report_one env (db, outbox, c) m) as [[db1 out1] c1].
    unfold db_of in *. simpl in S1, S2, P1, C1, T1, N1, K1.
    specialize (IH db1 out1 c1). simpl in IH.
    destruct IH as (S1' & S2' & P1' & C1' & T1' & N1' & [l2 K2]).
    split; [|split; [|repeat (split; [congruence|])]].
    + rewrite S1', S1. rewrite <- app_assoc. f_equal.
      destruct (has_email m); reflexivity.
    + rewrite S2', S2. destruct (has_email m); simpl; lia.
    + exists (l1 ++ l2). now rewrite K2, K1, app_assoc.
Qed.

(** X18.  One run of the report handler: a mail goes to every manager with an
    address, in the order of the managers, and to nobody else;
    [reports_sent] is their number and [managers_considered] the number of
    managers; the handler writes [manager_reports] only, where every row
    that was there keeps its place, id, manager and date. *)
Theorem report_handler_mails_each_manager_once (env : Env) (db : DB) :
  let db' := fst (fst (ReportsCron.GET env db)) in
  let outbox := snd (fst (ReportsCron.GET env db)) in
  let answer := snd (ReportsCron.GET env db) in
  map to outbox = map p_email (filter has_email (ReportsCron.managers_of db))
  /\ fst answer = length outbox
  /\ snd answer = length (ReportsCron.managers_of db)
  /\ profiles db' = profiles db /\ nudge_configs db' = nudge_configs db
  /\ tasks db' = tasks db /\ nudges db' = nudges db
  /\ exists l, map report_key (manager_reports db')
               = map report_key (manager_reports db) ++ l.
Proof.
  unfold ReportsCron.GET.
  pose proof (report_fold_sends env (ReportsCron.managers_of db) db [] O)
    as (S1 & S2 & Rest).
  destruct (fold_left _ _ _) as [[db1 out1] c1]. unfold db_of in *. simpl in *.
  split; [exact S1|]. split; [|split; [reflexivity|exact Rest]].
  rewrite S2. rewrite <- (length_map to), S1, length_map. reflexivity.
Qed.

(** ** Links and the rows they name *)

Lemma to_uint_nonnil (n : nat) : Nat.to_uint n <> Decimal.Nil.
Proof.
  rewrite <- (DecimalNat.Unsigned.of_to n) at 1. rewrite DecimalNat.Unsigned.to_of.
  apply DecimalFacts.unorm_nonnil.
Qed.

Lemma uuid_text_inj (a b : nat) : uuid_text a = uuid_text b -> a = b.
Proof.
  unfold uuid_text. intros E. apply (f_equal NilZero.uint_of_string) in E.
  rewrite !NilZero.usu in E by apply to_uint_nonnil.
  injection E as E. now apply DecimalNat.Unsigned.to_uint_inj.
Qed.

Lemma uuid_text_nonempty (n : nat) : uuid_text n <> "".
Proof.
  unfold uuid_text. intros E. apply (f_equal NilZero.uint_of_string) in E.
  rewrite NilZero.usu in E by apply to_uint_nonnil. discriminate.
Qed.

Lemma uuid_text_eqb (a b : nat) : String.eqb (uuid_text a) (uuid_text b) = Nat.eqb a b.
Proof.
  destruct (Nat.eqb_spec a b) as [->|Hne].
  - apply String.eqb_refl.
  - apply String.eqb_neq. intros E. now apply Hne, uuid_text_inj.
Qed.

Lemma acknowledge_by_id (env : Env) (id : nat) (db : DB) :
  AckRoute.acknowledge env (uuid_text id) db
  = NudgesCron.update_nudge (AckRoute.mark_acknowledged (now env)) id db.
Proof.
  unfold AckRoute.acknowledge, NudgesCron.update_nudge. f_equal.
  apply map_ext. intros r. now rewrite uuid_text_eqb.
Qed.

Lemma buildAckToken_secret (env1 env2 : Env) (id : string) :
  ACK_SECRET env2 = ACK_SECRET env1 ->
  NudgesCron.buildAckToken env2 id = NudgesCron.buildAckToken env1 id.
Proof. intros E. unfold NudgesCron.buildAckToken. now rewrite E. Qed.

Lemma buildAckToken_nonempty (env : Env) (id : string) :
  NudgesCron.buildAckToken env id <> "".
Proof.
  intros E. apply (f_equal String.length) in E.
  rewrite buildAckToken_length in E. discriminate.
Qed.

Lemma GET_own_token (env : Env) (db : DB) (id : string) :
  id <> "" ->
  AckRoute.GET env db (Some id) (Some (NudgesCron.buildAckToken env id))
  = (AckRoute.Response 200 AckRoute.ThanksPage, AckRoute.acknowledge env id db).
Proof.
  intros Hid. unfold AckRoute.GET, AckRoute.is_empty.
  destruct (String.eqb_spec id ""); [congruence|].
  destruct (String.eqb_spec (NudgesCron.buildAckToken env id) "") as [E|_].
  { now apply buildAckToken_nonempty in E. }
  cbn [orb]. rewrite verifyToken_spec, buildAckToken_length, String.eqb_refl.
  reflexivity.
Qed.

(** X19.  The link mailed for a nudge does what it says: the token the nudge
    handler puts in the link for the row with identifier [id] is accepted by
    the acknowledgement route as long as the secret is the same; the answer
    is the thanks page, the rows with that identifier, and no others, get
    status [acknowledged] and the time of the request, and a second request
    with the same link is answered the same and moves [acknowledged_at] to
    its own time. *)
Theorem mailed_link_acknowledges_its_nudge (env1 env2 env3 : Env) (db : DB) (id : nat) :
  ACK_SECRET env2 = ACK_SECRET env1 ->
  ACK_SECRET env3 = ACK_SECRET env1 ->
  let i := Some (uuid_text id) in
  let t := Some (NudgesCron.buildAckToken env1 (uuid_text id)) in
  AckRoute.GET env2 db i t
  = (AckRoute.Response 200 AckRoute.ThanksPage,
     NudgesCron.update_nudge (AckRoute.mark_acknowledged (now env2)) id db)
  /\ AckRoute.GET env3 (snd (AckRoute.GET env2 db i t)) i t
     = (AckRoute.Response 200 AckRoute.ThanksPage,
        NudgesCron.update_nudge (AckRoute.mark_acknowledged (now env3)) id db).
Proof.
  intros E2 E3 i t. unfold i, t.
  assert (G : forall env db', ACK_SECRET env = ACK_SECRET env1 ->
                AckRoute.GET env db' (Some (uuid_text id))
                  (Some (NudgesCron.buildAckToken env1 (uuid_text id)))
                = (AckRoute.Response 200 AckRoute.ThanksPage,
                   NudgesCron.update_nudge (AckRoute.mark_acknowledged (now env)) id db')).
  { intros env db' E. rewrite <- (buildAckToken_secret env1 env _ E).
    rewrite GET_own_token by apply uuid_text_nonempty. now rewrite acknowledge_by_id. }
  rewrite !G by assumption. split; [reflexivity|]. cbn [snd]. f_equal.
  unfold NudgesCron.update_nudge. destruct db as [ps cs ts ns rs]. unfold with_nudges.
  cbn [nudges profiles nudge_configs tasks manager_reports]. f_equal.
  rewrite map_map. apply map_ext. intros r.
  destruct (Nat.eqb (n_id r) id) eqn:Eid; cbn [AckRoute.mark_acknowledged n_id];
    rewrite Eid; reflexivity.
Qed.

Lemma mailed_link_acknowledges_its_nudge_witness :
  let env1 := sample_env noon_2024_06_10 in
  let env2 := sample_env (noon_2024_06_10 + MS_PER_HOUR) in
  let env3 := mail_down_env (noon_2024_06_10 + 2 * MS_PER_HOUR) in
  let i := Some (uuid_text 1) in
  let t := Some (NudgesCron.buildAckToken env1 (uuid_text 1)) in
  AckRoute.GET env2 unsent_db i t
  = (AckRoute.Response 200 AckRoute.ThanksPage,
     NudgesCron.update_nudge (AckRoute.mark_acknowledged (now env2)) 1 unsent_db)
  /\ AckRoute.GET env3 (snd (AckRoute.GET env2 unsent_db i t)) i t
     = (AckRoute.Response 200 AckRoute.ThanksPage,
        NudgesCron.update_nudge (AckRoute.mark_acknowledged (now env3)) 1 unsent_db).
Proof.
  intros env1 env2 env3.
  apply (mailed_link_acknowledges_its_nudge env1 env2 env3 unsent_db 1); reflexivity.
Defined.

(** X20.  The route does not look at what the update matched: a request with a
    good token for an identifier that no row carries is answered with the
    thanks page, and the store is left as it was. *)
Theorem ack_of_a_missing_row_still_thanks (env : Env) (db : DB) (id : string) :
  id <> "" ->
  (forall r, In r (nudges db) -> uuid_text (n_id r) <> id) ->
  AckRoute.GET env db (Some id) (Some (NudgesCron.buildAckToken env id))
  = (AckRoute.Response 200 AckRoute.ThanksPage, db).
Proof.
  intros Hid Hnone. rewrite GET_own_token by exact Hid. f_equal.
  unfold AckRoute.acknowledge. destruct db as [ps cs ts ns rs]. unfold with_nudges.
  cbn [nudges profiles nudge_configs tasks manager_reports] in *. f_equal.
  rewrite <- (map_id ns) at 2. apply map_ext_in. intros r Hr.
  destruct (String.eqb_spec (uuid_text (n_id r)) id) as [E|_]; auto.
  now apply Hnone in E.
Qed.

Lemma ack_of_a_missing_row_still_thanks_witness :
  AckRoute.GET (sample_env noon_2024_06_10) unsent_db (Some "no-such-row")
    (Some (NudgesCron.buildAckToken (sample_env noon_2024_06_10) "no-such-row"))
  = (AckRoute.Response 200 AckRoute.ThanksPage, unsent_db).
Proof.
  apply (ack_of_a_missing_row_still_thanks (sample_env noon_2024_06_10) unsent_db
           "no-such-row").
  - discriminate.
  - simpl. intros r [<-|[]]. vm_compute. discriminate.
Defined.

Lemma invalid_ack_changes_nothing_witness :
  let env := sample_env noon_2024_06_10 in
  let answer := AckRoute.GET env unsent_db (Some "1") (Some "93bda3e6") in
  snd answer = unsent_db
  /\ (fst answer = AckRoute.Response 400 AckRoute.InvalidLinkPage
      \/ fst answer = AckRoute.Throws_RangeError)
  /\ (fst answer = AckRoute.Throws_RangeError
      <-> exists id token, Some "1" = Some id /\ Some "93bda3e6" = Some token /\ id <> ""
                           /\ token <> "" /\ String.length token <> 64%nat).
Proof.
  intros env.
  apply (invalid_ack_changes_nothing env unsent_db (Some "1") (Some "93bda3e6")).
  intros id _ E. injection E as E. apply (f_equal String.length) in E.
  rewrite buildAckToken_length in E. discriminate.
Defined.

(** ** The alphabet of a token *)

Lemma hex_digit_lower (d : Z) : is_lower_hex (Sha256.hex_digit d) = true.
Proof.
  unfold Sha256.hex_digit.
  assert (H : (Z.to_nat (d mod 16) < 16)%nat).
  { pose proof (Z.mod_pos_bound d 16). lia. }
  revert H. generalize (Z.to_nat (d mod 16)). intros n Hn.
  do 16 (destruct n as [|n]; [reflexivity|]). lia.
Qed.

Lemma hex_lower (bs : list Z) :
  forallb is_lower_hex (list_ascii_of_string (Sha256.hex bs)) = true.
Proof.
  induction bs as [|b bs IH]; [reflexivity|].
  cbn [Sha256.hex list_ascii_of_string forallb].
  now rewrite !hex_digit_lower, IH.
Qed.

(** X23.  Whatever the secret and the identifier, the token is 64 characters out
    of [0-9a-f], so that it needs no escaping in the query of the link. *)
Theorem ack_token_is_lowercase_hex (env : Env) (id : string) :
  String.length (NudgesCron.buildAckToken env id) = 64%nat
  /\ forallb is_lower_hex (list_ascii_of_string (NudgesCron.buildAckToken env id)) = true.
Proof.
  split; [apply buildAckToken_length|].
  unfold NudgesCron.buildAckToken, Sha256.hmac_sha256_hex. apply hex_lower.
Qed.
